(** * Deal economics of the wholesaling backend (backend/server.py)

    A shallow embedding of the deal calculator ([calculate_mao]), of deal
    creation ([create_deal]) and of deal updates ([update_deal]), together
    with the properties the specification states about them; and of the
    lead, agent, buyer, call-log and seed routes, with further properties
    that the code has.

    Numbers are Python floats, i.e. IEEE-754 binary64 values; they are
    modelled by the executable specification of binary floating point of
    the standard library ([spec_float], precision 53, round to nearest
    even), and related to the real numbers they stand for by [B2R].
    MongoDB documents and Python dicts are finite maps from field names to
    values; a collection is the list of its documents in natural order.
    A handler is modelled by what it returns or raises and by the store
    it leaves; the validation and the encoding of requests and responses
    by the web framework are not part of the model. *)

From Stdlib Require Import ZArith Lia Reals Lra.
From Stdlib Require Import SpecFloat.
From stdpp Require Import gmap strings list fin_maps.

Local Open Scope Z_scope.

(** ** Binary64 arithmetic *)

Module Float64.

Definition prec : Z := 53.
Definition emax : Z := 1024.

Definition mul : spec_float -> spec_float -> spec_float := SFmul prec emax.
Definition add : spec_float -> spec_float -> spec_float := SFadd prec emax.
Definition sub : spec_float -> spec_float -> spec_float := SFsub prec emax.
Definition div : spec_float -> spec_float -> spec_float := SFdiv prec emax.
Definition abs : spec_float -> spec_float := SFabs.
Definition eqb : spec_float -> spec_float -> bool := SFeqb.
Definition leb : spec_float -> spec_float -> bool := SFleb.
Definition ltb : spec_float -> spec_float -> bool := SFltb.

(** The float nearest to the integer [z] (exact when [|z| <= 2^53]). *)
Definition of_Z (z : Z) : spec_float := binary_normalize prec emax z 0 false.

(** The float denoted by the decimal literal [n * 10^-k]: the nearest
  binary64 value, as Python's parser yields it. *)
Definition of_decimal (n : Z) (k : Z) : spec_float :=
  match n with
  | Z0 => S754_zero false
  | Zpos p => div (S754_finite false p 0) (S754_finite false (Z.to_pos (10 ^ k)) 0)
  | Zneg p => div (S754_finite true p 0) (S754_finite false (Z.to_pos (10 ^ k)) 0)
  end.

Definition is_finite (x : spec_float) : bool :=
  match x with S754_zero _ | S754_finite _ _ _ => true | _ => false end.

(** [0 <= x] as Python evaluates it (false on NaN, true on both zeros). *)
Definition nonneg (x : spec_float) : bool := leb (S754_zero false) x.

(** Nearest integer to [a / b], ties to the even one ([0 <= a], [0 < b]). *)
Definition div_half_even (a b : Z) : Z :=
  let q := a / b in
  match 2 * (a mod b) ?= b with
  | Lt => q
  | Gt => q + 1
  | Eq => if Z.even q then q else q + 1
  end.

(** Nearest integer to [m * 2^e * 10^ndigits], ties to even. *)
Definition scaled (m : positive) (e : Z) (ndigits : Z) : Z :=
  if 0 <=? e then Zpos m * 2 ^ e * 10 ^ ndigits
  else div_half_even (Zpos m * 10 ^ ndigits) (2 ^ (- e)).

(** Python's [round(x, ndigits)] on a float, for [0 <= ndigits]: the
  exact binary value of [x] is rounded to [ndigits] decimals (ties to
  even) and the decimal result is converted back to the nearest float.
  Zeros, infinities and NaN round to themselves; the sign of a value
  that rounds to zero is kept. *)
Definition round (x : spec_float) (ndigits : Z) : spec_float :=
  match x with
  | S754_finite s m e =>
      match scaled m e ndigits with
      | Zpos n => div (S754_finite s n 0) (S754_finite false (Z.to_pos (10 ^ ndigits)) 0)
      | _ => S754_zero s
      end
  | _ => x
  end.

End Float64.

Abbreviation float := spec_float.

(** ** Python values, exceptions and arithmetic *)

Inductive exn :=
  | OverflowError
  | HTTPException (status_code : Z) (detail : string).

Inductive result (A : Type) :=
  | Ok (a : A)
  | Raise (e : exn).
Arguments Ok {A} a.
Arguments Raise {A} e.

Definition bind {A B : Type} (r : result A) (k : A -> result B) : result B :=
  match r with
  | Ok a => k a
  | Raise e => Raise e
  end.

Notation "x <- r ;; k" := (bind r (fun x => k))
  (at level 100, r at next level, right associativity).

(** A number as the calculator handles it: [data.get(key, 0)] is the int
    [0] when the key is absent and a float otherwise. *)
Inductive pynum :=
  | PyInt (z : Z)
  | PyFloat (f : float).

(** [float(z)]: the nearest float, [OverflowError] when it is out of range. *)
Definition float_of_int (z : Z) : result float :=
  match Float64.of_Z z with
  | S754_infinity _ => Raise OverflowError
  | f => Ok f
  end.

Definition py_mul (a b : pynum) : result pynum :=
  match a, b with
  | PyInt x, PyInt y => Ok (PyInt (x * y))
  | PyFloat x, PyFloat y => Ok (PyFloat (Float64.mul x y))
  | PyInt x, PyFloat y => fx <- float_of_int x ;; Ok (PyFloat (Float64.mul fx y))
  | PyFloat x, PyInt y => fy <- float_of_int y ;; Ok (PyFloat (Float64.mul x fy))
  end.

Definition py_sub (a b : pynum) : result pynum :=
  match a, b with
  | PyInt x, PyInt y => Ok (PyInt (x - y))
  | PyFloat x, PyFloat y => Ok (PyFloat (Float64.sub x y))
  | PyInt x, PyFloat y => fx <- float_of_int x ;; Ok (PyFloat (Float64.sub fx y))
  | PyFloat x, PyInt y => fy <- float_of_int y ;; Ok (PyFloat (Float64.sub x fy))
  end.

(** [round(a, ndigits)] with [0 <= ndigits]: an int is returned as it is. *)
Definition py_round (a : pynum) (ndigits : Z) : pynum :=
  match a with
  | PyInt z => PyInt z
  | PyFloat f => PyFloat (Float64.round f ndigits)
  end.

(** The literal [0.70]. *)
Definition lit_0_70 : float := Eval vm_compute in Float64.of_decimal 70 2.

(** ** Deal calculator *)

(** [dict.get(key, default)] on the validated request body, a
    [Dict[str, float]]. *)
Definition get (data : gmap string float) (key : string) (default : pynum) : pynum :=
  match data !! key with
  | Some f => PyFloat f
  | None => default
  end.

Definition calculate_mao (data : gmap string float) : result (gmap string pynum) :=
  let arv := get data "arv" (PyInt 0) in
  let rehab := get data "rehab_estimate" (PyInt 0) in
  let assignment_fee := get data "assignment_fee" (PyInt 10000) in
  mao <- (a <- py_mul arv (PyFloat lit_0_70) ;;
          b <- py_sub a rehab ;;
          py_sub b assignment_fee) ;;
  profit_at_mao <- (a <- py_sub arv mao ;;
                    b <- py_sub a rehab ;;
                    py_sub b assignment_fee) ;;
  seventy <- py_mul arv (PyFloat lit_0_70) ;;
  Ok (list_to_map
        [ ("arv", arv);
          ("rehab_estimate", rehab);
          ("assignment_fee", assignment_fee);
          ("max_allowable_offer", py_round mao 2);
          ("profit_at_mao", py_round profit_at_mao 2);
          ("seventy_percent_arv", py_round seventy 2) ]).

(** ** Enumerations *)

Module LeadStage.
Inductive t := RAW | WARM | HOT | DEAL | DNC | DEAD.
Definition value (s : t) : string :=
  match s with
  | RAW => "raw" | WARM => "warm" | HOT => "hot"
  | DEAL => "deal" | DNC => "dnc" | DEAD => "dead"
  end.
End LeadStage.

Module DealStatus.
Inductive t := UNDER_CONTRACT | IN_DISPOSITION | CLOSING | CLOSED | DEAD.
Definition value (s : t) : string :=
  match s with
  | UNDER_CONTRACT => "under_contract"
  | IN_DISPOSITION => "in_disposition"
  | CLOSING => "closing"
  | CLOSED => "closed"
  | DEAD => "dead"
  end.
End DealStatus.

(** ** Documents and collections *)

(** A field value of a stored document.  Enumeration members are [str]
    subclasses and are stored as their string value. *)
Inductive value :=
  | VNone
  | VBool (b : bool)
  | VInt (z : Z)
  | VFloat (f : float)
  | VStr (s : string).

Abbreviation document := (gmap string value).

Definition of_option (o : option string) : value :=
  match o with
  | Some s => VStr s
  | None => VNone
  end.

(** The two collections the deal routes touch.  The [_id] key that the
    store adds to every document is projected away by each read
    ([{"_id": 0}]) and is left out. *)
Record database := { deals : list document; leads : list document }.

(** Does the document satisfy the query [{"id": id}]? *)
Definition matches_id (id : string) (d : document) : bool :=
  match d !! "id" with
  | Some (VStr s) => bool_decide (s = id)
  | _ => false
  end.

(** [collection.find_one({"id": id})]: the first match, or [None]. *)
Fixpoint find_one (coll : list document) (id : string) : option document :=
  match coll with
  | [] => None
  | d :: rest => if matches_id id d then Some d else find_one rest id
  end.

(** [collection.insert_one(doc)]. *)
Definition insert_one (coll : list document) (d : document) : list document :=
  coll ++ [d].

(** [collection.update_one({"id": id}, {"$set": fields})]: the first match
    gets the given fields overwritten; the second component is
    [matched_count]. *)
Fixpoint update_one (coll : list document) (id : string) (fields : document)
  : list document * nat :=
  match coll with
  | [] => ([], 0%nat)
  | d :: rest =>
      if matches_id id d then ((fields ∪ d) :: rest, 1%nat)
      else let '(rest', n) := update_one rest id fields in (d :: rest', n)
  end.

(** ** Models *)

Module DealCreate.
Record t := {
  lead_id : string;
  property_address : string;
  arv : float;
  rehab_estimate : float;
  contract_price : float;
  assignment_fee : float;
  contract_signed_date : option string;
  closing_date : option string;
  title_company : option string;
  earnest_money : float;
  notes : option string
}.

(** Construction from a request body: the first five fields are
    required, an omitted defaulted field ([None] here) takes the class
    default.  The defaults [10000] and [0] are int literals; Python
    converts them to the floats [10000.0] and [0.0] without rounding
    where they are used. *)
Definition make (lead_id property_address : string)
    (arv rehab_estimate contract_price : float)
    (assignment_fee : option float)
    (contract_signed_date closing_date title_company : option string)
    (earnest_money : option float) (notes : option string) : t :=
  {| lead_id := lead_id;
     property_address := property_address;
     arv := arv;
     rehab_estimate := rehab_estimate;
     contract_price := contract_price;
     assignment_fee := default (Float64.of_Z 10000) assignment_fee;
     contract_signed_date := contract_signed_date;
     closing_date := closing_date;
     title_company := title_company;
     earnest_money := default (Float64.of_Z 0) earnest_money;
     notes := notes |}.
End DealCreate.

Module Deal.
Record t := {
  id : string;
  lead_id : string;
  property_address : string;
  arv : float;
  rehab_estimate : float;
  contract_price : float;
  assignment_fee : float;
  max_allowable_offer : float;
  profit_estimate : float;
  status : DealStatus.t;
  contract_signed_date : option string;
  closing_date : option string;
  buyer_id : option string;
  buyer_name : option string;
  title_company : option string;
  earnest_money : float;
  notes : option string;
  created_at : string
}.

Definition model_dump (d : t) : document :=
  list_to_map
    [ ("id", VStr (id d));
      ("lead_id", VStr (lead_id d));
      ("property_address", VStr (property_address d));
      ("arv", VFloat (arv d));
      ("rehab_estimate", VFloat (rehab_estimate d));
      ("contract_price", VFloat (contract_price d));
      ("assignment_fee", VFloat (assignment_fee d));
      ("max_allowable_offer", VFloat (max_allowable_offer d));
      ("profit_estimate", VFloat (profit_estimate d));
      ("status", VStr (DealStatus.value (status d)));
      ("contract_signed_date", of_option (contract_signed_date d));
      ("closing_date", of_option (closing_date d));
      ("buyer_id", of_option (buyer_id d));
      ("buyer_name", of_option (buyer_name d));
      ("title_company", of_option (title_company d));
      ("earnest_money", VFloat (earnest_money d));
      ("notes", of_option (notes d));
      ("created_at", VStr (created_at d)) ].
End Deal.

Module DealUpdate.
Record t := {
  status : option DealStatus.t;
  buyer_id : option string;
  buyer_name : option string;
  closing_date : option string;
  notes : option string
}.

(** [{k: v for k, v in update.model_dump().items() if v is not None}] *)
Definition set_field (k : string) (o : option value) (m : document) : document :=
  match o with
  | Some v => <[k := v]> m
  | None => m
  end.

Definition update_data (u : t) : document :=
  set_field "status" (VStr ∘ DealStatus.value <$> status u)
    (set_field "buyer_id" (VStr <$> buyer_id u)
       (set_field "buyer_name" (VStr <$> buyer_name u)
          (set_field "closing_date" (VStr <$> closing_date u)
             (set_field "notes" (VStr <$> notes u) ∅)))).
End DealUpdate.

(** ** Deal routes *)

(** [create_deal]: [new_id] and [now] are what [uuid.uuid4()] and the
    clock give to the defaults of [Deal.id] and [Deal.created_at]. *)
Definition create_deal (deal_data : DealCreate.t) (new_id now : string)
    (db : database) : Deal.t * database :=
  let mao :=
    Float64.sub
      (Float64.sub (Float64.mul (DealCreate.arv deal_data) lit_0_70)
                   (DealCreate.rehab_estimate deal_data))
      (DealCreate.assignment_fee deal_data) in
  let profit :=
    Float64.sub
      (Float64.sub
         (Float64.sub (DealCreate.arv deal_data) (DealCreate.contract_price deal_data))
         (DealCreate.rehab_estimate deal_data))
      (DealCreate.assignment_fee deal_data) in
  let deal :=
    {| Deal.id := new_id;
       Deal.lead_id := DealCreate.lead_id deal_data;
       Deal.property_address := DealCreate.property_address deal_data;
       Deal.arv := DealCreate.arv deal_data;
       Deal.rehab_estimate := DealCreate.rehab_estimate deal_data;
       Deal.contract_price := DealCreate.contract_price deal_data;
       Deal.assignment_fee := DealCreate.assignment_fee deal_data;
       Deal.max_allowable_offer := mao;
       Deal.profit_estimate := profit;
       Deal.status := DealStatus.UNDER_CONTRACT;
       Deal.contract_signed_date := DealCreate.contract_signed_date deal_data;
       Deal.closing_date := DealCreate.closing_date deal_data;
       Deal.buyer_id := None;
       Deal.buyer_name := None;
       Deal.title_company := DealCreate.title_company deal_data;
       Deal.earnest_money := DealCreate.earnest_money deal_data;
       Deal.notes := DealCreate.notes deal_data;
       Deal.created_at := now |} in
  let deals' := insert_one (deals db) (Deal.model_dump deal) in
  let leads' :=
    fst (update_one (leads db) (DealCreate.lead_id deal_data)
           {[ "stage" := VStr "deal" ]}) in
  (deal, {| deals := deals'; leads := leads' |}).

(** [update_deal]: the response (the re-read document, or the exception
    raised) and the database afterwards. *)
Definition update_deal (deal_id : string) (update : DealUpdate.t)
    (db : database) : result (option document) * database :=
  let update_data := DealUpdate.update_data update in
  if decide (update_data = ∅) then
    (Raise (HTTPException 400 "No update data provided"), db)
  else
    let '(deals', matched_count) := update_one (deals db) deal_id update_data in
    let db' := {| deals := deals'; leads := leads db |} in
    if (matched_count =? 0)%nat then
      (Raise (HTTPException 404 "Deal not found"), db')
    else
      (Ok (find_one deals' deal_id), db').

(** A sequence of update requests, each run on the database the previous
    one left. *)
Definition run_updates (reqs : list (string * DealUpdate.t)) (db : database)
  : database :=
  foldl (fun db req => snd (update_deal req.1 req.2 db)) db reqs.

(** ** The specification's formulas *)

(** The float a number of the calculator stands for in arithmetic. *)
Definition to_float (p : pynum) : float :=
  match p with
  | PyInt z => Float64.of_Z z
  | PyFloat f => f
  end.

(** The three operations of the specification, written as its text
    writes them and evaluated in binary64 from left to right. *)
Module Spec.
Definition computeMAO (arv rehab fee : float) : float :=
  Float64.sub (Float64.sub (Float64.mul lit_0_70 arv) rehab) fee.
Definition computeProfitEstimate (arv contractPrice rehab fee : float) : float :=
  Float64.sub (Float64.sub (Float64.sub arv contractPrice) rehab) fee.
Definition computeProfitAtMAO (arv rehab fee : float) : float :=
  Float64.sub (Float64.sub (Float64.sub arv (computeMAO arv rehab fee)) rehab) fee.
End Spec.

(** The literal [0.30] and the tolerance [1e-9] of the specification. *)
Definition lit_0_30 : float := Eval vm_compute in Float64.of_decimal 30 2.
Definition lit_1e_9 : float := Eval vm_compute in Float64.of_decimal 1 9.

(** [abs(x - y) <= tol] *)
Definition close_to (x y tol : float) : bool :=
  Float64.leb (Float64.abs (Float64.sub x y)) tol.

(** The response of the calculator for given (possibly defaulted) inputs. *)
Definition mao_response (arv rehab fee : pynum) : gmap string pynum :=
  let a := to_float arv in let r := to_float rehab in let f := to_float fee in
  list_to_map
    [ ("arv", arv); ("rehab_estimate", rehab); ("assignment_fee", fee);
      ("max_allowable_offer", PyFloat (Float64.round (Spec.computeMAO a r f) 2));
      ("profit_at_mao", PyFloat (Float64.round (Spec.computeProfitAtMAO a r f) 2));
      ("seventy_percent_arv", PyFloat (Float64.round (Float64.mul lit_0_70 a) 2)) ].

(** ** Relations between documents *)

(** The identity and the two derived fields of a deal are the same in
    both documents. *)
Definition same_derived (d d' : document) : Prop :=
  d' !! "id" = d !! "id" /\
  d' !! "max_allowable_offer" = d !! "max_allowable_offer" /\
  d' !! "profit_estimate" = d !! "profit_estimate".

(** Two documents that agree on every field but [key]. *)
Definition same_except (key : string) (d d' : document) : Prop :=
  forall k : string, k <> key -> d' !! k = d !! k.

(** The request body with another contract price. *)
Definition with_contract_price (d : DealCreate.t) (c : float) : DealCreate.t :=
  {| DealCreate.lead_id := DealCreate.lead_id d;
     DealCreate.property_address := DealCreate.property_address d;
     DealCreate.arv := DealCreate.arv d;
     DealCreate.rehab_estimate := DealCreate.rehab_estimate d;
     DealCreate.contract_price := c;
     DealCreate.assignment_fee := DealCreate.assignment_fee d;
     DealCreate.contract_signed_date := DealCreate.contract_signed_date d;
     DealCreate.closing_date := DealCreate.closing_date d;
     DealCreate.title_company := DealCreate.title_company d;
     DealCreate.earnest_money := DealCreate.earnest_money d;
     DealCreate.notes := DealCreate.notes d |}.

(** The profit estimate that [create_deal] stores for the body [d] with
    the contract price replaced by [c]. *)
Definition profit_at (d : DealCreate.t) (c : float) (new_id now : string)
    (db : database) : float :=
  Deal.profit_estimate (create_deal (with_contract_price d c) new_id now db).1.

(** ** Sample requests *)

Definition empty_db : database := {| deals := []; leads := [] |}.

(** Scenario 1 of the specification. *)
Definition scenario_1_data : gmap string float :=
  {[ "arv" := Float64.of_Z 200000; "rehab_estimate" := Float64.of_Z 35000;
     "assignment_fee" := Float64.of_Z 10000 ]}.

(** Scenario 3 of the specification. *)
Definition scenario_3_data : gmap string float :=
  {[ "arv" := Float64.of_Z 0; "rehab_estimate" := Float64.of_Z 0;
     "assignment_fee" := Float64.of_Z 10000 ]}.

(** A rehab estimate of [2^60] next to an after-repair value of [1]: the
    subtractions absorb the after-repair value. *)
Definition cancelling_data : gmap string float :=
  {[ "arv" := Float64.of_Z 1; "rehab_estimate" := Float64.of_Z (2 ^ 60);
     "assignment_fee" := Float64.of_Z 0 ]}.

(** An after-repair value of [100.01] with nothing to take off: the
    offer has more than two decimals. *)
Definition rounding_data : gmap string float :=
  {[ "arv" := Float64.of_decimal 10001 2; "rehab_estimate" := Float64.of_Z 0;
     "assignment_fee" := Float64.of_Z 0 ]}.

(** An after-repair value of [2^60] with nothing to take off. *)
Definition large_deal : DealCreate.t :=
  DealCreate.make "lead" "address"
    (Float64.of_Z (2 ^ 60)) (Float64.of_Z 0) (Float64.of_Z 0)
    (Some (Float64.of_Z 0)) None None None None None.

(** Scenario 2 of the specification as a request body. *)
Definition scenario_2_deal : DealCreate.t :=
  DealCreate.make "sample_lead_1" "1234 Main St, Houston TX"
    (Float64.of_Z 180000) (Float64.of_Z 35000) (Float64.of_Z 85000)
    (Some (Float64.of_Z 12000)) None None None None None.

(** After-repair value and rehab estimate of [2^54], where floats are
    four apart: a contract price of [1] is absorbed. *)
Definition absorbing_deal : DealCreate.t :=
  DealCreate.make "lead" "address"
    (Float64.of_Z (2 ^ 54)) (Float64.of_Z (2 ^ 54)) (Float64.of_Z 0)
    (Some (Float64.of_Z 0)) None None None None None.

(** The database after Scenario 2's deal was created in an empty one. *)
Definition scenario_2_db : database :=
  (create_deal scenario_2_deal "deal-1" "2026-01-01T00:00:00+00:00" empty_db).2.

Definition close_request : DealUpdate.t :=
  {| DealUpdate.status := Some DealStatus.CLOSED;
     DealUpdate.buyer_id := None;
     DealUpdate.buyer_name := None;
     DealUpdate.closing_date := None;
     DealUpdate.notes := None |}.

(** ** Real values of floats *)

Definition bpow (e : Z) : R := powerRZ 2 e.

(** The real number a float stands for (0 for infinities and NaN). *)
Definition B2R (x : float) : R :=
  match x with
  | S754_finite s m e => (IZR (if s then Zneg m else Zpos m) * bpow e)%R
  | _ => 0%R
  end.

(** The exponent binary64 gives to a number of magnitude below [2^e]. *)
Definition fexp64 (e : Z) : Z := fexp Float64.prec Float64.emax e.

(** The float of sign [s], mantissa [z] and exponent [e] as rounding
    returns it. *)
Definition mk_float (s : bool) (z e : Z) : float :=
  match z with
  | 0 => S754_zero s
  | Zpos p =>
      if e <=? Float64.emax - Float64.prec then S754_finite s p e else S754_infinity s
  | Zneg _ => S754_nan
  end.

(** The location [loc] says where the remainder [r] of a division by [b]
    lies with respect to half of [b]. *)
Definition loc_ok (b r : Z) (loc : location) : Prop :=
  match loc with
  | loc_Exact => r = 0
  | loc_Inexact Lt => 0 < 2 * r < b
  | loc_Inexact Eq => 2 * r = b
  | loc_Inexact Gt => b < 2 * r
  end.

(** What [n] right shifts keep of the fraction [N / b]: the quotient by
    [2^n], and in the two sticky bits the position of the remainder [rho]
    with respect to half of [b * 2^n]. *)
Definition shr_frac (N b n : Z) (st : shr_record) : Prop :=
  0 <= shr_m st /\
  exists rho, N = shr_m st * (b * 2 ^ n) + rho /\ 0 <= rho < b * 2 ^ n /\
    (shr_r st = true <-> b * 2 ^ n <= 2 * rho) /\
    (shr_s st = true <-> rho <> 0 /\ 2 * rho <> b * 2 ^ n).

(** Canonical representation, as every float Python holds has it. *)
Definition valid (x : float) : bool := valid_binary Float64.prec Float64.emax x.

(** A finite, non-negative amount of at most [2^k]. *)
Definition amount (k : Z) (x : float) : Prop :=
  valid x = true /\ Float64.is_finite x = true /\ (0 <= B2R x <= bpow k)%R.

(** A finite float whose value is the integer [n]. *)
Definition integral (x : float) (n : Z) : Prop :=
  Float64.is_finite x = true /\ B2R x = IZR n.

(** A finite value of magnitude at most [b]. *)
Definition within (b : R) (x : float) : Prop :=
  Float64.is_finite x = true /\ (Rabs (B2R x) <= b)%R.

(** ** Driver encoding and more collection operations *)

(** An int the store can hold: at most 8 bytes. *)
Definition int64 (z : Z) : bool := (- 2 ^ 63 <=? z) && (z <? 2 ^ 63).

Definition encodable_value (v : value) : bool :=
  match v with
  | VInt z => int64 z
  | _ => true
  end.

(** The driver encodes a document before it sends it, and raises
    [OverflowError] on an int beyond 8 bytes. *)
Definition encodable (d : document) : bool :=
  bool_decide (map_Forall (fun _ v => encodable_value v = true) d).

Definition opt {A : Type} (f : A -> value) (o : option A) : value :=
  match o with
  | Some a => f a
  | None => VNone
  end.

(** What a handler can raise: a Python exception, or the store's refusal
    of a write ([pymongo.errors.WriteError]). *)
Inductive failure :=
  | Exn (e : exn)
  | WriteError (errmsg : string).

Inductive reply (A : Type) :=
  | Return (a : A)
  | Fail (f : failure).
Arguments Return {A} a.
Arguments Fail {A} f.

(** Operations on the first document that a query matches, for any kind
    of document. *)
Section FirstMatch.
Context {D : Type} (matches : D -> bool).

Fixpoint find_first (coll : list D) : option D :=
  match coll with
  | [] => None
  | d :: rest => if matches d then Some d else find_first rest
  end.

(** The first match is replaced by what the update operator [f] makes of
    it; a refusal of [f] leaves the collection as it is.  The count is
    [matched_count]. *)
Fixpoint update_first (f : D -> reply D) (coll : list D) : reply (list D * nat) :=
  match coll with
  | [] => Return ([], 0%nat)
  | d :: rest =>
      if matches d then
        match f d with
        | Return d' => Return (d' :: rest, 1%nat)
        | Fail e => Fail e
        end
      else
        match update_first f rest with
        | Return (rest', n) => Return (d :: rest', n)
        | Fail e => Fail e
        end
  end.

(** The first match is removed; the count is [deleted_count]. *)
Fixpoint delete_first (coll : list D) : list D * nat :=
  match coll with
  | [] => ([], 0%nat)
  | d :: rest =>
      if matches d then (rest, 1%nat)
      else let '(rest', n) := delete_first rest in (d :: rest', n)
  end.
End FirstMatch.

(** [collection.delete_one({"id": id})] *)
Definition delete_one (coll : list document) (id : string) : list document * nat :=
  delete_first (matches_id id) coll.

(** The update operator [{"$inc": {key: 1}}] on the value of a field: an
    absent field is set to [1], an int or a float is incremented,
    anything else is refused, and so is an int that would leave 8 bytes. *)
Definition inc_value (o : option value) : reply value :=
  match o with
  | None => Return (VInt 1)
  | Some (VInt z) =>
      if int64 (z + 1) then Return (VInt (z + 1))
      else Fail (WriteError "Failed to apply $inc operations to current value")
  | Some (VFloat f) => Return (VFloat (Float64.add f (Float64.of_Z 1)))
  | Some _ => Fail (WriteError "Cannot apply $inc to a value of non-numeric type")
  end.

Definition inc (key : string) (d : document) : reply document :=
  match inc_value (d !! key) with
  | Return v => Return (<[key := v]> d)
  | Fail e => Fail e
  end.

(** ** Leads *)

Module LeadCreate.
Record t := {
  property_address : string;
  city : string;
  county : string;
  zip_code : string;
  owner_name : string;
  phone_1 : string;
  phone_2 : option string;
  phone_3 : option string;
  data_source : string;
  motivation_score : Z;
  asking_price : option float;
  property_type : string;
  bedrooms : option Z;
  bathrooms : option float;
  sqft : option Z;
  condition : string;
  is_vacant : bool;
  notes : option string
}.

(** Construction from a request body: an omitted defaulted field
    ([None] here) takes the class default. *)
Definition make (property_address city county zip_code owner_name phone_1 : string)
    (phone_2 phone_3 : option string) (data_source : string)
    (motivation_score : option Z) (asking_price : option float)
    (property_type : option string) (bedrooms : option Z) (bathrooms : option float)
    (sqft : option Z) (condition : option string) (is_vacant : option bool)
    (notes : option string) : t :=
  {| property_address := property_address;
     city := city;
     county := county;
     zip_code := zip_code;
     owner_name := owner_name;
     phone_1 := phone_1;
     phone_2 := phone_2;
     phone_3 := phone_3;
     data_source := data_source;
     motivation_score := default 0 motivation_score;
     asking_price := asking_price;
     property_type := default "single_family" property_type;
     bedrooms := bedrooms;
     bathrooms := bathrooms;
     sqft := sqft;
     condition := default "unknown" condition;
     is_vacant := default false is_vacant;
     notes := notes |}.
End LeadCreate.

Module Lead.
Record t := {
  id : string;
  property_address : string;
  city : string;
  county : string;
  zip_code : string;
  owner_name : string;
  phone_1 : string;
  phone_2 : option string;
  phone_3 : option string;
  data_source : string;
  motivation_score : Z;
  asking_price : option float;
  property_type : string;
  bedrooms : option Z;
  bathrooms : option float;
  sqft : option Z;
  condition : string;
  is_vacant : bool;
  has_mortgage : bool;
  mortgage_balance : option float;
  stage : LeadStage.t;
  assigned_agent : option string;
  do_not_call : bool;
  total_attempts : Z;
  last_called_at : option string;
  notes : option string;
  created_at : string
}.

Definition model_dump (l : t) : document :=
  list_to_map
    [ ("id", VStr (id l));
      ("property_address", VStr (property_address l));
      ("city", VStr (city l));
      ("county", VStr (county l));
      ("zip_code", VStr (zip_code l));
      ("owner_name", VStr (owner_name l));
      ("phone_1", VStr (phone_1 l));
      ("phone_2", of_option (phone_2 l));
      ("phone_3", of_option (phone_3 l));
      ("data_source", VStr (data_source l));
      ("motivation_score", VInt (motivation_score l));
      ("asking_price", opt VFloat (asking_price l));
      ("property_type", VStr (property_type l));
      ("bedrooms", opt VInt (bedrooms l));
      ("bathrooms", opt VFloat (bathrooms l));
      ("sqft", opt VInt (sqft l));
      ("condition", VStr (condition l));
      ("is_vacant", VBool (is_vacant l));
      ("has_mortgage", VBool (has_mortgage l));
      ("mortgage_balance", opt VFloat (mortgage_balance l));
      ("stage", VStr (LeadStage.value (stage l)));
      ("assigned_agent", of_option (assigned_agent l));
      ("do_not_call", VBool (do_not_call l));
      ("total_attempts", VInt (total_attempts l));
      ("last_called_at", of_option (last_called_at l));
      ("notes", of_option (notes l));
      ("created_at", VStr (created_at l)) ].
End Lead.

Module LeadUpdate.
Record t := {
  stage : option LeadStage.t;
  motivation_score : option Z;
  asking_price : option float;
  assigned_agent : option string;
  do_not_call : option bool;
  notes : option string;
  total_attempts : option Z;
  last_called_at : option string
}.

(** [{k: v for k, v in update.model_dump().items() if v is not None}] *)
Definition update_data (u : t) : document :=
  DealUpdate.set_field "stage" (VStr ∘ LeadStage.value <$> stage u)
    (DealUpdate.set_field "motivation_score" (VInt <$> motivation_score u)
       (DealUpdate.set_field "asking_price" (VFloat <$> asking_price u)
          (DealUpdate.set_field "assigned_agent" (VStr <$> assigned_agent u)
             (DealUpdate.set_field "do_not_call" (VBool <$> do_not_call u)
                (DealUpdate.set_field "notes" (VStr <$> notes u)
                   (DealUpdate.set_field "total_attempts" (VInt <$> total_attempts u)
                      (DealUpdate.set_field "last_called_at" (VStr <$> last_called_at u)
                         ∅))))))).
End LeadUpdate.

(** ** Lead routes and the deal lookup *)

(** [if not document]: nothing was found, or an empty document. *)
Definition found (o : option document) : option document :=
  match o with
  | Some d => if decide (d = ∅) then None else Some d
  | None => None
  end.

Definition get_lead (lead_id : string) (db : database) : result document :=
  match found (find_one (leads db) lead_id) with
  | Some lead => Ok lead
  | None => Raise (HTTPException 404 "Lead not found")
  end.

Definition get_deal (deal_id : string) (db : database) : result document :=
  match found (find_one (deals db) deal_id) with
  | Some deal => Ok deal
  | None => Raise (HTTPException 404 "Deal not found")
  end.

(** [create_lead]: [new_id] and [now] are what [uuid.uuid4()] and the
    clock give to the defaults of [Lead.id] and [Lead.created_at]. *)
Definition create_lead (lead_data : LeadCreate.t) (new_id now : string)
    (db : database) : result Lead.t * database :=
  let lead :=
    {| Lead.id := new_id;
       Lead.property_address := LeadCreate.property_address lead_data;
       Lead.city := LeadCreate.city lead_data;
       Lead.county := LeadCreate.county lead_data;
       Lead.zip_code := LeadCreate.zip_code lead_data;
       Lead.owner_name := LeadCreate.owner_name lead_data;
       Lead.phone_1 := LeadCreate.phone_1 lead_data;
       Lead.phone_2 := LeadCreate.phone_2 lead_data;
       Lead.phone_3 := LeadCreate.phone_3 lead_data;
       Lead.data_source := LeadCreate.data_source lead_data;
       Lead.motivation_score := LeadCreate.motivation_score lead_data;
       Lead.asking_price := LeadCreate.asking_price lead_data;
       Lead.property_type := LeadCreate.property_type lead_data;
       Lead.bedrooms := LeadCreate.bedrooms lead_data;
       Lead.bathrooms := LeadCreate.bathrooms lead_data;
       Lead.sqft := LeadCreate.sqft lead_data;
       Lead.condition := LeadCreate.condition lead_data;
       Lead.is_vacant := LeadCreate.is_vacant lead_data;
       Lead.has_mortgage := true;
       Lead.mortgage_balance := None;
       Lead.stage := LeadStage.RAW;
       Lead.assigned_agent := None;
       Lead.do_not_call := false;
       Lead.total_attempts := 0;
       Lead.last_called_at := None;
       Lead.notes := LeadCreate.notes lead_data;
       Lead.created_at := now |} in
  if encodable (Lead.model_dump lead) then
    (Ok lead, {| deals := deals db;
                 leads := insert_one (leads db) (Lead.model_dump lead) |})
  else (Raise OverflowError, db).

(** [update_lead]: the response (the re-read document, or the exception
    raised) and the database afterwards. *)
Definition update_lead (lead_id : string) (update : LeadUpdate.t)
    (db : database) : result (option document) * database :=
  let update_data := LeadUpdate.update_data update in
  if decide (update_data = ∅) then
    (Raise (HTTPException 400 "No update data provided"), db)
  else if negb (encodable update_data) then (Raise OverflowError, db)
  else
    let '(leads', matched_count) := update_one (leads db) lead_id update_data in
    let db' := {| deals := deals db; leads := leads' |} in
    if (matched_count =? 0)%nat then
      (Raise (HTTPException 404 "Lead not found"), db')
    else
      (Ok (find_one leads' lead_id), db').

Definition delete_lead (lead_id : string) (db : database)
  : result (gmap string string) * database :=
  let '(leads', deleted_count) := delete_one (leads db) lead_id in
  let db' := {| deals := deals db; leads := leads' |} in
  if (deleted_count =? 0)%nat then
    (Raise (HTTPException 404 "Lead not found"), db')
  else
    (Ok {[ "message" := "Lead deleted" ]}, db').

(** ** Agents and call logs *)

Module AgentRole.
Inductive t := RECEPTIONIST | COLD_CALLER | FOLLOW_UP | DISPOSITION.
Definition value (r : t) : string :=
  match r with
  | RECEPTIONIST => "receptionist"
  | COLD_CALLER => "cold_caller"
  | FOLLOW_UP => "follow_up"
  | DISPOSITION => "disposition"
  end.
End AgentRole.

Module AgentStatus.
Inductive t := IDLE | ON_CALL | COOLDOWN | DISABLED | ERROR.
Definition value (s : t) : string :=
  match s with
  | IDLE => "idle"
  | ON_CALL => "on_call"
  | COOLDOWN => "cooldown"
  | DISABLED => "disabled"
  | ERROR => "error"
  end.
End AgentStatus.

(** A field of an agent or buyer document: a scalar or a list of scalars. *)
Inductive bson :=
  | Scalar (v : value)
  | Array (l : list value).

Abbreviation record := (gmap string bson).

Definition encodable_bson (b : bson) : bool :=
  match b with
  | Scalar v => encodable_value v
  | Array l => forallb encodable_value l
  end.

Definition encodable_record (d : record) : bool :=
  bool_decide (map_Forall (fun _ b => encodable_bson b = true) d).

(** Does the agent or buyer document satisfy the query [{"id": id}]?  A list
    matches when one of its elements does. *)
Definition is_str (id : string) (v : value) : bool :=
  match v with
  | VStr s => bool_decide (s = id)
  | _ => false
  end.

Definition matches_record (id : string) (d : record) : bool :=
  match d !! "id" with
  | Some (Scalar v) => is_str id v
  | Some (Array l) => existsb (is_str id) l
  | None => false
  end.

Definition inc_record (key : string) (d : record) : reply record :=
  match d !! key with
  | Some (Array _) =>
      Fail (WriteError "Cannot apply $inc to a value of non-numeric type")
  | Some (Scalar v) =>
      match inc_value (Some v) with
      | Return v' => Return (<[key := Scalar v']> d)
      | Fail e => Fail e
      end
  | None =>
      match inc_value None with
      | Return v' => Return (<[key := Scalar v']> d)
      | Fail e => Fail e
      end
  end.

Module Agent.
Record t := {
  id : string;
  name : string;
  role : AgentRole.t;
  status : AgentStatus.t;
  assigned_counties : list string;
  schedule : option string;
  daily_call_limit : Z;
  calls_today : Z;
  total_calls : Z;
  avatar_url : option string;
  voice_id : option string
}.

(** The agent built from a seed entry: the keys the entry lacks take the
    class defaults. *)
Definition make (id name : string) (role : AgentRole.t) (assigned_counties : list string)
    (schedule : option string) (daily_call_limit : option Z)
    (avatar_url : option string) : t :=
  {| id := id;
     name := name;
     role := role;
     status := AgentStatus.IDLE;
     assigned_counties := assigned_counties;
     schedule := schedule;
     daily_call_limit := default 40 daily_call_limit;
     calls_today := 0;
     total_calls := 0;
     avatar_url := avatar_url;
     voice_id := None |}.

Definition model_dump (a : t) : record :=
  list_to_map
    [ ("id", Scalar (VStr (id a)));
      ("name", Scalar (VStr (name a)));
      ("role", Scalar (VStr (AgentRole.value (role a))));
      ("status", Scalar (VStr (AgentStatus.value (status a))));
      ("assigned_counties", Array (VStr <$> assigned_counties a));
      ("schedule", Scalar (of_option (schedule a)));
      ("daily_call_limit", Scalar (VInt (daily_call_limit a)));
      ("calls_today", Scalar (VInt (calls_today a)));
      ("total_calls", Scalar (VInt (total_calls a)));
      ("avatar_url", Scalar (of_option (avatar_url a)));
      ("voice_id", Scalar (of_option (voice_id a))) ].
End Agent.

Module AgentUpdate.
Record t := {
  status : option AgentStatus.t;
  calls_today : option Z
}.

Definition set_field (k : string) (o : option value) (m : record) : record :=
  match o with
  | Some v => <[k := Scalar v]> m
  | None => m
  end.

(** [{k: v for k, v in update.model_dump().items() if v is not None}] *)
Definition update_data (u : t) : record :=
  set_field "status" (VStr ∘ AgentStatus.value <$> status u)
    (set_field "calls_today" (VInt <$> calls_today u) ∅).
End AgentUpdate.

Definition AGENTS_SEED : list Agent.t :=
  [ Agent.make "zara_tw" "Zara" AgentRole.RECEPTIONIST ["All"] (Some "24/7") (Some 0)
      (Some "https://images.unsplash.com/photo-1771072426488-87e6bbcc0cf7?w=200");
    Agent.make "ace" "Ace" AgentRole.COLD_CALLER ["Harris N"; "Harris E"]
      (Some "9:00 AM - 11:30 AM") None
      (Some "https://images.pexels.com/photos/34129724/pexels-photo-34129724.jpeg?w=200");
    Agent.make "maya" "Maya" AgentRole.COLD_CALLER ["Harris S"; "Harris W"]
      (Some "9:30 AM - 12:00 PM") None
      (Some "https://images.unsplash.com/photo-1695996660160-366ff8d602c4?w=200");
    Agent.make "eli" "Eli" AgentRole.COLD_CALLER ["Fort Bend"; "Brazoria"]
      (Some "10:00 AM - 12:30 PM") None
      (Some "https://images.pexels.com/photos/10402659/pexels-photo-10402659.jpeg?w=200");
    Agent.make "nova" "Nova" AgentRole.COLD_CALLER ["Montgomery"; "Walker"]
      (Some "10:30 AM - 1:00 PM") None
      (Some "https://images.pexels.com/photos/33871730/pexels-photo-33871730.jpeg?w=200");
    Agent.make "raven" "Raven" AgentRole.COLD_CALLER ["Galveston"; "Chambers"]
      (Some "1:00 PM - 3:30 PM") None
      (Some "https://images.unsplash.com/photo-1695048994291-2e96839a0a3a?w=200");
    Agent.make "jett" "Jett" AgentRole.COLD_CALLER ["Liberty"; "San Jacinto"]
      (Some "1:30 PM - 4:00 PM") None
      (Some "https://images.unsplash.com/photo-1770894807442-108cc33c0a7a?w=200");
    Agent.make "sage" "Sage" AgentRole.COLD_CALLER ["Waller"; "Austin Co"]
      (Some "2:00 PM - 4:30 PM") None
      (Some "https://images.pexels.com/photos/18153495/pexels-photo-18153495.jpeg?w=200");
    Agent.make "finn" "Finn" AgentRole.COLD_CALLER ["Colorado"; "Wharton"; "Matagorda"]
      (Some "2:30 PM - 5:00 PM") None
      (Some "https://images.unsplash.com/photo-1764698072732-ea0230fc5d8e?w=200");
    Agent.make "luna" "Luna" AgentRole.FOLLOW_UP ["All"] (Some "10:00 AM - 2:00 PM") (Some 30)
      (Some "https://images.unsplash.com/photo-1771072428365-f0f97d0d25b7?w=200");
    Agent.make "blaze" "Blaze" AgentRole.DISPOSITION ["All"] (Some "9:00 AM - 5:00 PM") (Some 25)
      (Some "https://images.unsplash.com/photo-1764545973653-94c40d993495?w=200") ].

Module CallLogCreate.
Record t := {
  agent_id : string;
  agent_name : string;
  direction : string;
  contact_phone : string;
  contact_name : option string;
  lead_id : option string;
  property_address : option string;
  county : option string;
  duration : Z;
  outcome : string;
  motivation_score : option Z;
  transcript_summary : option string
}.

Definition make (agent_id agent_name : string) (direction : option string)
    (contact_phone : string) (contact_name lead_id property_address county : option string)
    (duration : option Z) (outcome : option string) (motivation_score : option Z)
    (transcript_summary : option string) : t :=
  {| agent_id := agent_id;
     agent_name := agent_name;
     direction := default "outbound" direction;
     contact_phone := contact_phone;
     contact_name := contact_name;
     lead_id := lead_id;
     property_address := property_address;
     county := county;
     duration := default 0 duration;
     outcome := default "no_answer" outcome;
     motivation_score := motivation_score;
     transcript_summary := transcript_summary |}.
End CallLogCreate.

Module CallLog.
Record t := {
  id : string;
  agent_id : string;
  agent_name : string;
  direction : string;
  contact_phone : string;
  contact_name : option string;
  lead_id : option string;
  property_address : option string;
  county : option string;
  duration : Z;
  outcome : string;
  motivation_score : option Z;
  transcript_summary : option string;
  recording_url : option string;
  created_at : string
}.

Definition model_dump (c : t) : document :=
  list_to_map
    [ ("id", VStr (id c));
      ("agent_id", VStr (agent_id c));
      ("agent_name", VStr (agent_name c));
      ("direction", VStr (direction c));
      ("contact_phone", VStr (contact_phone c));
      ("contact_name", of_option (contact_name c));
      ("lead_id", of_option (lead_id c));
      ("property_address", of_option (property_address c));
      ("county", of_option (county c));
      ("duration", VInt (duration c));
      ("outcome", VStr (outcome c));
      ("motivation_score", opt VInt (motivation_score c));
      ("transcript_summary", of_option (transcript_summary c));
      ("recording_url", of_option (recording_url c));
      ("created_at", VStr (created_at c)) ].
End CallLog.

(** The collections the agent, buyer and call routes touch, beside the
    deals and leads. *)
Record store := {
  base : database;
  agents : list record;
  buyers : list record;
  call_logs : list document
}.

Definition with_base (db : database) (st : store) : store :=
  {| base := db; agents := agents st; buyers := buyers st; call_logs := call_logs st |}.
Definition with_agents (coll : list record) (st : store) : store :=
  {| base := base st; agents := coll; buyers := buyers st; call_logs := call_logs st |}.
Definition with_buyers (coll : list record) (st : store) : store :=
  {| base := base st; agents := agents st; buyers := coll; call_logs := call_logs st |}.
Definition with_call_logs (coll : list document) (st : store) : store :=
  {| base := base st; agents := agents st; buyers := buyers st; call_logs := coll |}.
Definition with_leads (coll : list document) (st : store) : store :=
  with_base {| deals := deals (base st); leads := coll |} st.
Definition with_deals (coll : list document) (st : store) : store :=
  with_base {| deals := coll; leads := leads (base st) |} st.

(** A handler: it runs on the store and returns or raises, leaving the
    store as its writes up to there made it. *)
Definition route (A : Type) : Type := store -> reply A * store.

Definition ret {A : Type} (a : A) : route A := fun st => (Return a, st).
Definition throw {A : Type} (f : failure) : route A := fun st => (Fail f, st).
Definition and_then {A B : Type} (m : route A) (k : A -> route B) : route B :=
  fun st =>
    match m st with
    | (Return a, st') => k a st'
    | (Fail f, st') => (Fail f, st')
    end.

Notation "x <~ m ;; k" := (and_then m (fun x => k))
  (at level 100, m at next level, right associativity).

(** [db.agents.update_one({"id": id}, update)]: [matched_count]. *)
Definition update_agents (id : string) (f : record -> reply record) : route nat :=
  fun st =>
    match update_first (matches_record id) f (agents st) with
    | Return (coll, n) => (Return n, with_agents coll st)
    | Fail e => (Fail e, st)
    end.

(** [db.leads.update_one({"id": id}, update)]: [matched_count]. *)
Definition update_leads (id : string) (f : document -> reply document) : route nat :=
  fun st =>
    match update_first (matches_id id) f (leads (base st)) with
    | Return (coll, n) => (Return n, with_leads coll st)
    | Fail e => (Fail e, st)
    end.

(** The update operator [{"$set": fields}]. *)
Definition set_fields (fields : document) (d : document) : reply document :=
  Return (fields ∪ d).
Definition set_record (fields : record) (d : record) : reply record :=
  Return (fields ∪ d).

(** [if value:] on an optional string or int: the value when the
    condition takes it for true, which it does not for [None], the empty
    string and [0]. *)
Definition truthy_str (o : option string) : option string :=
  match o with
  | Some s => if bool_decide (s = "") then None else Some s
  | None => None
  end.
Definition truthy_int (o : option Z) : option Z :=
  match o with
  | Some z => if z =? 0 then None else Some z
  | None => None
  end.

(** ** Agent and call routes *)

Definition found_record (o : option record) : option record :=
  match o with
  | Some d => if decide (d = ∅) then None else Some d
  | None => None
  end.

(** [get_agents]: the first hundred agents; an empty collection is
    seeded first. *)
Definition get_agents : route (list record) :=
  fun st =>
    match take 100 (agents st) with
    | [] =>
        let coll := foldl (fun coll a => coll ++ [Agent.model_dump a]) (agents st) AGENTS_SEED in
        (Return (take 100 coll), with_agents coll st)
    | found => (Return found, st)
    end.

Definition get_agent (agent_id : string) : route record :=
  fun st =>
    match found_record (find_first (matches_record agent_id) (agents st)) with
    | Some agent => (Return agent, st)
    | None => (Fail (Exn (HTTPException 404 "Agent not found")), st)
    end.

Definition update_agent (agent_id : string) (update : AgentUpdate.t)
  : route (option record) :=
  let update_data := AgentUpdate.update_data update in
  if decide (update_data = ∅) then
    throw (Exn (HTTPException 400 "No update data provided"))
  else if negb (encodable_record update_data) then throw (Exn OverflowError)
  else
    matched_count <~ update_agents agent_id (set_record update_data) ;;
    if (matched_count =? 0)%nat then throw (Exn (HTTPException 404 "Agent not found"))
    else fun st => (Return (find_first (matches_record agent_id) (agents st)), st).

Definition reset_agent_daily_calls (agent_id : string) : route (gmap string string) :=
  matched_count <~
    update_agents agent_id (set_record {[ "calls_today" := Scalar (VInt 0) ]}) ;;
  if (matched_count =? 0)%nat then throw (Exn (HTTPException 404 "Agent not found"))
  else ret {[ "message" := "Daily calls reset" ]}.

(** [db.call_logs.insert_one(doc)] *)
Definition insert_call_log (doc : document) : route unit :=
  fun st =>
    if encodable doc then (Return tt, with_call_logs (insert_one (call_logs st) doc) st)
    else (Fail (Exn OverflowError), st).

(** The call that [create_call_log] builds from the request: [new_id]
    and [now] are what [uuid.uuid4()] and the clock give to the defaults
    of [CallLog.id] and [CallLog.created_at]. *)
Definition call_of (call_data : CallLogCreate.t) (new_id now : string) : CallLog.t :=
  {| CallLog.id := new_id;
     CallLog.agent_id := CallLogCreate.agent_id call_data;
     CallLog.agent_name := CallLogCreate.agent_name call_data;
     CallLog.direction := CallLogCreate.direction call_data;
     CallLog.contact_phone := CallLogCreate.contact_phone call_data;
     CallLog.contact_name := CallLogCreate.contact_name call_data;
     CallLog.lead_id := CallLogCreate.lead_id call_data;
     CallLog.property_address := CallLogCreate.property_address call_data;
     CallLog.county := CallLogCreate.county call_data;
     CallLog.duration := CallLogCreate.duration call_data;
     CallLog.outcome := CallLogCreate.outcome call_data;
     CallLog.motivation_score := CallLogCreate.motivation_score call_data;
     CallLog.transcript_summary := CallLogCreate.transcript_summary call_data;
     CallLog.recording_url := None;
     CallLog.created_at := now |}.

(** The two counters that a call increments on its agent. *)
Definition count_call (a : record) : reply record :=
  match inc_record "calls_today" a with
  | Return a' => inc_record "total_calls" a'
  | Fail e => Fail e
  end.

(** What a call at time [now] writes on its lead. *)
Definition count_attempt (now : string) (d : document) : reply document :=
  match inc "total_attempts" d with
  | Return d' => set_fields {[ "last_called_at" := VStr now ]} d'
  | Fail e => Fail e
  end.

(** The block of [create_call_log] that updates the lead of the call,
    when the call names one. *)
Definition update_called_lead (call_data : CallLogCreate.t) (now : string) : route nat :=
  match truthy_str (CallLogCreate.lead_id call_data) with
  | Some lead_id =>
      _called <~ update_leads lead_id (count_attempt now) ;;
      match truthy_int (CallLogCreate.motivation_score call_data) with
      | Some score =>
          if encodable {[ "motivation_score" := VInt score ]} then
            update_leads lead_id (set_fields {[ "motivation_score" := VInt score ]})
          else throw (Exn OverflowError)
      | None => ret 0%nat
      end
  | None => ret 0%nat
  end.

Definition create_call_log (call_data : CallLogCreate.t) (new_id now : string)
  : route CallLog.t :=
  let call := call_of call_data new_id now in
  _inserted <~ insert_call_log (CallLog.model_dump call) ;;
  _agent <~ update_agents (CallLogCreate.agent_id call_data) count_call ;;
  _lead <~ update_called_lead call_data (CallLog.created_at call) ;;
  ret call.

(** ** Buyers *)

Module BuyerCreate.
Record t := {
  name : string;
  company : option string;
  phone : string;
  email : option string;
  preferred_areas : list string;
  max_price : float;
  min_price : float;
  rehab_tolerance : string;
  cash_or_hard_money : string;
  notes : option string
}.

(** Construction from a request body: an omitted defaulted field
    ([None] here) takes the class default; the int defaults of the two
    prices become floats when [create_buyer] hands them to [Buyer]. *)
Definition make (name : string) (company : option string) (phone : string)
    (email : option string) (preferred_areas : option (list string))
    (max_price min_price : option float) (rehab_tolerance cash_or_hard_money : option string)
    (notes : option string) : t :=
  {| name := name;
     company := company;
     phone := phone;
     email := email;
     preferred_areas := default [] preferred_areas;
     max_price := default (Float64.of_Z 500000) max_price;
     min_price := default (Float64.of_Z 0) min_price;
     rehab_tolerance := default "moderate" rehab_tolerance;
     cash_or_hard_money := default "cash" cash_or_hard_money;
     notes := notes |}.
End BuyerCreate.

Module Buyer.
(** The two prices are floats when they are given, and the int defaults
    of the class when they are not: a default is not validated. *)
Record t := {
  id : string;
  name : string;
  company : option string;
  phone : string;
  email : option string;
  preferred_areas : list string;
  max_price : pynum;
  min_price : pynum;
  rehab_tolerance : string;
  cash_or_hard_money : string;
  deals_purchased : Z;
  last_deal_date : option string;
  is_active : bool;
  notes : option string;
  created_at : string
}.

Definition number (p : pynum) : value :=
  match p with
  | PyInt z => VInt z
  | PyFloat f => VFloat f
  end.

Definition model_dump (b : t) : record :=
  list_to_map
    [ ("id", Scalar (VStr (id b)));
      ("name", Scalar (VStr (name b)));
      ("company", Scalar (of_option (company b)));
      ("phone", Scalar (VStr (phone b)));
      ("email", Scalar (of_option (email b)));
      ("preferred_areas", Array (VStr <$> preferred_areas b));
      ("max_price", Scalar (number (max_price b)));
      ("min_price", Scalar (number (min_price b)));
      ("rehab_tolerance", Scalar (VStr (rehab_tolerance b)));
      ("cash_or_hard_money", Scalar (VStr (cash_or_hard_money b)));
      ("deals_purchased", Scalar (VInt (deals_purchased b)));
      ("last_deal_date", Scalar (of_option (last_deal_date b)));
      ("is_active", Scalar (VBool (is_active b)));
      ("notes", Scalar (of_option (notes b)));
      ("created_at", Scalar (VStr (created_at b))) ].

(** The buyer built from a sample entry of the seed: the keys the entry
    lacks take the class defaults. *)
Definition sample (name : string) (company : option string) (phone : string)
    (email : option string) (preferred_areas : list string) (max_price : Z)
    (cash_or_hard_money : string) (deals_purchased : Z) (new_id now : string) : t :=
  {| id := new_id;
     name := name;
     company := company;
     phone := phone;
     email := email;
     preferred_areas := preferred_areas;
     max_price := PyFloat (Float64.of_Z max_price);
     min_price := PyInt 0;
     rehab_tolerance := "moderate";
     cash_or_hard_money := cash_or_hard_money;
     deals_purchased := deals_purchased;
     last_deal_date := None;
     is_active := true;
     notes := None;
     created_at := now |}.
End Buyer.

(** [create_buyer]: [new_id] and [now] are what [uuid.uuid4()] and the
    clock give to the defaults of [Buyer.id] and [Buyer.created_at]. *)
Definition create_buyer (buyer_data : BuyerCreate.t) (new_id now : string) : route Buyer.t :=
  let buyer :=
    {| Buyer.id := new_id;
       Buyer.name := BuyerCreate.name buyer_data;
       Buyer.company := BuyerCreate.company buyer_data;
       Buyer.phone := BuyerCreate.phone buyer_data;
       Buyer.email := BuyerCreate.email buyer_data;
       Buyer.preferred_areas := BuyerCreate.preferred_areas buyer_data;
       Buyer.max_price := PyFloat (BuyerCreate.max_price buyer_data);
       Buyer.min_price := PyFloat (BuyerCreate.min_price buyer_data);
       Buyer.rehab_tolerance := BuyerCreate.rehab_tolerance buyer_data;
       Buyer.cash_or_hard_money := BuyerCreate.cash_or_hard_money buyer_data;
       Buyer.deals_purchased := 0;
       Buyer.last_deal_date := None;
       Buyer.is_active := true;
       Buyer.notes := BuyerCreate.notes buyer_data;
       Buyer.created_at := now |} in
  fun st =>
    if encodable_record (Buyer.model_dump buyer) then
      (Return buyer, with_buyers (buyers st ++ [Buyer.model_dump buyer]) st)
    else (Fail (Exn OverflowError), st).

Definition get_buyer (buyer_id : string) : route record :=
  fun st =>
    match found_record (find_first (matches_record buyer_id) (buyers st)) with
    | Some buyer => (Return buyer, st)
    | None => (Fail (Exn (HTTPException 404 "Buyer not found")), st)
    end.

(** ** Seed data *)

(** The lead built from a sample entry of the seed. *)
Definition sample_lead (property_address city county zip_code owner_name phone_1
    data_source : string) (motivation_score : Z) (asking_price : option Z)
    (stage : LeadStage.t) (new_id now : string) : Lead.t :=
  {| Lead.id := new_id;
     Lead.property_address := property_address;
     Lead.city := city;
     Lead.county := county;
     Lead.zip_code := zip_code;
     Lead.owner_name := owner_name;
     Lead.phone_1 := phone_1;
     Lead.phone_2 := None;
     Lead.phone_3 := None;
     Lead.data_source := data_source;
     Lead.motivation_score := motivation_score;
     Lead.asking_price := Float64.of_Z <$> asking_price;
     Lead.property_type := "single_family";
     Lead.bedrooms := None;
     Lead.bathrooms := None;
     Lead.sqft := None;
     Lead.condition := "unknown";
     Lead.is_vacant := false;
     Lead.has_mortgage := true;
     Lead.mortgage_balance := None;
     Lead.stage := stage;
     Lead.assigned_agent := None;
     Lead.do_not_call := false;
     Lead.total_attempts := 0;
     Lead.last_called_at := None;
     Lead.notes := None;
     Lead.created_at := now |}.

Definition sample_leads : list (string -> string -> Lead.t) :=
  [ sample_lead "1234 Main St" "Houston" "Harris" "77001" "John Smith" "+17135551234"
      "tax_delinquent" 8 (Some 95000) LeadStage.HOT;
    sample_lead "5678 Oak Ave" "Sugar Land" "Fort Bend" "77478" "Maria Garcia" "+12815552345"
      "probate" 6 (Some 150000) LeadStage.WARM;
    sample_lead "9012 Pine Rd" "Conroe" "Montgomery" "77301" "Robert Johnson" "+19365553456"
      "pre_foreclosure" 9 (Some 120000) LeadStage.HOT;
    sample_lead "3456 Elm St" "Galveston" "Galveston" "77550" "Lisa Williams" "+14095554567"
      "absentee_owner" 3 None LeadStage.RAW;
    sample_lead "7890 Cedar Ln" "Pearland" "Brazoria" "77581" "Michael Brown" "+17135555678"
      "tax_delinquent" 5 (Some 180000) LeadStage.WARM ].

Definition sample_buyers : list (string -> string -> Buyer.t) :=
  [ Buyer.sample "David Chen" (Some "Chen Investments LLC") "+17135556789"
      (Some "david@cheninv.com") ["Harris"; "Fort Bend"] 300000 "cash" 12;
    Buyer.sample "Sarah Miller" (Some "Miller Properties") "+12815557890"
      (Some "sarah@millerprops.com") ["Montgomery"; "Harris"] 200000 "hard_money" 5;
    Buyer.sample "James Wilson" None "+19365558901" None ["Galveston"; "Brazoria"] 150000
      "cash" 8 ].

(** The document of the sample deal.  Its two derived fields are given,
    not computed; [earnest_money] is the int default of the class. *)
Definition sample_deal (new_id now : string) : document :=
  list_to_map
    [ ("id", VStr new_id);
      ("lead_id", VStr "sample_lead_1");
      ("property_address", VStr "1234 Main St, Houston TX");
      ("arv", VFloat (Float64.of_Z 180000));
      ("rehab_estimate", VFloat (Float64.of_Z 35000));
      ("contract_price", VFloat (Float64.of_Z 85000));
      ("assignment_fee", VFloat (Float64.of_Z 12000));
      ("max_allowable_offer", VFloat (Float64.of_Z 79000));
      ("profit_estimate", VFloat (Float64.of_Z 48000));
      ("status", VStr (DealStatus.value DealStatus.IN_DISPOSITION));
      ("contract_signed_date", VNone);
      ("closing_date", VNone);
      ("buyer_id", VNone);
      ("buyer_name", VNone);
      ("title_company", VNone);
      ("earnest_money", VInt 0);
      ("notes", VNone);
      ("created_at", VStr now) ].

(** The objects that [stamp] provides with ids and creation times, in
    order. *)
Definition stamped {A : Type} (stamp : nat -> string * string)
    (samples : list (string -> string -> A)) : list A :=
  imap (fun i sample => sample (stamp i).1 (stamp i).2) samples.

(** The four blocks of [seed_test_data]: each fills its collection when
    [count_documents({})] finds it empty. *)
Definition seed_agents (st : store) : store :=
  if (length (agents st) =? 0)%nat then
    with_agents (foldl (fun coll a => coll ++ [Agent.model_dump a]) (agents st) AGENTS_SEED) st
  else st.

Definition seed_leads (lead_stamp : nat -> string * string) (st : store) : store :=
  if (length (leads (base st)) =? 0)%nat then
    with_leads
      (foldl (fun coll l => insert_one coll (Lead.model_dump l)) (leads (base st))
         (stamped lead_stamp sample_leads)) st
  else st.

Definition seed_buyers (buyer_stamp : nat -> string * string) (st : store) : store :=
  if (length (buyers st) =? 0)%nat then
    with_buyers
      (foldl (fun coll b => coll ++ [Buyer.model_dump b]) (buyers st)
         (stamped buyer_stamp sample_buyers)) st
  else st.

Definition seed_deal (deal_stamp : string * string) (st : store) : store :=
  if (length (deals (base st)) =? 0)%nat then
    with_deals (insert_one (deals (base st)) (sample_deal deal_stamp.1 deal_stamp.2)) st
  else st.

(** [seed_test_data]: [lead_stamp i], [buyer_stamp i] and [deal_stamp]
    are the id and the creation time that [uuid.uuid4()] and the clock
    give to the sample leads and buyers and to the sample deal. *)
Definition seed_test_data (lead_stamp buyer_stamp : nat -> string * string)
    (deal_stamp : string * string) : route (gmap string string) :=
  fun st =>
    let st := seed_agents st in
    let st := seed_leads lead_stamp st in
    let st := seed_buyers buyer_stamp st in
    let st := seed_deal deal_stamp st in
    (Return {[ "message" := "Test data seeded successfully" ]}, st).

(** ** Properties of stored deals and sequences of requests *)

(** A stored deal whose two derived fields are the formulas of its
    stored inputs. *)
Definition consistent (d : document) : Prop :=
  exists arv contract_price rehab fee,
    d !! "arv" = Some (VFloat arv) /\
    d !! "contract_price" = Some (VFloat contract_price) /\
    d !! "rehab_estimate" = Some (VFloat rehab) /\
    d !! "assignment_fee" = Some (VFloat fee) /\
    d !! "max_allowable_offer" = Some (VFloat (Spec.computeMAO arv rehab fee)) /\
    d !! "profit_estimate" =
      Some (VFloat (Spec.computeProfitEstimate arv contract_price rehab fee)).

(** A request to one of the routes that write deals or leads. *)
Inductive request :=
  | CreateDeal (deal_data : DealCreate.t) (new_id now : string)
  | UpdateDeal (deal_id : string) (update : DealUpdate.t)
  | CreateLead (lead_data : LeadCreate.t) (new_id now : string)
  | UpdateLead (lead_id : string) (update : LeadUpdate.t)
  | DeleteLead (lead_id : string).

(** The database a request leaves, whether it is accepted or refused. *)
Definition serve (db : database) (r : request) : database :=
  match r with
  | CreateDeal deal_data new_id now => (create_deal deal_data new_id now db).2
  | UpdateDeal deal_id update => (update_deal deal_id update db).2
  | CreateLead lead_data new_id now => (create_lead lead_data new_id now db).2
  | UpdateLead lead_id update => (update_lead lead_id update db).2
  | DeleteLead lead_id => (delete_lead lead_id db).2
  end.

(** An agent document whose two call counters are ints that can be
    incremented, as every agent stored by these routes has them. *)
Definition counting (a : record) : Prop :=
  exists c t,
    a !! "calls_today" = Some (Scalar (VInt c)) /\
    a !! "total_calls" = Some (Scalar (VInt t)) /\
    int64 (c + 1) = true /\ int64 (t + 1) = true.

(** ** More sample requests *)

Definition first_lead_request : LeadCreate.t :=
  LeadCreate.make "1234 Main St" "Houston" "Harris" "77001" "John Smith" "+17135551234"
    None None "tax_delinquent" (Some 8) (Some (Float64.of_Z 95000)) None None None None None
    None None.

(** The lead that [create_lead] builds from that request. *)
Definition first_lead : Lead.t :=
  sample_lead "1234 Main St" "Houston" "Harris" "77001" "John Smith" "+17135551234"
    "tax_delinquent" 8 (Some 95000) LeadStage.RAW "lead-1" "2026-01-01T00:00:00+00:00".

Definition lead_db : database :=
  {| deals := []; leads := [Lead.model_dump first_lead] |}.

Definition first_deal_request : DealCreate.t :=
  DealCreate.make "lead-1" "1234 Main St"
    (Float64.of_Z 180000) (Float64.of_Z 35000) (Float64.of_Z 85000)
    (Some (Float64.of_Z 12000)) None None None None None.

(** A lead that was called and did not answer. *)
Definition no_answer_update : LeadUpdate.t :=
  {| LeadUpdate.stage := Some LeadStage.WARM;
     LeadUpdate.motivation_score := Some 0;
     LeadUpdate.asking_price := None;
     LeadUpdate.assigned_agent := Some "ace";
     LeadUpdate.do_not_call := Some false;
     LeadUpdate.notes := None;
     LeadUpdate.total_attempts := None;
     LeadUpdate.last_called_at := None |}.

Definition empty_store : store :=
  {| base := empty_db; agents := []; buyers := []; call_logs := [] |}.

(** The seeded agents and one lead. *)
Definition office : store :=
  {| base := lead_db; agents := Agent.model_dump <$> AGENTS_SEED; buyers := [];
     call_logs := [] |}.

(** A call by the agent Ace to the first lead. *)
Definition first_call : CallLogCreate.t :=
  CallLogCreate.make "ace" "Ace" None "+17135551234" (Some "John Smith") (Some "lead-1")
    (Some "1234 Main St") (Some "Harris") (Some 120) (Some "interested") (Some 7) None.

(** A call by an agent nobody knows, about no lead. *)
Definition stray_call : CallLogCreate.t :=
  CallLogCreate.make "nobody" "Nobody" None "+17135550000" None None None None None None
    None None.

(** A call whose duration does not fit 8 bytes. *)
Definition endless_call : CallLogCreate.t :=
  CallLogCreate.make "ace" "Ace" None "+17135551234" None None None None (Some (2 ^ 63)) None
    None None.

(** The document of Scenario 2's deal as it is stored. *)
Definition scenario_2_doc : document :=
  Deal.model_dump (create_deal scenario_2_deal "deal-1" "2026-01-01T00:00:00+00:00" empty_db).1.

(** * Rounding: binary64 operations against the reals *)

Section Rounding.
Import Float64.

Lemma bpow_pos e : (0 < bpow e)%R.
Proof. apply powerRZ_lt. lra. Qed.

Lemma bpow_add a b : bpow (a + b) = (bpow a * bpow b)%R.
Proof. apply powerRZ_add. lra. Qed.

Lemma bpow_0 : bpow 0 = 1%R.
Proof. reflexivity. Qed.

Lemma bpow_succ e : bpow (e + 1) = (2 * bpow e)%R.
Proof. rewrite bpow_add. unfold bpow at 2. simpl. lra. Qed.

Lemma bpow_pred e : bpow (e - 1) = (bpow e / 2)%R.
Proof. replace e with ((e - 1) + 1) at 2 by lia. rewrite bpow_succ. lra. Qed.

Lemma bpow_IZR e : 0 <= e -> bpow e = IZR (2 ^ e).
Proof.
  intros H. unfold bpow. rewrite <- (Z2Nat.id e H) at 1.
  rewrite <- pow_powerRZ. rewrite pow_IZR. by rewrite Z2Nat.id.
Qed.

Lemma bpow_le a b : a <= b -> (bpow a <= bpow b)%R.
Proof.
  intros H. replace b with (a + (b - a)) by lia. rewrite bpow_add.
  rewrite (bpow_IZR (b - a)) by lia.
  assert (1 <= IZR (2 ^ (b - a)))%R.
  { apply IZR_le. pose proof (Z.pow_pos_nonneg 2 (b - a)). lia. }
  pose proof (bpow_pos a). nra.
Qed.

Lemma bpow_lt a b : a < b -> (bpow a < bpow b)%R.
Proof.
  intros H. replace b with (a + (b - a)) by lia. rewrite bpow_add.
  rewrite (bpow_IZR (b - a)) by lia.
  assert (2 <= IZR (2 ^ (b - a)))%R.
  { apply IZR_le. replace (b - a) with (Z.succ (b - a - 1)) by lia.
    rewrite Z.pow_succ_r by lia. pose proof (Z.pow_pos_nonneg 2 (b - a - 1)). lia. }
  pose proof (bpow_pos a). nra.
Qed.

Lemma digits2_pos_bounds (p : positive) :
  2 ^ (Zpos (digits2_pos p) - 1) <= Zpos p < 2 ^ Zpos (digits2_pos p).
Proof.
  induction p as [p IH|p IH|]; simpl digits2_pos.
  - rewrite Pos2Z.inj_succ.
    replace (Z.succ (Zpos (digits2_pos p)) - 1) with (Z.succ (Zpos (digits2_pos p) - 1)) by lia.
    rewrite !Z.pow_succ_r by lia. lia.
  - rewrite Pos2Z.inj_succ.
    replace (Z.succ (Zpos (digits2_pos p)) - 1) with (Z.succ (Zpos (digits2_pos p) - 1)) by lia.
    rewrite !Z.pow_succ_r by lia. lia.
  - simpl. lia.
Qed.

Lemma Zdigits2_bounds (m : Z) :
  0 < m -> 2 ^ (Zdigits2 m - 1) <= m < 2 ^ Zdigits2 m.
Proof. destruct m as [|p|p]; try lia. intros _. apply digits2_pos_bounds. Qed.

Lemma Zdigits2_pos (m : Z) : 0 < m -> 0 < Zdigits2 m.
Proof. destruct m; simpl; lia. Qed.

Lemma Zdigits2_unique (m k : Z) :
  2 ^ (k - 1) <= m < 2 ^ k -> 0 < k -> Zdigits2 m = k.
Proof.
  intros [Hl Hu] Hk.
  assert (0 < m) as Hm by (pose proof (Z.pow_pos_nonneg 2 (k - 1)); lia).
  pose proof (Zdigits2_bounds m Hm) as [Hl' Hu']. pose proof (Zdigits2_pos m Hm) as Hd.
  destruct (Z.lt_trichotomy (Zdigits2 m) k) as [H|[H|H]]; [|done|].
  - assert (2 ^ Zdigits2 m <= 2 ^ (k - 1)) by (apply Z.pow_le_mono_r; lia). lia.
  - assert (2 ^ k <= 2 ^ (Zdigits2 m - 1)) by (apply Z.pow_le_mono_r; lia). lia.
Qed.

Lemma iter_pos_nat {A} (f : A -> A) (p : positive) (x : A) :
  SpecFloat.iter_pos f p x = Nat.iter (Pos.to_nat p) f x.
Proof.
  revert x. induction p as [p IH|p IH|]; intros x; simpl SpecFloat.iter_pos.
  - rewrite !IH. rewrite Pos2Nat.inj_xI.
    replace (S (2 * Pos.to_nat p)) with (Pos.to_nat p + (Pos.to_nat p + 1))%nat by lia.
    rewrite !Nat.iter_add. simpl. done.
  - rewrite !IH. rewrite Pos2Nat.inj_xO.
    replace (2 * Pos.to_nat p)%nat with (Pos.to_nat p + Pos.to_nat p)%nat by lia.
    by rewrite Nat.iter_add.
  - reflexivity.
Qed.

(** ** Right shifts and rounding to nearest even *)

Lemma shr_frac_start (q b r : Z) (loc : location) :
  0 <= q -> 0 <= r < b -> loc_ok b r loc ->
  shr_frac (q * b + r) b 0 (shr_record_of_loc q loc).
Proof.
  intros Hq Hr Hloc. unfold shr_frac. rewrite Z.pow_0_r, Z.mul_1_r.
  destruct loc as [|[| |]]; simpl in *; (split; [done|]); exists r;
    repeat split; try lia; try done; intros; exfalso; lia.
Qed.

Lemma shr_1_frac N b n st :
  0 < b -> 0 <= n -> shr_frac N b n st -> shr_frac N b (n + 1) (shr_1 st).
Proof.
  intros Hb Hn (Hm & rho & E & Hrho & Hr & Hs). unfold shr_frac.
  rewrite Z.pow_add_r by lia. change (2 ^ 1) with 2.
  pose proof (Z.pow_pos_nonneg 2 n ltac:(lia) Hn) as HP0.
  assert (HP : 0 < b * 2 ^ n) by nia.
  replace (b * (2 ^ n * 2)) with (2 * (b * 2 ^ n)) by ring.
  set (P := b * 2 ^ n) in *. clearbody P.
  destruct st as [q r s]. simpl in *.
  assert (Hors : orb r s = true <-> rho <> 0).
  { rewrite orb_true_iff, Hr, Hs. lia. }
  destruct q as [|[q|q|]|q]; simpl; try lia.
  - split; [done|]. exists rho. simpl. rewrite Hors.
    repeat split; try lia; done.
  - split; [lia|]. exists (rho + P). simpl. rewrite Hors.
    repeat split; try lia; done.
  - split; [lia|]. exists rho. simpl. rewrite Hors.
    repeat split; try lia; done.
  - split; [lia|]. exists (rho + P). simpl. rewrite Hors.
    repeat split; try lia; done.
Qed.

Lemma shr_iter_frac N b st (k : nat) :
  0 < b -> shr_frac N b 0 st -> shr_frac N b (Z.of_nat k) (Nat.iter k shr_1 st).
Proof.
  intros Hb H0. induction k as [|k IH].
  - exact H0.
  - rewrite Nat2Z.inj_succ. unfold Z.succ. simpl Nat.iter.
    apply shr_1_frac; [done|lia|exact IH].
Qed.

Lemma shr_frac_pos N b st (p : positive) :
  0 < b -> shr_frac N b 0 st -> shr_frac N b (Zpos p) (SpecFloat.iter_pos shr_1 p st).
Proof.
  intros Hb H0. rewrite iter_pos_nat. rewrite <- (positive_nat_Z p) at 1.
  by apply shr_iter_frac.
Qed.

Lemma round_nearest_even_frac N b n st :
  0 < b -> 0 <= n -> shr_frac N b n st ->
  let z := round_nearest_even (shr_m st) (loc_of_shr_record st) in
  (z = N / (b * 2 ^ n) \/ z = N / (b * 2 ^ n) + 1) /\
  2 * Z.abs (z * (b * 2 ^ n) - N) <= b * 2 ^ n /\
  (N mod (b * 2 ^ n) = 0 -> z * (b * 2 ^ n) = N).
Proof.
  intros Hb Hn (Hm & rho & E & Hrho & Hr & Hs).
  pose proof (Z.pow_pos_nonneg 2 n ltac:(lia) Hn) as HP0.
  assert (HP : 0 < b * 2 ^ n) by nia.
  assert (Hq : N / (b * 2 ^ n) = shr_m st).
  { symmetry. apply (Z.div_unique_pos N (b * 2 ^ n) (shr_m st) rho); lia. }
  assert (Hmod : N mod (b * 2 ^ n) = rho).
  { symmetry. apply (Z.mod_unique_pos N (b * 2 ^ n) (shr_m st) rho); lia. }
  rewrite Hq, Hmod. set (P := b * 2 ^ n) in *. clearbody P.
  destruct st as [q r s]. simpl in *.
  destruct r, s; simpl.
  - assert (P <= 2 * rho) by (by apply Hr). assert (2 * rho <> P) by (by apply Hs).
    repeat split; (lia || nia).
  - assert (P <= 2 * rho) by (by apply Hr).
    assert (2 * rho = P).
    { destruct (Z.eq_dec (2 * rho) P); [done|]. assert (false = true); [|done].
      apply Hs. lia. }
    destruct (Z.even q); repeat split; (lia || nia).
  - assert (~ P <= 2 * rho) by (intros H; by apply Hr in H).
    repeat split; (lia || nia).
  - assert (~ P <= 2 * rho) by (intros H; by apply Hr in H).
    assert (rho = 0).
    { destruct (Z.eq_dec rho 0); [done|]. assert (false = true); [|done].
      apply Hs. lia. }
    repeat split; (lia || nia).
Qed.

Lemma fexp64_eq e : fexp64 e = Z.max (e - 53) (-1074).
Proof. reflexivity. Qed.

Lemma binary_round_aux_unfold s m e loc :
  binary_round_aux prec emax s m e loc =
  let st1 := shr_fexp prec emax m e loc in
  let st2 := shr_fexp prec emax
               (round_nearest_even (shr_m st1.1) (loc_of_shr_record st1.1)) st1.2 loc_Exact in
  mk_float s (shr_m st2.1) st2.2.
Proof.
  unfold binary_round_aux, mk_float.
  destruct (shr_fexp prec emax m e loc) as [st1 e1]. simpl.
  destruct (shr_fexp _ _ _ _ _) as [st2 e2]. simpl. reflexivity.
Qed.

Lemma shr_fexp_noshift m e :
  fexp64 (Zdigits2 m + e) <= e ->
  shr_fexp prec emax m e loc_Exact = (Build_shr_record m false false, e).
Proof.
  intros H. unfold shr_fexp, shr. fold (fexp64 (Zdigits2 m + e)).
  destruct (fexp64 (Zdigits2 m + e) - e) eqn:E; try reflexivity. lia.
Qed.

Lemma shr_fexp_frac (q e b r : Z) (loc : location) :
  0 <= q -> 0 <= r < b -> loc_ok b r loc ->
  let n := Z.max 0 (fexp64 (Zdigits2 q + e) - e) in
  exists st, shr_fexp prec emax q e loc = (st, e + n) /\ shr_frac (q * b + r) b n st.
Proof.
  intros Hq Hr Hloc n. unfold shr_fexp, shr. fold (fexp64 (Zdigits2 q + e)).
  pose proof (shr_frac_start q b r loc Hq Hr Hloc) as H0.
  subst n. destruct (fexp64 (Zdigits2 q + e) - e) as [|p|p] eqn:E.
  - eexists. split; [|exact H0]. f_equal. lia.
  - eexists. split; [reflexivity|]. replace (Z.max 0 (Zpos p)) with (Zpos p) by lia.
    apply shr_frac_pos; [lia|exact H0].
  - eexists. split; [|exact H0]. f_equal. lia.
Qed.

Lemma pow2_53_digits : Zdigits2 (2 ^ 53) = 54.
Proof. reflexivity. Qed.

(** Rounding a mantissa [q] that carries a fraction [r / b], as division
    hands it over. *)
Lemma binary_round_aux_frac (s : bool) (q e b r : Z) (loc : location) :
  0 <= q -> 0 <= r < b -> loc_ok b r loc ->
  let e1 := Z.max e (fexp64 (Zdigits2 q + e)) in
  exists z e2,
    binary_round_aux prec emax s q e loc = mk_float s z e2 /\
    0 <= z /\ e1 <= e2 <= e1 + 1 /\
    (Rabs (IZR z * bpow e2 - IZR (q * b + r) / IZR b * bpow e) <= bpow (e1 - 1))%R /\
    ((q * b + r) mod (b * 2 ^ (e1 - e)) = 0 ->
     (IZR z * bpow e2 = IZR (q * b + r) / IZR b * bpow e)%R).
Proof.
  intros Hq Hr Hloc e1. rewrite binary_round_aux_unfold.
  destruct (shr_fexp_frac q e b r loc Hq Hr Hloc) as (st & -> & Hinv).
  set (n := Z.max 0 (fexp64 (Zdigits2 q + e) - e)) in *.
  assert (He1 : e + n = e1) by (unfold e1, n; lia).
  cbn [fst snd]. rewrite He1.
  assert (Hn : 0 <= n) by (unfold n; lia).
  pose proof (round_nearest_even_frac (q * b + r) b n st ltac:(lia) Hn Hinv) as (Hz & Herr & Hex).
  set (z := round_nearest_even (shr_m st) (loc_of_shr_record st)) in *. clearbody z.
  pose proof (Z.pow_pos_nonneg 2 n ltac:(lia) Hn) as HP.
  assert (Hb : 0 < b) by lia.
  (* the quotient is that of [q] by [2^n] and has at most 53 digits *)
  assert (Hdiv : (q * b + r) / (b * 2 ^ n) = q / 2 ^ n).
  { rewrite <- Z.div_div by lia. f_equal.
    symmetry. apply (Z.div_unique_pos (q * b + r) b q r); lia. }
  rewrite Hdiv in Hz.
  assert (Hfe : fexp64 (Zdigits2 q + e) = Z.max (Zdigits2 q + e - 53) (-1074)) by reflexivity.
  assert (Hq53 : 0 <= q / 2 ^ n < 2 ^ 53).
  { split; [apply Z.div_pos; lia|].
    apply Z.div_lt_upper_bound; [lia|].
    destruct (Z.eq_dec q 0) as [->|Hq0]; [lia|].
    pose proof (Zdigits2_bounds q ltac:(lia)) as [_ Hdu].
    pose proof (Zdigits2_pos q ltac:(lia)) as Hdpos.
    rewrite <- Z.pow_add_r by lia.
    eapply Z.lt_le_trans; [exact Hdu|]. apply Z.pow_le_mono_r; lia. }
  assert (Hz0 : 0 <= z <= 2 ^ 53) by lia.
  assert (Hemin : -1074 <= e1) by (unfold e1; lia).
  assert (HerrR : (Rabs (IZR z * bpow e1 - IZR (q * b + r) / IZR b * bpow e)
                   <= bpow (e1 - 1))%R).
  { assert (Hb' : (0 < IZR b)%R) by (by apply IZR_lt).
    replace (IZR z * bpow e1 - IZR (q * b + r) / IZR b * bpow e)%R
      with (IZR (z * (b * 2 ^ n) - (q * b + r)) / IZR b * bpow e)%R.
    2: { rewrite minus_IZR, !mult_IZR, <- (bpow_IZR n), <- He1, bpow_add by lia.
         field. lra. }
    rewrite Rabs_mult, (Rabs_pos_eq (bpow e)) by (left; apply bpow_pos).
    unfold Rdiv. rewrite Rabs_mult, (Rabs_pos_eq (/ IZR b)) by (left; by apply Rinv_0_lt_compat).
    rewrite <- abs_IZR.
    replace (e1 - 1) with ((n - 1) + e) by lia. rewrite bpow_add.
    apply Rmult_le_compat_r; [left; apply bpow_pos|].
    apply (Rmult_le_reg_r (IZR b)); [done|].
    rewrite Rmult_assoc, Rinv_l, Rmult_1_r by lra.
    rewrite bpow_pred, (bpow_IZR n) by lia.
    apply IZR_le in Herr. rewrite !mult_IZR in Herr. lra. }
  assert (HexR : (q * b + r) mod (b * 2 ^ (e1 - e)) = 0 ->
                 (IZR z * bpow e1 = IZR (q * b + r) / IZR b * bpow e)%R).
  { replace (e1 - e) with n by lia. intros H0. rewrite <- (Hex H0).
    assert (Hb' : (0 < IZR b)%R) by (by apply IZR_lt).
    rewrite !mult_IZR, <- (bpow_IZR n), <- He1, bpow_add by lia. field. lra. }
  destruct (Z.eq_dec z (2 ^ 53)) as [->|Hne].
  - exists (2 ^ 52), (e1 + 1). split.
    { unfold shr_fexp. rewrite pow2_53_digits.
      replace (fexp prec emax (54 + e1) - e1) with 1; [reflexivity|].
      change (fexp prec emax (54 + e1)) with (Z.max (54 + e1 - 53) (-1074)). lia. }
    split; [lia|]. split; [lia|].
    assert (E : (IZR (2 ^ 52) * bpow (e1 + 1) = IZR (2 ^ 53) * bpow e1)%R).
    { rewrite bpow_succ. change (2 ^ 53) with (2 * 2 ^ 52). rewrite (mult_IZR 2). lra. }
    rewrite E. split; [exact HerrR | exact HexR].
  - exists z, e1. split.
    { rewrite shr_fexp_noshift; [reflexivity|].
      destruct (Z.eq_dec z 0) as [->|Hz1].
      - simpl Zdigits2. rewrite fexp64_eq. lia.
      - assert (Zdigits2 z <= 53).
        { pose proof (Zdigits2_bounds z ltac:(lia)) as [Hl _].
          destruct (Z_le_gt_dec (Zdigits2 z) 53); [done|].
          assert (2 ^ 53 <= 2 ^ (Zdigits2 z - 1)) by (apply Z.pow_le_mono_r; lia). lia. }
        rewrite fexp64_eq. lia. }
    split; [lia|]. split; [lia|]. split; [exact HerrR | exact HexR].
Qed.

Lemma pos_iter_xO (m d : positive) : Zpos (Pos.iter xO m d) = Zpos m * 2 ^ Zpos d.
Proof.
  induction d as [|d IH] using Pos.peano_ind.
  - simpl. lia.
  - rewrite Pos.iter_succ, Pos2Z.inj_xO, IH, Pos2Z.inj_succ, Z.pow_succ_r by lia. lia.
Qed.

Lemma shl_align_spec (m : positive) (e e' : Z) :
  (shl_align m e e').2 = Z.min e e' /\
  Zpos (shl_align m e e').1 = Zpos m * 2 ^ (e - Z.min e e').
Proof.
  unfold shl_align. destruct (e' - e) as [|d|d] eqn:E; simpl.
  - replace (Z.min e e') with e by lia. rewrite Z.sub_diag. simpl. lia.
  - replace (Z.min e e') with e by lia. rewrite Z.sub_diag. simpl. lia.
  - replace (Z.min e e') with e' by lia. split; [done|].
    rewrite pos_iter_xO. f_equal. f_equal. lia.
Qed.

Lemma Zdigits2_shift (m k : Z) : 0 < m -> 0 <= k -> Zdigits2 (m * 2 ^ k) = Zdigits2 m + k.
Proof.
  intros Hm Hk. pose proof (Zdigits2_bounds m Hm) as [Hl Hu].
  pose proof (Zdigits2_pos m Hm).
  pose proof (Z.pow_pos_nonneg 2 k ltac:(lia) Hk).
  apply Zdigits2_unique; [|lia].
  replace (Zdigits2 m + k - 1) with ((Zdigits2 m - 1) + k) by lia.
  rewrite !Z.pow_add_r by lia. nia.
Qed.

Lemma shift_value (m e e' : Z) :
  e' <= e -> (IZR (m * 2 ^ (e - e')) * bpow e' = IZR m * bpow e)%R.
Proof.
  intros H. rewrite mult_IZR, <- bpow_IZR by lia.
  replace e with ((e - e') + e') at 2 by lia. rewrite bpow_add. lra.
Qed.

(** Rounding a positive mantissa at any exponent. *)
Lemma binary_round_spec (s : bool) (m : positive) (e : Z) :
  let e1 := fexp64 (Zpos (digits2_pos m) + e) in
  exists z e2,
    binary_round prec emax s m e = mk_float s z e2 /\
    0 <= z /\ e1 <= e2 <= e1 + 1 /\
    (Rabs (IZR z * bpow e2 - IZR (Zpos m) * bpow e) <= bpow (e1 - 1))%R /\
    (e1 <= e \/ Zpos m mod 2 ^ (e1 - e) = 0 ->
     (IZR z * bpow e2 = IZR (Zpos m) * bpow e)%R).
Proof.
  intros e1. unfold binary_round. fold (fexp64 (Zpos (digits2_pos m) + e)). fold e1.
  pose proof (shl_align_spec m e e1) as [Hez Hmz].
  destruct (shl_align m e e1) as [mz ez]. cbn [fst snd] in Hez, Hmz.
  assert (Hd : Zdigits2 (Zpos mz) + ez = Zpos (digits2_pos m) + e).
  { rewrite Hmz, Zdigits2_shift by lia. simpl Zdigits2. lia. }
  assert (Hv : (IZR (Zpos mz) * bpow ez = IZR (Zpos m) * bpow e)%R).
  { rewrite Hmz, Hez. apply shift_value. lia. }
  destruct (binary_round_aux_frac s (Zpos mz) ez 1 0 loc_Exact)
    as (z & e2 & -> & Hz & He2 & Herr & Hex); [lia|lia|done|].
  rewrite Hd in He2, Herr, Hex. fold e1 in He2, Herr, Hex.
  rewrite Z.mul_1_r, Z.add_0_r, Z.mul_1_l in Hex.
  rewrite Z.mul_1_r, Z.add_0_r in Herr.
  unfold Rdiv in Herr, Hex. rewrite Rinv_1, Rmult_1_r, Hv in Herr, Hex.
  replace (Z.max ez e1) with e1 in * by lia.
  exists z, e2. split; [done|]. split; [done|]. split; [lia|]. split; [exact Herr|].
  intros [H|H]; apply Hex.
  - replace (e1 - ez) with 0 by lia. apply Z.mod_1_r.
  - destruct (Z_le_gt_dec e1 e) as [Hle|Hgt].
    + replace (e1 - ez) with 0 by lia. apply Z.mod_1_r.
    + assert (Hmin : ez = e) by lia. rewrite Hmin in *.
      replace (Z.min e e1) with e in Hmz by lia.
      rewrite Z.sub_diag, Z.mul_1_r in Hmz. by rewrite Hmz.
Qed.

Lemma mk_float_finite (s : bool) (z e2 : Z) :
  0 <= z -> e2 <= 971 ->
  is_finite (mk_float s z e2) = true /\
  B2R (mk_float s z e2) = (IZR (cond_Zopp s z) * bpow e2)%R.
Proof.
  intros Hz He. unfold mk_float. destruct z as [|p|p]; [| |lia].
  - split; [done|]. destruct s; cbn [B2R cond_Zopp Z.opp]; rewrite Rmult_0_l; reflexivity.
  - change (emax - prec) with 971. destruct (Z.leb_spec e2 971); [|lia].
    split; [done|]. destruct s; reflexivity.
Qed.

(** A mantissa of [d] digits at exponent [e] stands for a value of at
    least [2^(d+e-1)]. *)
Lemma digits_le_of_lt (m e k : Z) :
  0 < m -> (IZR m * bpow e < bpow k)%R -> Zdigits2 m + e <= k.
Proof.
  intros Hm Hlt. pose proof (Zdigits2_bounds m Hm) as [Hl _].
  pose proof (Zdigits2_pos m Hm) as Hd.
  destruct (Z_le_gt_dec (Zdigits2 m + e) k) as [|Hgt]; [done|exfalso].
  assert (bpow k <= IZR m * bpow e)%R; [|lra].
  eapply Rle_trans; [apply (bpow_le k (Zdigits2 m - 1 + e)); lia|].
  rewrite bpow_add, (bpow_IZR (Zdigits2 m - 1)) by lia.
  apply Rmult_le_compat_r; [left; apply bpow_pos|]. by apply IZR_le.
Qed.

(** Rounding the integer [D] at exponent [e], as addition and subtraction
    do after aligning their operands. *)
Lemma binary_normalize_correct (D e k : Z) :
  (Rabs (IZR D * bpow e) < bpow k)%R -> -1021 <= k <= 1023 ->
  is_finite (binary_normalize prec emax D e false) = true /\
  (Rabs (B2R (binary_normalize prec emax D e false) - IZR D * bpow e) <= bpow (k - 54))%R.
Proof.
  intros Hlt Hk.
  assert (Hgen : forall (s : bool) (p : positive),
    (IZR (Zpos p) * bpow e < bpow k)%R ->
    is_finite (binary_round prec emax s p e) = true /\
    (Rabs (B2R (binary_round prec emax s p e) - IZR (cond_Zopp s (Zpos p)) * bpow e)
       <= bpow (k - 54))%R).
  { intros s p Hp.
    destruct (binary_round_spec s p e) as (z & e2 & -> & Hz & He2 & Herr & _).
    pose proof (digits_le_of_lt (Zpos p) e k ltac:(lia) Hp) as Hd. simpl Zdigits2 in Hd.
    rewrite fexp64_eq in He2, Herr.
    destruct (mk_float_finite s z e2 Hz ltac:(lia)) as [Hf ->]. split; [done|].
    eapply Rle_trans; [|apply (bpow_le (Z.max (Zpos (digits2_pos p) + e - 53) (-1074) - 1)); lia].
    destruct s; simpl cond_Zopp; [|done].
    rewrite !opp_IZR.
    replace (- IZR z * bpow e2 - - IZR (Zpos p) * bpow e)%R
      with (- (IZR z * bpow e2 - IZR (Zpos p) * bpow e))%R by lra.
    by rewrite Rabs_Ropp. }
  destruct D as [|p|p]; simpl binary_normalize.
  - split; [done|]. simpl. rewrite Rmult_0_l, Rminus_diag, Rabs_R0. left. apply bpow_pos.
  - apply (Hgen false p). rewrite Rabs_pos_eq in Hlt; [done|].
    apply Rmult_le_pos; [by apply IZR_le | left; apply bpow_pos].
  - apply (Hgen true p).
    change (Zneg p) with (- Zpos p) in Hlt. rewrite opp_IZR in Hlt.
    rewrite Ropp_mult_distr_l_reverse, Rabs_Ropp, Rabs_pos_eq in Hlt; [done|].
    apply Rmult_le_pos; [by apply IZR_le | left; apply bpow_pos].
Qed.

Lemma B2R_align (s : bool) (m : positive) (e ez : Z) :
  ez <= e ->
  (IZR (cond_Zopp s (Zpos (shl_align m e ez).1)) * bpow ez)%R = B2R (S754_finite s m e).
Proof.
  intros H. pose proof (shl_align_spec m e ez) as [_ Hm].
  replace (Z.min e ez) with ez in Hm by lia.
  assert (E : cond_Zopp s (Zpos (shl_align m e ez).1) =
              (if s then Zneg m else Zpos m) * 2 ^ (e - ez)).
  { rewrite Hm. destruct s; simpl cond_Zopp; [|done].
    change (Zneg m) with (- Zpos m). lia. }
  rewrite E. simpl B2R. by apply shift_value.
Qed.

Lemma is_finite_B2R_zero (s : bool) : B2R (S754_zero s) = 0%R.
Proof. reflexivity. Qed.

Lemma B2R_opp (s : bool) (m : positive) (e : Z) :
  B2R (S754_finite (negb s) m e) = (- B2R (S754_finite s m e))%R.
Proof.
  destruct s; simpl; change (Zneg m) with (- Zpos m); rewrite opp_IZR; lra.
Qed.

Lemma exact_bound (v : R) (k : Z) : (Rabs (v - v) <= bpow k)%R.
Proof. rewrite Rminus_diag, Rabs_R0. left. apply bpow_pos. Qed.

(** Subtraction of finite floats is the exact difference rounded once. *)
Lemma sub_correct (x y : float) (k : Z) :
  is_finite x = true -> is_finite y = true ->
  (Rabs (B2R x - B2R y) < bpow k)%R -> -1021 <= k <= 1023 ->
  is_finite (sub x y) = true /\
  (Rabs (B2R (sub x y) - (B2R x - B2R y)) <= bpow (k - 54))%R.
Proof.
  intros Hx Hy Hlt Hk. unfold sub.
  destruct x as [sx|sx| |sx mx ex], y as [sy|sy| |sy my ey]; try discriminate.
  - (* zero - zero *)
    assert (E : exists s, SFsub prec emax (S754_zero sx) (S754_zero sy) = S754_zero s).
    { destruct sx, sy; simpl; eauto. }
    destruct E as [s ->]. split; [done|]. rewrite !is_finite_B2R_zero.
    replace (0 - (0 - 0))%R with (0 - 0)%R by lra. apply exact_bound.
  - (* zero - finite *)
    simpl SFsub. split; [done|]. rewrite B2R_opp, is_finite_B2R_zero.
    replace (0 - B2R (S754_finite sy my ey))%R with (- B2R (S754_finite sy my ey))%R by lra.
    apply exact_bound.
  - (* finite - zero *)
    simpl SFsub. split; [done|]. rewrite is_finite_B2R_zero, Rminus_0_r. apply exact_bound.
  - (* finite - finite *)
    simpl SFsub.
    assert (E : (B2R (S754_finite sx mx ex) - B2R (S754_finite sy my ey) =
            IZR (cond_Zopp sx (Zpos (shl_align mx ex (Z.min ex ey)).1) -
                 cond_Zopp sy (Zpos (shl_align my ey (Z.min ex ey)).1)) *
            bpow (Z.min ex ey))%R).
    { rewrite minus_IZR, Rmult_minus_distr_r, !B2R_align by lia. done. }
    rewrite E in Hlt |- *. by apply binary_normalize_correct.
Qed.

(** Addition of finite floats is the exact sum rounded once. *)
Lemma add_correct (x y : float) (k : Z) :
  is_finite x = true -> is_finite y = true ->
  (Rabs (B2R x + B2R y) < bpow k)%R -> -1021 <= k <= 1023 ->
  is_finite (add x y) = true /\
  (Rabs (B2R (add x y) - (B2R x + B2R y)) <= bpow (k - 54))%R.
Proof.
  intros Hx Hy Hlt Hk. unfold add.
  destruct x as [sx|sx| |sx mx ex], y as [sy|sy| |sy my ey]; try discriminate.
  - assert (E : exists s, SFadd prec emax (S754_zero sx) (S754_zero sy) = S754_zero s).
    { destruct sx, sy; simpl; eauto. }
    destruct E as [s ->]. split; [done|]. rewrite !is_finite_B2R_zero.
    replace (0 - (0 + 0))%R with (0 - 0)%R by lra. apply exact_bound.
  - simpl SFadd. split; [done|]. rewrite is_finite_B2R_zero, Rplus_0_l. apply exact_bound.
  - simpl SFadd. split; [done|]. rewrite is_finite_B2R_zero, Rplus_0_r. apply exact_bound.
  - simpl SFadd.
    assert (E : (B2R (S754_finite sx mx ex) + B2R (S754_finite sy my ey) =
            IZR (cond_Zopp sx (Zpos (shl_align mx ex (Z.min ex ey)).1) +
                 cond_Zopp sy (Zpos (shl_align my ey (Z.min ex ey)).1)) *
            bpow (Z.min ex ey))%R).
    { rewrite plus_IZR, Rmult_plus_distr_r, !B2R_align by lia. done. }
    rewrite E in Hlt |- *. by apply binary_normalize_correct.
Qed.

Lemma valid_finite_inv (s : bool) (m : positive) (e : Z) :
  valid (S754_finite s m e) = true ->
  e = Z.max (Zpos (digits2_pos m) + e - 53) (-1074) /\ e <= 971.
Proof.
  unfold valid, valid_binary, bounded, canonical_mantissa.
  rewrite andb_true_iff, Z.eqb_eq, Z.leb_le.
  change (fexp prec emax (Zpos (digits2_pos m) + e))
    with (Z.max (Zpos (digits2_pos m) + e - 53) (-1074)).
  change (emax - prec) with 971. lia.
Qed.

Lemma Zdigits2_mul_ge (a b : Z) :
  0 < a -> 0 < b -> Zdigits2 a + Zdigits2 b - 1 <= Zdigits2 (a * b).
Proof.
  intros Ha Hb.
  pose proof (Zdigits2_bounds a Ha) as [Hal _]. pose proof (Zdigits2_bounds b Hb) as [Hbl _].
  pose proof (Zdigits2_pos a Ha). pose proof (Zdigits2_pos b Hb).
  pose proof (Zdigits2_bounds (a * b) ltac:(nia)) as [_ Hu].
  destruct (Z_le_gt_dec (Zdigits2 a + Zdigits2 b - 1) (Zdigits2 (a * b))); [done|exfalso].
  assert (2 ^ Zdigits2 (a * b) <= 2 ^ (Zdigits2 a - 1 + (Zdigits2 b - 1)))
    by (apply Z.pow_le_mono_r; lia).
  rewrite Z.pow_add_r in H1 by lia.
  pose proof (Z.pow_pos_nonneg 2 (Zdigits2 a - 1) ltac:(lia) ltac:(lia)).
  pose proof (Z.pow_pos_nonneg 2 (Zdigits2 b - 1) ltac:(lia) ltac:(lia)).
  nia.
Qed.

(** Multiplication of valid finite floats is the exact product rounded once. *)
Lemma mul_correct (x y : float) (k : Z) :
  valid x = true -> valid y = true ->
  is_finite x = true -> is_finite y = true ->
  (Rabs (B2R x * B2R y) < bpow k)%R -> -1021 <= k <= 1023 ->
  is_finite (mul x y) = true /\
  (Rabs (B2R (mul x y) - B2R x * B2R y) <= bpow (k - 54))%R.
Proof.
  intros Vx Vy Hx Hy Hlt Hk. unfold mul.
  destruct x as [sx|sx| |sx mx ex], y as [sy|sy| |sy my ey]; try discriminate;
    try (simpl SFmul; split; [done|]; rewrite !is_finite_B2R_zero;
         rewrite ?Rmult_0_l, ?Rmult_0_r; apply exact_bound).
  simpl SFmul.
  apply valid_finite_inv in Vx as [Cx Bx]. apply valid_finite_inv in Vy as [Cy By].
  assert (E : (B2R (S754_finite sx mx ex) * B2R (S754_finite sy my ey) =
               IZR (cond_Zopp (xorb sx sy) (Zpos (mx * my))) * bpow (ex + ey))%R).
  { rewrite bpow_add. simpl B2R.
    replace (cond_Zopp (xorb sx sy) (Zpos (mx * my)))
      with ((if sx then Zneg mx else Zpos mx) * (if sy then Zneg my else Zpos my))
      by (destruct sx, sy; reflexivity).
    rewrite mult_IZR. ring. }
  rewrite E in Hlt |- *.
  assert (Habs : (IZR (Zpos (mx * my)) * bpow (ex + ey) < bpow k)%R).
  { revert Hlt. rewrite Rabs_mult, (Rabs_pos_eq (bpow _)) by (left; apply bpow_pos).
    rewrite <- abs_IZR. by destruct (xorb sx sy). }
  pose proof (digits_le_of_lt (Zpos (mx * my)) (ex + ey) k ltac:(lia) Habs) as Hd.
  pose proof (Zdigits2_mul_ge (Zpos mx) (Zpos my) ltac:(lia) ltac:(lia)) as Hdm.
  simpl Zdigits2 in Hdm at 1 2. change (Zpos mx * Zpos my) with (Zpos (mx * my)) in Hdm.
  destruct (binary_round_aux_frac (xorb sx sy) (Zpos (mx * my)) (ex + ey) 1 0 loc_Exact)
    as (z & e2 & -> & Hz & Hcase & Herr0 & _); [lia|lia|done|].
  rewrite fexp64_eq in Hcase, Herr0.
  rewrite Z.mul_1_r, Z.add_0_r in Herr0. unfold Rdiv in Herr0.
  rewrite Rinv_1, Rmult_1_r in Herr0.
  assert (He2 : e2 <= 971 /\
     (Rabs (IZR z * bpow e2 - IZR (Zpos (mx * my)) * bpow (ex + ey)) <= bpow (k - 54))%R).
  { split; [lia|]. eapply Rle_trans; [exact Herr0|]. apply bpow_le. lia. }
  destruct He2 as [He2 Herr].
  destruct (mk_float_finite (xorb sx sy) z e2 Hz He2) as [Hf ->]. split; [done|].
  destruct (xorb sx sy); simpl cond_Zopp; [|done].
  change (Zneg (mx * my)) with (- Zpos (mx * my)). rewrite !opp_IZR.
  replace (- IZR z * bpow e2 - - IZR (Zpos (mx * my)) * bpow (ex + ey))%R
    with (- (IZR z * bpow e2 - IZR (Zpos (mx * my)) * bpow (ex + ey)))%R by lra.
  by rewrite Rabs_Ropp.
Qed.

Lemma bpow_opp e : bpow (- e) = (/ bpow e)%R.
Proof.
  apply (Rmult_eq_reg_r (bpow e)); [|pose proof (bpow_pos e); lra].
  rewrite <- bpow_add, Z.add_opp_diag_l, bpow_0.
  rewrite Rinv_l; [done|]. pose proof (bpow_pos e); lra.
Qed.

Lemma B2R_lit_0_70 : B2R lit_0_70 = (6305039478318694 / 9007199254740992)%R.
Proof.
  unfold lit_0_70, B2R. change (Zneg 53) with (Z.opp (Zpos 53)). rewrite bpow_opp, (bpow_IZR 53) by lia.
  reflexivity.
Qed.

Lemma bpow_unit (k j : Z) : 0 <= j -> bpow (k - 54 + j) = (IZR (2 ^ j) * bpow (k - 54))%R.
Proof. intros H. rewrite bpow_add, (bpow_IZR j) by lia. lra. Qed.

Lemma Rabs_le_between (x a : R) : (Rabs x <= a)%R -> (- a <= x <= a)%R.
Proof. unfold Rabs. destruct (Rcase_abs x); lra. Qed.

Ltac abs_hyps :=
  repeat match goal with
         | H : (Rabs _ <= _)%R |- _ => apply Rabs_le_between in H
         | H : (Rabs _ < _)%R |- _ => apply Rabs_def2 in H
         end.

Lemma profit_at_mao_bound (k : Z) (arv rehab fee : float) :
  amount k arv -> amount k rehab -> amount k fee -> -1021 <= k <= 1019 ->
  is_finite (Spec.computeProfitAtMAO arv rehab fee) = true /\
  (Rabs (B2R (Spec.computeProfitAtMAO arv rehab fee) - 3 / 10 * B2R arv) <= bpow (k - 48))%R.
Proof.
  intros (Va & Fa & Ba) (Vr & Fr & Br) (Vf & Ff & Bf) Hk.
  unfold Spec.computeProfitAtMAO, Spec.computeMAO.
  pose proof (bpow_pos (k - 54)) as Hu.
  pose proof (bpow_unit k 54 ltac:(lia)) as E0. replace (k - 54 + 54) with k in E0 by lia.
  pose proof (bpow_unit k 56 ltac:(lia)) as E2. replace (k - 54 + 56) with (k + 2) in E2 by lia.
  pose proof (bpow_unit k 57 ltac:(lia)) as E3. replace (k - 54 + 57) with (k + 3) in E3 by lia.
  pose proof (bpow_unit k 58 ltac:(lia)) as E4. replace (k - 54 + 58) with (k + 4) in E4 by lia.
  pose proof (bpow_unit k 2 ltac:(lia)) as D2. replace (k - 54 + 2) with (k + 2 - 54) in D2 by lia.
  pose proof (bpow_unit k 3 ltac:(lia)) as D3. replace (k - 54 + 3) with (k + 3 - 54) in D3 by lia.
  pose proof (bpow_unit k 4 ltac:(lia)) as D4. replace (k - 54 + 4) with (k + 4 - 54) in D4 by lia.
  pose proof (bpow_unit k 6 ltac:(lia)) as D6. replace (k - 54 + 6) with (k - 48) in D6 by lia.
  change (2 ^ 54) with 18014398509481984 in E0. change (2 ^ 56) with 72057594037927936 in E2.
  change (2 ^ 57) with 144115188075855872 in E3. change (2 ^ 58) with 288230376151711744 in E4.
  change (2 ^ 2) with 4 in D2. change (2 ^ 3) with 8 in D3. change (2 ^ 4) with 16 in D4.
  change (2 ^ 6) with 64 in D6.
  assert (Vc : valid lit_0_70 = true) by reflexivity.
  assert (Fc : is_finite lit_0_70 = true) by reflexivity.
  pose proof B2R_lit_0_70 as Ec.
  (* 0.70 * arv *)
  assert (M1 : (Rabs (B2R lit_0_70 * B2R arv) < bpow k)%R).
  { rewrite Ec. apply Rabs_def1; lra. }
  destruct (mul_correct lit_0_70 arv k Vc Va Fc Fa M1 ltac:(lia)) as [F1 H1].
  set (m1 := mul lit_0_70 arv) in *. rewrite Ec in H1. clear M1.
  (* - rehab *)
  assert (M2 : (Rabs (B2R m1 - B2R rehab) < bpow (k + 2))%R).
  { abs_hyps. apply Rabs_def1; lra. }
  destruct (sub_correct m1 rehab (k + 2) F1 Fr M2 ltac:(lia)) as [F2 H2].
  set (t1 := sub m1 rehab) in *. clear M2.
  (* - fee *)
  assert (M3 : (Rabs (B2R t1 - B2R fee) < bpow (k + 3))%R).
  { abs_hyps. apply Rabs_def1; lra. }
  destruct (sub_correct t1 fee (k + 3) F2 Ff M3 ltac:(lia)) as [F3 H3].
  set (mao := sub t1 fee) in *. clear M3.
  (* arv - mao *)
  assert (M4 : (Rabs (B2R arv - B2R mao) < bpow (k + 3))%R).
  { abs_hyps. apply Rabs_def1; lra. }
  destruct (sub_correct arv mao (k + 3) Fa F3 M4 ltac:(lia)) as [F4 H4].
  set (a1 := sub arv mao) in *. clear M4.
  (* - rehab *)
  assert (M5 : (Rabs (B2R a1 - B2R rehab) < bpow (k + 4))%R).
  { abs_hyps. apply Rabs_def1; lra. }
  destruct (sub_correct a1 rehab (k + 4) F4 Fr M5 ltac:(lia)) as [F5 H5].
  set (a2 := sub a1 rehab) in *. clear M5.
  (* - fee *)
  assert (M6 : (Rabs (B2R a2 - B2R fee) < bpow (k + 4))%R).
  { abs_hyps. apply Rabs_def1; lra. }
  destruct (sub_correct a2 fee (k + 4) F5 Ff M6 ltac:(lia)) as [F6 H6].
  clear M6.
  split; [exact F6|].
  abs_hyps. apply Rabs_le. lra.
Qed.

Lemma binary_round_exact (s : bool) (p : positive) (e N : Z) :
  (IZR (Zpos p) * bpow e = IZR N)%R -> N < 2 ^ 53 ->
  is_finite (binary_round prec emax s p e) = true /\
  B2R (binary_round prec emax s p e) = IZR (cond_Zopp s N).
Proof.
  intros Hv HN.
  assert (Hlt : (IZR (Zpos p) * bpow e < bpow 53)%R).
  { rewrite Hv, (bpow_IZR 53) by lia. by apply IZR_lt. }
  pose proof (digits_le_of_lt (Zpos p) e 53 ltac:(lia) Hlt) as Hd. simpl Zdigits2 in Hd.
  destruct (binary_round_spec s p e) as (z & e2 & -> & Hz & He2 & _ & Hex).
  rewrite fexp64_eq in He2, Hex.
  set (e1 := Z.max (Zpos (digits2_pos p) + e - 53) (-1074)) in *.
  assert (He1 : e1 <= 0) by lia.
  destruct (mk_float_finite s z e2 Hz ltac:(lia)) as [Hf ->]. split; [done|].
  assert (E : (IZR z * bpow e2 = IZR N)%R).
  { rewrite <- Hv. apply Hex.
    destruct (Z_le_gt_dec e1 e) as [|Hgt]; [by left|right].
    assert (Hp : Zpos p = N * 2 ^ (- e)).
    { apply eq_IZR. rewrite mult_IZR, <- (bpow_IZR (- e)), <- Hv by lia.
      rewrite Rmult_assoc, <- bpow_add, Z.add_opp_diag_r, bpow_0. lra. }
    rewrite Hp. replace (- e) with (- e1 + (e1 - e)) by lia.
    rewrite Z.pow_add_r, Z.mul_assoc by lia. apply Z.mod_mul.
    pose proof (Z.pow_pos_nonneg 2 (e1 - e)). lia. }
  destruct s; simpl cond_Zopp; rewrite ?opp_IZR, <- ?E; lra.
Qed.

Lemma binary_normalize_exact (D e N : Z) :
  (IZR D * bpow e = IZR N)%R -> Z.abs N < 2 ^ 53 ->
  integral (binary_normalize prec emax D e false) N.
Proof.
  intros Hv HN. pose proof (bpow_pos e) as He.
  destruct D as [|p|p]; simpl binary_normalize.
  - split; [done|]. simpl. rewrite <- Hv. lra.
  - assert (0 < IZR (Zpos p))%R by (by apply IZR_lt).
    assert (0 < N) by (apply lt_IZR; rewrite <- Hv; by apply Rmult_lt_0_compat).
    apply (binary_round_exact false p e N Hv). lia.
  - assert (0 < IZR (Zpos p))%R by (by apply IZR_lt).
    change (Zneg p) with (- Zpos p) in Hv. rewrite opp_IZR in Hv.
    assert (Hv' : (IZR (Zpos p) * bpow e = IZR (- N))%R) by (rewrite opp_IZR; lra).
    assert (0 < - N) by (apply lt_IZR; rewrite <- Hv'; by apply Rmult_lt_0_compat).
    destruct (binary_round_exact true p e (- N) Hv' ltac:(lia)) as [Hf Hr].
    split; [done|]. rewrite Hr. simpl cond_Zopp. by rewrite Z.opp_involutive.
Qed.

Lemma sub_exact (x y : float) (nx ny : Z) :
  integral x nx -> integral y ny -> Z.abs (nx - ny) < 2 ^ 53 ->
  integral (sub x y) (nx - ny).
Proof.
  intros [Fx Ex] [Fy Ey] HN. unfold sub.
  destruct x as [sx|sx| |sx mx ex], y as [sy|sy| |sy my ey]; try discriminate.
  - assert (E : exists s, SFsub prec emax (S754_zero sx) (S754_zero sy) = S754_zero s).
    { destruct sx, sy; simpl; eauto. }
    destruct E as [s ->]. split; [done|]. simpl in *. rewrite minus_IZR, <- Ex, <- Ey. lra.
  - simpl SFsub. split; [done|]. rewrite B2R_opp, minus_IZR, <- Ex, <- Ey. simpl. lra.
  - simpl SFsub. split; [done|]. rewrite minus_IZR, <- Ex, <- Ey. simpl. lra.
  - simpl SFsub. apply binary_normalize_exact; [|done].
    rewrite minus_IZR, Rmult_minus_distr_r, !B2R_align by lia.
    rewrite minus_IZR, <- Ex, <- Ey. done.
Qed.

Lemma add_exact (x y : float) (nx ny : Z) :
  integral x nx -> integral y ny -> Z.abs (nx + ny) < 2 ^ 53 ->
  integral (add x y) (nx + ny).
Proof.
  intros [Fx Ex] [Fy Ey] HN. unfold add.
  destruct x as [sx|sx| |sx mx ex], y as [sy|sy| |sy my ey]; try discriminate.
  - assert (E : exists s, SFadd prec emax (S754_zero sx) (S754_zero sy) = S754_zero s).
    { destruct sx, sy; simpl; eauto. }
    destruct E as [s ->]. split; [done|]. simpl in *. rewrite plus_IZR, <- Ex, <- Ey. lra.
  - simpl SFadd. split; [done|]. rewrite plus_IZR, <- Ex, <- Ey. simpl. lra.
  - simpl SFadd. split; [done|]. rewrite plus_IZR, <- Ex, <- Ey. simpl. lra.
  - simpl SFadd. apply binary_normalize_exact; [|done].
    rewrite plus_IZR, Rmult_plus_distr_r, !B2R_align by lia.
    rewrite plus_IZR, <- Ex, <- Ey. done.
Qed.

Lemma profit_estimate_exact (arv c rehab fee : float) (na nc nr nf : Z) :
  integral arv na -> integral c nc -> integral rehab nr -> integral fee nf ->
  Z.abs na <= 2 ^ 50 -> Z.abs nc <= 2 ^ 51 -> Z.abs nr <= 2 ^ 50 -> Z.abs nf <= 2 ^ 50 ->
  integral (Spec.computeProfitEstimate arv c rehab fee) (na - nc - nr - nf).
Proof.
  intros Ha Hc Hr Hf Ba Bc Br Bf. unfold Spec.computeProfitEstimate.
  change (2 ^ 50) with 1125899906842624 in *. change (2 ^ 51) with 2251799813685248 in *.
  repeat apply sub_exact; try done; change (2 ^ 53) with 9007199254740992; lia.
Qed.

Lemma integral_of_Z (n : Z) : Z.abs n < 2 ^ 53 -> integral (of_Z n) n.
Proof.
  intros H. unfold of_Z. apply binary_normalize_exact; [|done].
  rewrite bpow_0. lra.
Qed.

Lemma profit_estimate_bound (k : Z) (arv c rehab fee : float) :
  within (bpow k) arv -> within (3 * bpow k) c ->
  within (bpow k) rehab -> within (bpow k) fee -> -1021 <= k <= 1020 ->
  is_finite (Spec.computeProfitEstimate arv c rehab fee) = true /\
  (Rabs (B2R (Spec.computeProfitEstimate arv c rehab fee)
         - (B2R arv - B2R c - B2R rehab - B2R fee)) <= 24 * bpow (k - 54))%R.
Proof.
  intros (Fa & Ba) (Fc & Bc) (Fr & Br) (Ff & Bf) Hk.
  unfold Spec.computeProfitEstimate.
  pose proof (bpow_pos (k - 54)) as Hu.
  pose proof (bpow_unit k 54 ltac:(lia)) as E0. replace (k - 54 + 54) with k in E0 by lia.
  pose proof (bpow_unit k 57 ltac:(lia)) as E3. replace (k - 54 + 57) with (k + 3) in E3 by lia.
  pose proof (bpow_unit k 3 ltac:(lia)) as D3. replace (k - 54 + 3) with (k + 3 - 54) in D3 by lia.
  change (2 ^ 54) with 18014398509481984 in E0.
  change (2 ^ 57) with 144115188075855872 in E3. change (2 ^ 3) with 8 in D3.
  assert (M1 : (Rabs (B2R arv - B2R c) < bpow (k + 3))%R).
  { abs_hyps. apply Rabs_def1; lra. }
  destruct (sub_correct arv c (k + 3) Fa Fc M1 ltac:(lia)) as [F1 H1].
  set (a1 := sub arv c) in *. clear M1.
  assert (M2 : (Rabs (B2R a1 - B2R rehab) < bpow (k + 3))%R).
  { abs_hyps. apply Rabs_def1; lra. }
  destruct (sub_correct a1 rehab (k + 3) F1 Fr M2 ltac:(lia)) as [F2 H2].
  set (a2 := sub a1 rehab) in *. clear M2.
  assert (M3 : (Rabs (B2R a2 - B2R fee) < bpow (k + 3))%R).
  { abs_hyps. apply Rabs_def1; lra. }
  destruct (sub_correct a2 fee (k + 3) F2 Ff M3 ltac:(lia)) as [F3 H3].
  split; [exact F3|]. abs_hyps. apply Rabs_le. lra.
Qed.

Lemma contract_price_increment_bound (k : Z) (arv c delta rehab fee : float) :
  within (bpow k) arv -> within (bpow k) c -> within (bpow k) delta ->
  within (bpow k) rehab -> within (bpow k) fee -> -1021 <= k <= 1020 ->
  is_finite (Spec.computeProfitEstimate arv (add c delta) rehab fee) = true /\
  is_finite (Spec.computeProfitEstimate arv c rehab fee) = true /\
  (Rabs (B2R (Spec.computeProfitEstimate arv (add c delta) rehab fee)
         - (B2R (Spec.computeProfitEstimate arv c rehab fee) - B2R delta))
   <= bpow (k - 48))%R.
Proof.
  intros Ha Hc Hd Hr Hf Hk.
  pose proof (bpow_pos (k - 54)) as Hu.
  pose proof (bpow_unit k 54 ltac:(lia)) as E0. replace (k - 54 + 54) with k in E0 by lia.
  pose proof (bpow_unit k 56 ltac:(lia)) as E2. replace (k - 54 + 56) with (k + 2) in E2 by lia.
  pose proof (bpow_unit k 2 ltac:(lia)) as D2. replace (k - 54 + 2) with (k + 2 - 54) in D2 by lia.
  pose proof (bpow_unit k 6 ltac:(lia)) as D6. replace (k - 54 + 6) with (k - 48) in D6 by lia.
  change (2 ^ 54) with 18014398509481984 in E0. change (2 ^ 56) with 72057594037927936 in E2.
  change (2 ^ 2) with 4 in D2. change (2 ^ 6) with 64 in D6.
  assert (Hc3 : within (3 * bpow k) c).
  { destruct Hc as [Fc Bc]. split; [done|]. lra. }
  destruct (profit_estimate_bound k arv c rehab fee Ha Hc3 Hr Hf Hk) as [F0 H0].
  destruct Hc as [Fc Bc], Hd as [Fd Bd].
  assert (M : (Rabs (B2R c + B2R delta) < bpow (k + 2))%R).
  { abs_hyps. apply Rabs_def1; lra. }
  destruct (add_correct c delta (k + 2) Fc Fd M ltac:(lia)) as [F1 H1].
  assert (Hcd : within (3 * bpow k) (add c delta)).
  { split; [done|]. abs_hyps. apply Rabs_le. lra. }
  destruct (profit_estimate_bound k arv (add c delta) rehab fee Ha Hcd Hr Hf Hk) as [F2 H2].
  split; [done|]. split; [done|]. abs_hyps. apply Rabs_le. lra.
Qed.

Lemma max_allowable_offer_bound (k : Z) (arv rehab fee : float) :
  amount k arv -> amount k rehab -> amount k fee -> -1021 <= k <= 1021 ->
  Float64.is_finite (Spec.computeMAO arv rehab fee) = true /\
  (Rabs (B2R (Spec.computeMAO arv rehab fee) - (7 / 10 * B2R arv - B2R rehab - B2R fee))
   <= bpow (k - 51))%R.
Proof.
  intros (Va & Fa & Ba) (Vr & Fr & Br) (Vf & Ff & Bf) Hk.
  unfold Spec.computeMAO.
  pose proof (bpow_pos (k - 54)) as Hu.
  pose proof (bpow_unit k 54 ltac:(lia)) as E0. replace (k - 54 + 54) with k in E0 by lia.
  pose proof (bpow_unit k 55 ltac:(lia)) as E1. replace (k - 54 + 55) with (k + 1) in E1 by lia.
  pose proof (bpow_unit k 56 ltac:(lia)) as E2. replace (k - 54 + 56) with (k + 2) in E2 by lia.
  pose proof (bpow_unit k 1 ltac:(lia)) as D1. replace (k - 54 + 1) with (k + 1 - 54) in D1 by lia.
  pose proof (bpow_unit k 2 ltac:(lia)) as D2. replace (k - 54 + 2) with (k + 2 - 54) in D2 by lia.
  pose proof (bpow_unit k 3 ltac:(lia)) as D3. replace (k - 54 + 3) with (k - 51) in D3 by lia.
  change (2 ^ 54) with 18014398509481984 in E0. change (2 ^ 55) with 36028797018963968 in E1.
  change (2 ^ 56) with 72057594037927936 in E2.
  change (2 ^ 1) with 2 in D1. change (2 ^ 2) with 4 in D2. change (2 ^ 3) with 8 in D3.
  assert (Vc : valid lit_0_70 = true) by reflexivity.
  assert (Fc : Float64.is_finite lit_0_70 = true) by reflexivity.
  pose proof B2R_lit_0_70 as Ec.
  assert (M1 : (Rabs (B2R lit_0_70 * B2R arv) < bpow k)%R).
  { rewrite Ec. apply Rabs_def1; lra. }
  destruct (mul_correct lit_0_70 arv k Vc Va Fc Fa M1 ltac:(lia)) as [F1 H1].
  set (m1 := Float64.mul lit_0_70 arv) in *. rewrite Ec in H1. clear M1.
  assert (M2 : (Rabs (B2R m1 - B2R rehab) < bpow (k + 1))%R).
  { abs_hyps. apply Rabs_def1; lra. }
  destruct (sub_correct m1 rehab (k + 1) F1 Fr M2 ltac:(lia)) as [F2 H2].
  set (t1 := Float64.sub m1 rehab) in *. clear M2.
  assert (M3 : (Rabs (B2R t1 - B2R fee) < bpow (k + 2))%R).
  { abs_hyps. apply Rabs_def1; lra. }
  destruct (sub_correct t1 fee (k + 2) F2 Ff M3 ltac:(lia)) as [F3 H3].
  split; [exact F3|]. abs_hyps. apply Rabs_le. lra.
Qed.

(** ** Division *)

Lemma new_location_ok (b r : Z) : 0 < b -> 0 <= r < b -> loc_ok b r (new_location b r).
Proof.
  intros Hb Hr. unfold new_location, new_location_even, new_location_odd.
  destruct (Z.even b) eqn:Heven; destruct (Z.eqb_spec r 0) as [->|Hr0]; try done.
  - destruct (Z.compare_spec (2 * r) b); simpl; lia.
  - assert (Hodd : Z.odd b = true) by (rewrite <- Z.negb_even, Heven; done).
    apply Z.odd_spec in Hodd as [c Hc].
    destruct (Z.compare_spec (2 * r + 1) b); simpl; lia.
Qed.

(** Magnitudes: the real value of a float is its signed mantissa. *)
Lemma B2R_finite_abs (s : bool) (m : positive) (e : Z) :
  B2R (S754_finite s m e) = (IZR (cond_Zopp s (Zpos m)) * bpow e)%R.
Proof. destruct s; reflexivity. Qed.

Lemma IZR_cond_Zopp (s : bool) (z : Z) :
  IZR (cond_Zopp s z) = ((if s then -1 else 1) * IZR z)%R.
Proof. destruct s; simpl; rewrite ?opp_IZR; lra. Qed.

Lemma Rabs_sign (s : bool) : Rabs (if s then -1 else 1) = 1%R.
Proof. destruct s; unfold Rabs; destruct (Rcase_abs _); lra. Qed.

(** Division of finite non-zero floats, canonical or not, is the exact
    quotient rounded once. *)
Lemma div_correct (sx sy : bool) (mx my : positive) (ex ey k : Z) :
  let x := S754_finite sx mx ex in
  let y := S754_finite sy my ey in
  (Rabs (B2R x / B2R y) < bpow k)%R -> -1021 <= k <= 1023 ->
  is_finite (div x y) = true /\
  (Rabs (B2R (div x y) - B2R x / B2R y) <= bpow (k - 54))%R.
Proof.
  intros x y Hlt Hk. subst x y. unfold div. simpl SFdiv.
  unfold SFdiv_core_binary.
  set (d1 := Zdigits2 (Zpos mx)). set (d2 := Zdigits2 (Zpos my)).
  set (e' := Z.min (fexp prec emax (d1 + ex - (d2 + ey))) (ex - ey)).
  set (sh := ex - ey - e').
  assert (Hsh : 0 <= sh) by (unfold sh, e'; lia).
  set (m' := match sh with Zpos _ => Z.shiftl (Zpos mx) sh | 0 => Zpos mx | Zneg _ => 0 end).
  assert (Hm' : m' = Zpos mx * 2 ^ sh).
  { unfold m'. destruct sh as [|p|p] eqn:E; [simpl; lia| |lia].
    by rewrite Z.shiftl_mul_pow2 by lia. }
  pose proof (Z.pow_pos_nonneg 2 sh ltac:(lia) Hsh) as HP.
  pose proof (Z_div_mod m' (Zpos my) ltac:(lia)) as Hdm.
  destruct (Z.div_eucl m' (Zpos my)) as [q r]. destruct Hdm as [Hqr Hr].
  assert (Hq : 0 <= q) by nia.
  (* the exact quotient *)
  pose proof (bpow_pos ex) as Hbx. pose proof (bpow_pos ey) as Hby.
  pose proof (bpow_pos e') as Hbe.
  assert (Hmx : (0 < IZR (Zpos mx))%R) by (by apply IZR_lt).
  assert (Hmy : (0 < IZR (Zpos my))%R) by (by apply IZR_lt).
  assert (Hquot : (IZR (Zpos mx) * bpow ex / (IZR (Zpos my) * bpow ey) =
                   IZR (q * Zpos my + r) / IZR (Zpos my) * bpow e')%R).
  { replace (q * Zpos my + r) with m' by lia. rewrite Hm', mult_IZR, <- bpow_IZR by lia.
    replace ex with (sh + e' + ey) at 1 by (unfold sh; lia).
    rewrite !bpow_add. field. lra. }
  set (A := (IZR (q * Zpos my + r) / IZR (Zpos my) * bpow e')%R) in *.
  assert (HA : (0 < A)%R).
  { rewrite <- Hquot. apply Rdiv_lt_0_compat; apply Rmult_lt_0_compat; done. }
  assert (Hsign : (B2R (S754_finite sx mx ex) / B2R (S754_finite sy my ey) =
                   (if xorb sx sy then -1 else 1) * A)%R).
  { rewrite <- Hquot, !B2R_finite_abs, !IZR_cond_Zopp.
    destruct sx, sy; simpl; field; lra. }
  rewrite Hsign in Hlt |- *.
  assert (HltA : (A < bpow k)%R).
  { revert Hlt. rewrite Rabs_mult, (Rabs_pos_eq A), Rabs_sign by lra. lra. }
  (* the exponent the quotient is rounded at *)
  assert (He' : e' <= k - 53).
  { assert (d1 + ex - (d2 + ey) <= k); [|unfold e'; change (fexp prec emax (d1 + ex - (d2 + ey)))
      with (Z.max (d1 + ex - (d2 + ey) - 53) (-1074)); lia].
    pose proof (Zdigits2_bounds (Zpos mx) ltac:(lia)) as [Hl1 _].
    pose proof (Zdigits2_bounds (Zpos my) ltac:(lia)) as [_ Hu2].
    pose proof (Zdigits2_pos (Zpos mx) ltac:(lia)). pose proof (Zdigits2_pos (Zpos my) ltac:(lia)).
    fold d1 in Hl1, H. fold d2 in Hu2, H0.
    destruct (Z_le_gt_dec (d1 + ex - (d2 + ey)) k) as [|Hgt]; [done|exfalso].
    assert (bpow k <= A)%R; [|lra].
    rewrite <- Hquot.
    apply Rle_trans with (bpow (d1 - 1 + ex - (d2 + ey))); [apply bpow_le; lia|].
    replace (d1 - 1 + ex - (d2 + ey)) with ((d1 - 1) + ex + - (d2 + ey)) by lia.
    rewrite !bpow_add, bpow_opp, bpow_add, (bpow_IZR (d1 - 1)), (bpow_IZR d2) by lia.
    apply IZR_le in Hl1. apply IZR_lt in Hu2.
    pose proof (bpow_pos d2) as Hd2. rewrite (bpow_IZR d2) in Hd2 by lia.
    unfold Rdiv. apply Rmult_le_compat.
    - apply Rmult_le_pos; [|lra]. apply IZR_le. pose proof (Z.pow_pos_nonneg 2 (d1 - 1)). lia.
    - left. apply Rinv_0_lt_compat. nra.
    - apply Rmult_le_compat_r; lra.
    - apply Rinv_le_contravar; [nra|]. apply Rmult_le_compat_r; lra. }
  destruct (binary_round_aux_frac (xorb sx sy) q e' (Zpos my) r (new_location (Zpos my) r)
              Hq Hr (new_location_ok (Zpos my) r ltac:(lia) Hr)) as (z & e2 & -> & Hz & He2 & Herr & _).
  fold A in Herr.
  assert (Hdq : fexp64 (Zdigits2 q + e') <= k - 53).
  { rewrite fexp64_eq. destruct (Z.eq_dec q 0) as [->|Hq0]; [simpl; lia|].
    assert (Zdigits2 q + e' <= k); [|lia].
    apply digits_le_of_lt; [lia|].
    eapply Rle_lt_trans; [|exact HltA]. unfold A.
    apply Rmult_le_compat_r; [lra|].
    apply (Rmult_le_reg_r (IZR (Zpos my))); [done|].
    unfold Rdiv. rewrite Rmult_assoc, Rinv_l, Rmult_1_r by lra.
    rewrite <- mult_IZR. apply IZR_le. lia. }
  destruct (mk_float_finite (xorb sx sy) z e2 Hz ltac:(lia)) as [Hf ->]. split; [done|].
  rewrite IZR_cond_Zopp.
  replace ((if xorb sx sy then -1 else 1) * IZR z * bpow e2 - (if xorb sx sy then -1 else 1) * A)%R
    with ((if xorb sx sy then -1 else 1) * (IZR z * bpow e2 - A))%R by ring.
  rewrite Rabs_mult, Rabs_sign, Rmult_1_l. eapply Rle_trans; [exact Herr|]. apply bpow_le. lia.
Qed.

(** ** [round(x, 2)] *)

Lemma div_half_even_nearest (a b : Z) :
  0 <= a -> 0 < b -> 2 * Z.abs (Float64.div_half_even a b * b - a) <= b.
Proof.
  intros Ha Hb. unfold Float64.div_half_even.
  pose proof (Z.div_mod a b ltac:(lia)) as E.
  pose proof (Z.mod_pos_bound a b Hb) as Hr.
  destruct (Z.compare_spec (2 * (a mod b)) b) as [H|H|H];
    [destruct (Z.even (a / b))| |]; nia.
Qed.

(** The integer that [round(x, 2)] takes for the number of hundredths is
    within one half of [100 * x]. *)
Lemma scaled_nearest (m : positive) (e : Z) :
  (Rabs (IZR (Float64.scaled m e 2) - 100 * (IZR (Zpos m) * bpow e)) <= 1 / 2)%R.
Proof.
  unfold Float64.scaled. change (10 ^ 2) with 100.
  destruct (Z.leb_spec 0 e) as [He|He].
  - rewrite !mult_IZR, <- (bpow_IZR e) by lia.
    replace (IZR (Zpos m) * bpow e * 100 - 100 * (IZR (Zpos m) * bpow e))%R with 0%R by ring.
    rewrite Rabs_R0. lra.
  - pose proof (Z.pow_pos_nonneg 2 (- e) ltac:(lia) ltac:(lia)) as HP.
    pose proof (div_half_even_nearest (Zpos m * 100) (2 ^ (- e)) ltac:(lia) HP) as H.
    set (n := Float64.div_half_even (Zpos m * 100) (2 ^ (- e))) in *.
    apply IZR_le in H. rewrite mult_IZR, abs_IZR, minus_IZR, !mult_IZR in H.
    rewrite <- (bpow_IZR (- e)) in H by lia.
    pose proof (bpow_pos (- e)) as Hq.
    assert (Hinv : (bpow e * bpow (- e) = 1)%R).
    { rewrite <- bpow_add, Z.add_opp_diag_r. apply bpow_0. }
    replace (IZR n - 100 * (IZR (Zpos m) * bpow e))%R
      with ((IZR n * bpow (- e) - IZR (Zpos m) * 100) * bpow e)%R.
    2: { replace (IZR n) with (IZR n * (bpow e * bpow (- e)))%R at 2 by (rewrite Hinv; ring).
         ring. }
    rewrite Rabs_mult, (Rabs_pos_eq (bpow e)) by (left; apply bpow_pos).
    pose proof (bpow_pos e) as Hp.
    apply (Rmult_le_reg_r (bpow (- e))); [done|].
    rewrite Rmult_assoc, Hinv. lra.
Qed.

(** [round(x, 2)] is within half a hundredth, and one rounding of the
    result, of [x]. *)
Lemma round_2_close (x : float) (k : Z) :
  is_finite x = true ->
  (Rabs (B2R x) + 1 / 200 < bpow k)%R -> -1021 <= k <= 1023 ->
  is_finite (round x 2) = true /\
  (Rabs (B2R (round x 2) - B2R x) <= 1 / 200 + bpow (k - 54))%R.
Proof.
  intros Hx Hlt Hk. pose proof (bpow_pos (k - 54)) as Hu.
  destruct x as [s|s| |s m e]; try discriminate.
  - simpl round. split; [done|]. rewrite Rminus_diag, Rabs_R0. lra.
  - unfold round. pose proof (scaled_nearest m e) as Hn.
    assert (Hx' : B2R (S754_finite s m e)
                  = ((if s then -1 else 1) * (IZR (Zpos m) * bpow e))%R).
    { rewrite B2R_finite_abs, IZR_cond_Zopp. ring. }
    assert (Hpos : (0 < IZR (Zpos m) * bpow e)%R).
    { apply Rmult_lt_0_compat; [by apply IZR_lt | apply bpow_pos]. }
    rewrite Hx' in Hlt |- *. rewrite Rabs_mult, Rabs_sign, Rmult_1_l in Hlt.
    rewrite (Rabs_pos_eq (IZR (Zpos m) * bpow e)) in Hlt by lra.
    set (v := (IZR (Zpos m) * bpow e)%R) in *.
    apply Rabs_le_between in Hn.
    destruct (scaled m e 2) as [|n|n] eqn:En.
    + (* rounds to zero *)
      split; [done|]. simpl B2R.
      replace (0 - (if s then -1 else 1) * v)%R with ((if s then -1 else 1) * (- v))%R by ring.
      rewrite Rabs_mult, Rabs_sign, Rmult_1_l, Rabs_Ropp, Rabs_pos_eq by lra. lra.
    + change (Z.to_pos (10 ^ 2)) with 100%positive.
      assert (Hq : (B2R (S754_finite s n 0) / B2R (S754_finite false 100 0)
                    = (if s then -1 else 1) * (IZR (Zpos n) / 100))%R).
      { rewrite !B2R_finite_abs, !IZR_cond_Zopp, bpow_0. simpl. field. }
      assert (Hn0 : (0 < IZR (Zpos n))%R) by (by apply IZR_lt).
      destruct (div_correct s false n 100 0 0 k) as [Hf Herr]; [|lia|].
      { cbv zeta. rewrite Hq, Rabs_mult, Rabs_sign, Rmult_1_l, Rabs_pos_eq by lra. lra. }
      cbv zeta in Herr. rewrite Hq in Herr. split; [exact Hf|].
      apply Rabs_le_between in Herr. apply Rabs_le.
      destruct s; lra.
    + exfalso. assert (IZR (Zneg n) <= -1)%R by (apply IZR_le; lia). lra.
Qed.

(** The value that the calculator returns for [profit_at_mao], after
    [round(_, 2)], against [0.30 * arv]. *)
Lemma profit_at_mao_rounded_bound (k : Z) (arv rehab fee : float) :
  amount k arv -> amount k rehab -> amount k fee -> 0 <= k <= 1019 ->
  is_finite (round (Spec.computeProfitAtMAO arv rehab fee) 2) = true /\
  (Rabs (B2R (round (Spec.computeProfitAtMAO arv rehab fee) 2) - 3 / 10 * B2R arv)
   <= 1 / 200 + bpow (k - 47))%R.
Proof.
  intros Ha Hr Hf Hk.
  destruct (profit_at_mao_bound k arv rehab fee Ha Hr Hf ltac:(lia)) as [Fp Bp].
  destruct Ha as (_ & _ & Ba).
  set (p := Spec.computeProfitAtMAO arv rehab fee) in *. clearbody p.
  pose proof (bpow_pos (k - 54)) as Hu.
  pose proof (bpow_unit k 54 ltac:(lia)) as E0. replace (k - 54 + 54) with k in E0 by lia.
  pose proof (bpow_unit k 6 ltac:(lia)) as E1. replace (k - 54 + 6) with (k - 48) in E1 by lia.
  pose proof (bpow_unit k 7 ltac:(lia)) as E2. replace (k - 54 + 7) with (k - 47) in E2 by lia.
  pose proof (bpow_le 0 k ltac:(lia)) as H1. rewrite bpow_0 in H1.
  change (2 ^ 54) with 18014398509481984 in E0. change (2 ^ 6) with 64 in E1.
  change (2 ^ 7) with 128 in E2.
  apply Rabs_le_between in Bp.
  destruct (round_2_close p k Fp) as [Fq Bq]; [|lia|].
  { apply Rle_lt_trans with (3 / 10 * bpow k + bpow (k - 48) + 1 / 200)%R; [|lra].
    apply Rplus_le_compat_r. apply Rabs_le. lra. }
  split; [exact Fq|]. apply Rabs_le_between in Bq. apply Rabs_le. lra.
Qed.

End Rounding.

(** * The calculator *)

Lemma mul_comm x y : Float64.mul x y = Float64.mul y x.
Proof.
  unfold Float64.mul.
  destruct x as [sx|sx| |sx mx ex], y as [sy|sy| |sy my ey]; simpl;
    rewrite ?(xorb_comm sx sy); try reflexivity.
  by rewrite Pos.mul_comm, Z.add_comm.
Qed.

(** The handler never raises: the only conversions of ints are those of
    the defaults [0] and [10000]. *)
Lemma calculate_mao_eq (data : gmap string float) :
  let arv := get data "arv" (PyInt 0) in
  let rehab := get data "rehab_estimate" (PyInt 0) in
  let fee := get data "assignment_fee" (PyInt 10000) in
  let a := to_float arv in let r := to_float rehab in let f := to_float fee in
  let mao := Float64.sub (Float64.sub (Float64.mul a lit_0_70) r) f in
  calculate_mao data =
  Ok (list_to_map
        [ ("arv", arv); ("rehab_estimate", rehab); ("assignment_fee", fee);
          ("max_allowable_offer", PyFloat (Float64.round mao 2));
          ("profit_at_mao",
           PyFloat (Float64.round (Float64.sub (Float64.sub (Float64.sub a mao) r) f) 2));
          ("seventy_percent_arv", PyFloat (Float64.round (Float64.mul a lit_0_70) 2)) ]).
Proof.
  unfold calculate_mao, get.
  destruct (data !! "arv"), (data !! "rehab_estimate"), (data !! "assignment_fee");
    reflexivity.
Qed.

Lemma calculate_mao_response (data : gmap string float) :
  calculate_mao data =
  Ok (mao_response (get data "arv" (PyInt 0)) (get data "rehab_estimate" (PyInt 0))
        (get data "assignment_fee" (PyInt 10000))).
Proof.
  rewrite calculate_mao_eq. cbv zeta.
  unfold mao_response, Spec.computeProfitAtMAO, Spec.computeMAO.
  by rewrite (mul_comm lit_0_70).
Qed.

Lemma mao_response_dom arv rehab fee :
  dom (mao_response arv rehab fee) =
  ({[ "arv"; "rehab_estimate"; "assignment_fee"; "max_allowable_offer";
      "profit_at_mao"; "seventy_percent_arv" ]} : gset string).
Proof.
  unfold mao_response. cbv zeta. rewrite dom_list_to_map_L. simpl. set_solver.
Qed.

Lemma mao_response_lookup arv rehab fee :
  let a := to_float arv in let r := to_float rehab in let f := to_float fee in
  let out := mao_response arv rehab fee in
  out !! "arv" = Some arv /\
  out !! "rehab_estimate" = Some rehab /\
  out !! "assignment_fee" = Some fee /\
  out !! "max_allowable_offer" = Some (PyFloat (Float64.round (Spec.computeMAO a r f) 2)) /\
  out !! "profit_at_mao" = Some (PyFloat (Float64.round (Spec.computeProfitAtMAO a r f) 2)) /\
  out !! "seventy_percent_arv" = Some (PyFloat (Float64.round (Float64.mul lit_0_70 a) 2)).
Proof. repeat split; reflexivity. Qed.

Lemma get_absent (data : gmap string float) (key : string) (default : pynum) :
  data !! key = None -> get data key default = default.
Proof. intros H. unfold get. by rewrite H. Qed.

Lemma amount_of_Z (k n : Z) :
  0 <= n <= 2 ^ k -> 0 <= k <= 52 -> valid (Float64.of_Z n) = true ->
  amount k (Float64.of_Z n).
Proof.
  intros Hn Hk Hv.
  assert (2 ^ k <= 2 ^ 52) by (apply Z.pow_le_mono_r; lia).
  assert (2 ^ 52 < 2 ^ 53) by (apply Z.pow_lt_mono_r; lia).
  destruct (integral_of_Z n ltac:(lia)) as [Hf Hr].
  split; [done|]. split; [done|]. rewrite Hr, (bpow_IZR k) by lia.
  split; apply IZR_le; lia.
Qed.

Lemma within_of_Z (k n : Z) :
  Z.abs n <= 2 ^ k -> 0 <= k <= 52 -> within (bpow k) (Float64.of_Z n).
Proof.
  intros Hn Hk.
  assert (2 ^ k <= 2 ^ 52) by (apply Z.pow_le_mono_r; lia).
  assert (2 ^ 52 < 2 ^ 53) by (apply Z.pow_lt_mono_r; lia).
  destruct (integral_of_Z n ltac:(lia)) as [Hf Hr].
  split; [done|]. rewrite Hr, (bpow_IZR k), <- abs_IZR by lia. by apply IZR_le.
Qed.

(** * Collections *)

Lemma Forall2_same {A} (P : A -> A -> Prop) (l : list A) :
  (forall x, P x x) -> Forall2 P l l.
Proof. intros H. induction l; constructor; auto. Qed.

Lemma set_lookup_None (fields d : document) (k : string) :
  fields !! k = None -> (fields ∪ d) !! k = d !! k.
Proof. intros H. by rewrite lookup_union_r. Qed.

Lemma matches_id_set (fields d : document) (id : string) :
  fields !! "id" = None -> matches_id id (fields ∪ d) = matches_id id d.
Proof. intros H. unfold matches_id. by rewrite set_lookup_None. Qed.

Lemma update_one_length coll id fields :
  length (update_one coll id fields).1 = length coll.
Proof.
  induction coll as [|d rest IH]; simpl; [done|].
  destruct (matches_id id d); simpl; [done|].
  destruct (update_one rest id fields) as [rest' n]; simpl in *. by rewrite IH.
Qed.

(** An update leaves every field it does not name as it was, in every
    document. *)
Lemma update_one_frame coll id fields :
  Forall2 (fun d d' => forall k, fields !! k = None -> d' !! k = d !! k)
    coll (update_one coll id fields).1.
Proof.
  induction coll as [|d rest IH]; simpl; [constructor|].
  destruct (matches_id id d); simpl.
  - constructor; [intros k Hk; by apply set_lookup_None | by apply Forall2_same].
  - destruct (update_one rest id fields) as [rest' n]; simpl in *.
    constructor; [done | exact IH].
Qed.

Lemma update_one_unmatched coll id fields :
  find_one coll id = None -> update_one coll id fields = (coll, 0%nat).
Proof.
  induction coll as [|d rest IH]; simpl; [done|].
  destruct (matches_id id d); [done|]. intros H. by rewrite (IH H).
Qed.

Lemma update_one_matched coll id fields d :
  fields !! "id" = None ->
  find_one coll id = Some d ->
  (update_one coll id fields).2 = 1%nat /\
  find_one (update_one coll id fields).1 id = Some (fields ∪ d).
Proof.
  intros Hid. induction coll as [|d0 rest IH]; simpl; [done|].
  destruct (matches_id id d0) eqn:Hm.
  - intros [= ->]. simpl. by rewrite matches_id_set, Hm.
  - intros H. destruct (IH H) as [IH1 IH2].
    destruct (update_one rest id fields) as [rest' n]; simpl in *.
    by rewrite Hm.
Qed.

Lemma update_one_other coll id fields :
  Forall2 (fun d d' => matches_id id d = false -> d' = d)
    coll (update_one coll id fields).1.
Proof.
  induction coll as [|d rest IH]; simpl; [constructor|].
  destruct (matches_id id d) eqn:Hm; simpl.
  - constructor; [congruence | by apply Forall2_same].
  - destruct (update_one rest id fields) as [rest' n]; simpl in *.
    constructor; [done | exact IH].
Qed.

Lemma find_one_app_fresh (coll : list document) (id : string) (d : document) :
  find_one coll id = None -> matches_id id d = true ->
  find_one (coll ++ [d]) id = Some d.
Proof.
  intros Hnone Hd. induction coll as [|d0 rest IH]; simpl in *.
  - by rewrite Hd.
  - destruct (matches_id id d0); [done|]. by apply IH.
Qed.

(** * Deal routes *)

Lemma update_data_lookup (u : DealUpdate.t) (k : string) :
  k <> "status" -> k <> "buyer_id" -> k <> "buyer_name" -> k <> "closing_date" ->
  k <> "notes" -> DealUpdate.update_data u !! k = None.
Proof.
  intros. unfold DealUpdate.update_data, DealUpdate.set_field.
  destruct (DealUpdate.status u), (DealUpdate.buyer_id u), (DealUpdate.buyer_name u),
    (DealUpdate.closing_date u), (DealUpdate.notes u); simpl;
    rewrite ?lookup_insert_ne by done; apply lookup_empty.
Qed.

Lemma update_data_status (u : DealUpdate.t) (s : DealStatus.t) :
  DealUpdate.status u = Some s ->
  DealUpdate.update_data u !! "status" = Some (VStr (DealStatus.value s)).
Proof.
  intros H. unfold DealUpdate.update_data. rewrite H. simpl. apply lookup_insert_eq.
Qed.

Lemma update_data_nonempty (u : DealUpdate.t) (s : DealStatus.t) :
  DealUpdate.status u = Some s -> DealUpdate.update_data u <> ∅.
Proof.
  intros H E. apply update_data_status in H. rewrite E in H.
  by rewrite lookup_empty in H.
Qed.

Lemma model_dump_id d : Deal.model_dump d !! "id" = Some (VStr (Deal.id d)).
Proof. reflexivity. Qed.

Lemma model_dump_mao d :
  Deal.model_dump d !! "max_allowable_offer" = Some (VFloat (Deal.max_allowable_offer d)).
Proof. reflexivity. Qed.

Lemma model_dump_profit d :
  Deal.model_dump d !! "profit_estimate" = Some (VFloat (Deal.profit_estimate d)).
Proof. reflexivity. Qed.

Lemma create_deal_deals deal_data new_id now db :
  deals (create_deal deal_data new_id now db).2 =
  deals db ++ [Deal.model_dump (create_deal deal_data new_id now db).1].
Proof. reflexivity. Qed.

Lemma create_deal_leads deal_data new_id now db :
  leads (create_deal deal_data new_id now db).2 =
  (update_one (leads db) (DealCreate.lead_id deal_data) {[ "stage" := VStr "deal" ]}).1.
Proof. reflexivity. Qed.

Lemma create_deal_id deal_data new_id now db :
  Deal.id (create_deal deal_data new_id now db).1 = new_id.
Proof. reflexivity. Qed.

Lemma create_deal_mao deal_data new_id now db :
  Deal.max_allowable_offer (create_deal deal_data new_id now db).1 =
  Spec.computeMAO (DealCreate.arv deal_data)
    (DealCreate.rehab_estimate deal_data) (DealCreate.assignment_fee deal_data).
Proof. unfold Spec.computeMAO. rewrite (mul_comm lit_0_70). reflexivity. Qed.

Lemma create_deal_profit deal_data new_id now db :
  Deal.profit_estimate (create_deal deal_data new_id now db).1 =
  Spec.computeProfitEstimate (DealCreate.arv deal_data)
    (DealCreate.contract_price deal_data)
    (DealCreate.rehab_estimate deal_data) (DealCreate.assignment_fee deal_data).
Proof. reflexivity. Qed.

Lemma create_deal_stored deal_data new_id now db :
  deals (create_deal deal_data new_id now db).2 !! length (deals db) =
  Some (Deal.model_dump (create_deal deal_data new_id now db).1).
Proof.
  rewrite create_deal_deals. by rewrite lookup_app_r, Nat.sub_diag by lia.
Qed.

(** A deal created under a fresh id is the one [find_one] returns. *)
Lemma find_one_created deal_data new_id now db :
  find_one (deals db) new_id = None ->
  find_one (deals (create_deal deal_data new_id now db).2) new_id =
  Some (Deal.model_dump (create_deal deal_data new_id now db).1).
Proof.
  intros H. rewrite create_deal_deals. apply find_one_app_fresh; [done|].
  unfold matches_id. rewrite model_dump_id, create_deal_id.
  by apply bool_decide_eq_true_2.
Qed.

Lemma profit_at_eq d c new_id now db :
  profit_at d c new_id now db =
  Spec.computeProfitEstimate (DealCreate.arv d) c (DealCreate.rehab_estimate d)
    (DealCreate.assignment_fee d).
Proof. unfold profit_at. by rewrite create_deal_profit. Qed.

Lemma set_stage_eq (l : document) :
  ({[ "stage" := VStr "deal" ]} : document) ∪ l = <[ "stage" := VStr "deal" ]> l.
Proof. by rewrite insert_union_singleton_l. Qed.

Lemma same_derived_refl d : same_derived d d.
Proof. by repeat split. Qed.

Lemma same_derived_trans d1 d2 d3 :
  same_derived d1 d2 -> same_derived d2 d3 -> same_derived d1 d3.
Proof. intros (?&?&?) (?&?&?). repeat split; congruence. Qed.

(** One update request, accepted or refused, keeps the derived fields of
    every stored deal: [DealUpdate] has no field of their names. *)
Lemma update_deal_derived deal_id update db :
  Forall2 same_derived (deals db) (deals (update_deal deal_id update db).2).
Proof.
  unfold update_deal. destruct (decide _) as [He|He]; cbn [snd].
  { apply Forall2_same, same_derived_refl. }
  pose proof (update_one_frame (deals db) deal_id (DealUpdate.update_data update)) as HF.
  destruct (update_one (deals db) deal_id (DealUpdate.update_data update)) as [deals' n].
  cbn [fst] in HF.
  assert (Forall2 same_derived (deals db) deals') as HD.
  { eapply Forall2_impl; [exact HF|]. intros d d' H.
    repeat split; apply H; by apply update_data_lookup. }
  destruct (n =? 0)%nat; exact HD.
Qed.

Lemma run_updates_derived reqs db :
  Forall2 same_derived (deals db) (deals (run_updates reqs db)).
Proof.
  revert db. induction reqs as [|[id u] reqs IH]; intros db.
  { apply Forall2_same, same_derived_refl. }
  change (run_updates ((id, u) :: reqs) db)
    with (run_updates reqs (update_deal id u db).2).
  eapply Forall2_trans; [apply same_derived_trans | apply update_deal_derived | apply IH].
Qed.

(** * Worked scenarios *)

Example scenario_1 :
  exists out, calculate_mao scenario_1_data = Ok out /\
    out !! "max_allowable_offer" = Some (PyFloat (Float64.of_Z 95000)) /\
    out !! "profit_at_mao" = Some (PyFloat (Float64.of_Z 60000)) /\
    out !! "seventy_percent_arv" = Some (PyFloat (Float64.of_Z 140000)).
Proof.
  eexists. split; [apply calculate_mao_response|].
  replace (get scenario_1_data "arv" (PyInt 0)) with (PyFloat (Float64.of_Z 200000))
    by (vm_compute; reflexivity).
  replace (get scenario_1_data "rehab_estimate" (PyInt 0))
    with (PyFloat (Float64.of_Z 35000)) by (vm_compute; reflexivity).
  replace (get scenario_1_data "assignment_fee" (PyInt 10000))
    with (PyFloat (Float64.of_Z 10000)) by (vm_compute; reflexivity).
  destruct (mao_response_lookup (PyFloat (Float64.of_Z 200000)) (PyFloat (Float64.of_Z 35000))
              (PyFloat (Float64.of_Z 10000))) as (_ & _ & _ & -> & -> & ->).
  repeat split; vm_compute; reflexivity.
Qed.

(** Stored at full precision, the offer of Scenario 2 is the float just
    below [79000]; rounded to two decimals it is [79000.0]. *)
Example scenario_2 :
  let deal := (create_deal scenario_2_deal "deal-1" "2026-01-01T00:00:00+00:00" empty_db).1 in
  Deal.max_allowable_offer deal = S754_finite false 5428838662143999 (-36) /\
  Float64.round (Deal.max_allowable_offer deal) 2 = Float64.of_Z 79000 /\
  Deal.profit_estimate deal = Float64.of_Z 48000.
Proof.
  cbv zeta. rewrite create_deal_mao, create_deal_profit. repeat split; vm_compute; reflexivity.
Qed.

Example scenario_3 :
  exists out, calculate_mao scenario_3_data = Ok out /\
    out !! "max_allowable_offer" = Some (PyFloat (Float64.of_Z (-10000))).
Proof.
  eexists. split; [apply calculate_mao_response|].
  replace (get scenario_3_data "arv" (PyInt 0)) with (PyFloat (Float64.of_Z 0))
    by (vm_compute; reflexivity).
  replace (get scenario_3_data "rehab_estimate" (PyInt 0)) with (PyFloat (Float64.of_Z 0))
    by (vm_compute; reflexivity).
  replace (get scenario_3_data "assignment_fee" (PyInt 10000))
    with (PyFloat (Float64.of_Z 10000)) by (vm_compute; reflexivity).
  destruct (mao_response_lookup (PyFloat (Float64.of_Z 0)) (PyFloat (Float64.of_Z 0))
              (PyFloat (Float64.of_Z 10000))) as (_ & _ & _ & -> & _).
  vm_compute. reflexivity.
Qed.

(** [round(0.125, 2)] is [0.12] (a tie, to even), [round(2.675, 2)] is
    [2.67] (the float is below the decimal), [round(-0.001, 2)] is [-0.0]. *)
Example round_examples :
  Float64.round (Float64.of_decimal 125 3) 2 = Float64.of_decimal 12 2 /\
  Float64.round (Float64.of_decimal 2675 3) 2 = Float64.of_decimal 267 2 /\
  Float64.round (Float64.of_decimal 5 3) 2 = Float64.of_decimal 1 2 /\
  Float64.round (Float64.of_decimal (-1) 3) 2 = S754_zero true /\
  Float64.round (Float64.of_Z 95000) 2 = Float64.of_Z 95000.
Proof. repeat split; vm_compute; reflexivity. Qed.

(** * The claims *)

(** In both flows the offer is the binary64 value of
    [0.70 * arv - rehab - fee]: deal creation returns and stores it as it
    is, the calculator returns it rounded to two decimals. *)
Lemma offer_formula_in_both_flows :
  (forall (deal_data : DealCreate.t) (new_id now : string) (db : database),
     let created := create_deal deal_data new_id now db in
     let mao := Spec.computeMAO (DealCreate.arv deal_data)
                  (DealCreate.rehab_estimate deal_data)
                  (DealCreate.assignment_fee deal_data) in
     Deal.max_allowable_offer created.1 = mao /\
     exists d, deals created.2 !! length (deals db) = Some d /\
               d !! "id" = Some (VStr new_id) /\
               d !! "max_allowable_offer" = Some (VFloat mao)) /\
  (forall data : gmap string float,
     let arv := to_float (get data "arv" (PyInt 0)) in
     let rehab := to_float (get data "rehab_estimate" (PyInt 0)) in
     let fee := to_float (get data "assignment_fee" (PyInt 10000)) in
     exists out, calculate_mao data = Ok out /\
       out !! "max_allowable_offer" =
       Some (PyFloat (Float64.round (Spec.computeMAO arv rehab fee) 2))).
Proof.
  split.
  - intros deal_data new_id now db created mao. subst created mao.
    split; [apply create_deal_mao|].
    eexists. split; [apply create_deal_stored|].
    rewrite model_dump_id, model_dump_mao, create_deal_id, create_deal_mao. done.
  - intros data arv rehab fee. eexists. split; [apply calculate_mao_response|].
    apply mao_response_lookup.
Qed.

(** The offer against the real number [0.70 * arv - rehab - fee], before
    and after [round(_, 2)]. *)
Lemma offer_bounds (k : Z) (arv rehab fee : float) :
  amount k arv -> amount k rehab -> amount k fee -> 0 <= k <= 1021 ->
  let m := Spec.computeMAO arv rehab fee in
  let exact := (7 / 10 * B2R arv - B2R rehab - B2R fee)%R in
  Float64.is_finite m = true /\
  (Rabs (B2R m - exact) <= bpow (k - 51))%R /\
  Float64.is_finite (Float64.round m 2) = true /\
  (Rabs (B2R (Float64.round m 2) - B2R m) <= 1 / 200 + bpow (k - 52))%R /\
  (Rabs (B2R (Float64.round m 2) - exact) <= 1 / 200 + bpow (k - 50))%R.
Proof.
  intros Ha Hr Hf Hk m exact. subst exact.
  destruct (max_allowable_offer_bound k arv rehab fee Ha Hr Hf ltac:(lia)) as [Fm Bm].
  destruct Ha as (_ & _ & Ba), Hr as (_ & _ & Br), Hf as (_ & _ & Bf).
  fold m in Fm, Bm. clearbody m.
  pose proof (bpow_pos (k - 54)) as Hu.
  pose proof (bpow_unit k 54 ltac:(lia)) as E0. replace (k - 54 + 54) with k in E0 by lia.
  pose proof (bpow_unit k 56 ltac:(lia)) as E1. replace (k - 54 + 56) with (k + 2) in E1 by lia.
  pose proof (bpow_unit k 2 ltac:(lia)) as E2. replace (k - 54 + 2) with (k - 52) in E2 by lia.
  pose proof (bpow_unit k 3 ltac:(lia)) as E3. replace (k - 54 + 3) with (k - 51) in E3 by lia.
  pose proof (bpow_unit k 4 ltac:(lia)) as E4. replace (k - 54 + 4) with (k - 50) in E4 by lia.
  pose proof (bpow_le 0 k ltac:(lia)) as H1. rewrite bpow_0 in H1.
  change (2 ^ 54) with 18014398509481984 in E0. change (2 ^ 56) with 72057594037927936 in E1.
  change (2 ^ 2) with 4 in E2. change (2 ^ 3) with 8 in E3. change (2 ^ 4) with 16 in E4.
  split; [exact Fm|]. split; [exact Bm|].
  apply Rabs_le_between in Bm.
  destruct (round_2_close m (k + 2) Fm) as [Fq Bq]; [|lia|].
  { apply Rle_lt_trans with (2 * bpow k + bpow (k - 51) + 1 / 200)%R; [|lra].
    apply Rplus_le_compat_r. apply Rabs_le. lra. }
  replace (k + 2 - 54) with (k - 52) in Bq by lia.
  split; [exact Fq|]. split; [exact Bq|].
  apply Rabs_le_between in Bq. apply Rabs_le. lra.
Qed.

(** C1, as stated, fails on the code in both flows.  The calculator, for
    [arv = 100.01], [rehab = 0], [fee = 0], returns [70.01], while
    [0.70 * arv - rehab - fee] is [70.007] in binary64 and in the reals:
    three thousandths off, not within [1e-9].  Deal creation, for
    [arv = 2^60], [rehab = 0], [fee = 0], stores [6305039478318694 * 2^7],
    which is [51.2] below the real number [0.70 * 2^60]. *)
Lemma C1_counterexample :
  let arv := Float64.of_decimal 10001 2 in
  let zero := Float64.of_Z 0 in
  let returned := Float64.of_decimal 7001 2 in
  let big := Float64.of_Z (2 ^ 60) in
  let stored :=
    Deal.max_allowable_offer
      (create_deal large_deal "deal-1" "2026-01-01T00:00:00+00:00" empty_db).1 in
  Float64.nonneg arv = true /\ Float64.nonneg zero = true /\ Float64.nonneg big = true /\
  (exists out, calculate_mao rounding_data = Ok out /\
               out !! "max_allowable_offer" = Some (PyFloat returned)) /\
  Spec.computeMAO arv zero zero = Float64.of_decimal 70007 3 /\
  close_to returned (Float64.of_decimal 70007 3) lit_1e_9 = false /\
  (1 / 1000000000 < Rabs (B2R returned - (7 / 10 * B2R arv - B2R zero - B2R zero)))%R /\
  stored = S754_finite false 6305039478318694 7 /\
  (B2R stored - (7 / 10 * B2R big - B2R zero - B2R zero) = - 256 / 5)%R.
Proof.
  cbv zeta. split; [reflexivity|]. split; [reflexivity|]. split; [reflexivity|].
  split.
  { eexists. split; [apply calculate_mao_response|].
    replace (get rounding_data "arv" (PyInt 0)) with (PyFloat (Float64.of_decimal 10001 2))
      by (vm_compute; reflexivity).
    replace (get rounding_data "rehab_estimate" (PyInt 0))
      with (PyFloat (Float64.of_Z 0)) by (vm_compute; reflexivity).
    replace (get rounding_data "assignment_fee" (PyInt 10000))
      with (PyFloat (Float64.of_Z 0)) by (vm_compute; reflexivity).
    destruct (mao_response_lookup (PyFloat (Float64.of_decimal 10001 2))
                (PyFloat (Float64.of_Z 0)) (PyFloat (Float64.of_Z 0)))
      as (_ & _ & _ & -> & _).
    vm_compute. reflexivity. }
  split; [vm_compute; reflexivity|]. split; [vm_compute; reflexivity|].
  assert (E46 : bpow (-46) = (/ 70368744177664)%R).
  { change (Zneg 46) with (Z.opp (Zpos 46)). rewrite bpow_opp, (bpow_IZR 46) by lia.
    reflexivity. }
  assert (E7 : bpow 7 = 128%R) by (rewrite (bpow_IZR 7) by lia; reflexivity).
  assert (E8 : bpow 8 = 256%R) by (rewrite (bpow_IZR 8) by lia; reflexivity).
  split.
  { replace (Float64.of_decimal 7001 2) with (S754_finite false 4926515779878257 (-46))
      by (vm_compute; reflexivity).
    replace (Float64.of_decimal 10001 2) with (S754_finite false 7037578105208177 (-46))
      by (vm_compute; reflexivity).
    replace (Float64.of_Z 0) with (S754_zero false) by (vm_compute; reflexivity).
    cbn [B2R]. rewrite E46.
    rewrite Rabs_pos_eq; lra. }
  assert (Es : Deal.max_allowable_offer
                 (create_deal large_deal "deal-1" "2026-01-01T00:00:00+00:00" empty_db).1
               = S754_finite false 6305039478318694 7).
  { rewrite create_deal_mao. vm_compute. reflexivity. }
  split; [exact Es|]. rewrite Es.
  replace (Float64.of_Z (2 ^ 60)) with (S754_finite false 4503599627370496 8)
    by (vm_compute; reflexivity).
  replace (Float64.of_Z 0) with (S754_zero false) by (vm_compute; reflexivity).
  cbn [B2R]. rewrite E7, E8. lra.
Qed.

(** C1, amended: for finite non-negative [arv], [rehab], [fee] of at most
    [2^k] with [0 <= k <= 1021].  Deal creation returns and stores the
    binary64 value of [0.70 * arv - rehab - fee], which is finite and
    within [2^(k-51)] of the real number [0.70 * arv - rehab - fee].  The
    calculator, for such inputs supplied or defaulted, returns that
    binary64 value rounded to two decimals, which is finite, within
    [0.005 + 2^(k-52)] of the unrounded binary64 value and within
    [0.005 + 2^(k-50)] of the real number. *)
Theorem C1_max_allowable_offer_bound (deal_data : DealCreate.t) (new_id now : string)
    (db : database) (data : gmap string float) (k : Z) :
  let created := create_deal deal_data new_id now db in
  let arv := DealCreate.arv deal_data in
  let rehab := DealCreate.rehab_estimate deal_data in
  let fee := DealCreate.assignment_fee deal_data in
  let mao := Spec.computeMAO arv rehab fee in
  let arv' := to_float (get data "arv" (PyInt 0)) in
  let rehab' := to_float (get data "rehab_estimate" (PyInt 0)) in
  let fee' := to_float (get data "assignment_fee" (PyInt 10000)) in
  let mao' := Spec.computeMAO arv' rehab' fee' in
  amount k arv -> amount k rehab -> amount k fee ->
  amount k arv' -> amount k rehab' -> amount k fee' -> 0 <= k <= 1021 ->
  (Deal.max_allowable_offer created.1 = mao /\
   (exists d, deals created.2 !! length (deals db) = Some d /\
              d !! "id" = Some (VStr new_id) /\
              d !! "max_allowable_offer" = Some (VFloat mao)) /\
   Float64.is_finite mao = true /\
   (Rabs (B2R mao - (7 / 10 * B2R arv - B2R rehab - B2R fee)) <= bpow (k - 51))%R) /\
  (exists out,
     calculate_mao data = Ok out /\
     out !! "max_allowable_offer" = Some (PyFloat (Float64.round mao' 2)) /\
     Float64.is_finite (Float64.round mao' 2) = true /\
     (Rabs (B2R (Float64.round mao' 2) - B2R mao') <= 1 / 200 + bpow (k - 52))%R /\
     (Rabs (B2R (Float64.round mao' 2) - (7 / 10 * B2R arv' - B2R rehab' - B2R fee'))
      <= 1 / 200 + bpow (k - 50))%R).
Proof.
  intros created arv rehab fee mao arv' rehab' fee' mao' Ha Hr Hf Ha' Hr' Hf' Hk.
  destruct offer_formula_in_both_flows as [Hdeal Hcalc].
  destruct (Hdeal deal_data new_id now db) as [E Hd].
  destruct (Hcalc data) as (out & Hout & Hm).
  destruct (offer_bounds k arv rehab fee Ha Hr Hf Hk) as (F1 & B1 & _).
  destruct (offer_bounds k arv' rehab' fee' Ha' Hr' Hf' Hk) as (_ & _ & F2 & B2 & B3).
  split; [by repeat split|]. exists out. by repeat split.
Qed.

Lemma C1_max_allowable_offer_bound_witness :
  let created := create_deal scenario_2_deal "deal-1" "2026-01-01T00:00:00+00:00" empty_db in
  let arv := DealCreate.arv scenario_2_deal in
  let rehab := DealCreate.rehab_estimate scenario_2_deal in
  let fee := DealCreate.assignment_fee scenario_2_deal in
  let mao := Spec.computeMAO arv rehab fee in
  let arv' := to_float (get scenario_1_data "arv" (PyInt 0)) in
  let rehab' := to_float (get scenario_1_data "rehab_estimate" (PyInt 0)) in
  let fee' := to_float (get scenario_1_data "assignment_fee" (PyInt 10000)) in
  let mao' := Spec.computeMAO arv' rehab' fee' in
  (Deal.max_allowable_offer created.1 = mao /\
   (exists d, deals created.2 !! length (deals empty_db) = Some d /\
              d !! "id" = Some (VStr "deal-1") /\
              d !! "max_allowable_offer" = Some (VFloat mao)) /\
   Float64.is_finite mao = true /\
   (Rabs (B2R mao - (7 / 10 * B2R arv - B2R rehab - B2R fee)) <= bpow (18 - 51))%R) /\
  (exists out,
     calculate_mao scenario_1_data = Ok out /\
     out !! "max_allowable_offer" = Some (PyFloat (Float64.round mao' 2)) /\
     Float64.is_finite (Float64.round mao' 2) = true /\
     (Rabs (B2R (Float64.round mao' 2) - B2R mao') <= 1 / 200 + bpow (18 - 52))%R /\
     (Rabs (B2R (Float64.round mao' 2) - (7 / 10 * B2R arv' - B2R rehab' - B2R fee'))
      <= 1 / 200 + bpow (18 - 50))%R).
Proof.
  apply (C1_max_allowable_offer_bound scenario_2_deal "deal-1" "2026-01-01T00:00:00+00:00"
           empty_db scenario_1_data 18).
  - change (DealCreate.arv scenario_2_deal) with (Float64.of_Z 180000).
    apply amount_of_Z; [vm_compute; split; discriminate | lia | reflexivity].
  - change (DealCreate.rehab_estimate scenario_2_deal) with (Float64.of_Z 35000).
    apply amount_of_Z; [vm_compute; split; discriminate | lia | reflexivity].
  - change (DealCreate.assignment_fee scenario_2_deal) with (Float64.of_Z 12000).
    apply amount_of_Z; [vm_compute; split; discriminate | lia | reflexivity].
  - replace (get scenario_1_data "arv" (PyInt 0)) with (PyFloat (Float64.of_Z 200000))
      by (vm_compute; reflexivity).
    apply amount_of_Z; [vm_compute; split; discriminate | lia | reflexivity].
  - replace (get scenario_1_data "rehab_estimate" (PyInt 0))
      with (PyFloat (Float64.of_Z 35000)) by (vm_compute; reflexivity).
    apply amount_of_Z; [vm_compute; split; discriminate | lia | reflexivity].
  - replace (get scenario_1_data "assignment_fee" (PyInt 10000))
      with (PyFloat (Float64.of_Z 10000)) by (vm_compute; reflexivity).
    apply amount_of_Z; [vm_compute; split; discriminate | lia | reflexivity].
  - lia.
Defined.

(** C3: a deal's [max_allowable_offer] and [profit_estimate] are the
    formulas' values at creation, and no sequence of update requests
    changes them: after the updates the created deal still carries both
    values, and every deal of the collection has the id and the derived
    fields it had before. *)
Theorem C3_derived_fields_frozen (deal_data : DealCreate.t) (new_id now : string)
    (db : database) (reqs : list (string * DealUpdate.t)) :
  let created := create_deal deal_data new_id now db in
  let db' := run_updates reqs created.2 in
  let mao := Spec.computeMAO (DealCreate.arv deal_data)
               (DealCreate.rehab_estimate deal_data)
               (DealCreate.assignment_fee deal_data) in
  let profit := Spec.computeProfitEstimate (DealCreate.arv deal_data)
                  (DealCreate.contract_price deal_data)
                  (DealCreate.rehab_estimate deal_data)
                  (DealCreate.assignment_fee deal_data) in
  (exists d, deals db' !! length (deals db) = Some d /\
             d !! "id" = Some (VStr new_id) /\
             d !! "max_allowable_offer" = Some (VFloat mao) /\
             d !! "profit_estimate" = Some (VFloat profit)) /\
  Forall2 same_derived (deals created.2) (deals db').
Proof.
  intros created db' mao profit.
  pose proof (run_updates_derived reqs created.2) as HF. fold db' in HF.
  split; [|exact HF].
  destruct (Forall2_lookup_l _ _ _ _ _ HF (create_deal_stored deal_data new_id now db))
    as (d' & Hd' & E1 & E2 & E3).
  exists d'. split; [exact Hd'|]. rewrite E1, E2, E3.
  rewrite model_dump_id, model_dump_mao, model_dump_profit.
  by rewrite create_deal_id, create_deal_mao, create_deal_profit.
Qed.

(** C4: the profit estimate that deal creation returns and stores is
    [arv - contract_price - rehab_estimate - assignment_fee] for the
    supplied inputs. *)
Theorem C4_profit_estimate_formula (deal_data : DealCreate.t) (new_id now : string)
    (db : database) :
  let created := create_deal deal_data new_id now db in
  let profit := Spec.computeProfitEstimate (DealCreate.arv deal_data)
                  (DealCreate.contract_price deal_data)
                  (DealCreate.rehab_estimate deal_data)
                  (DealCreate.assignment_fee deal_data) in
  Deal.profit_estimate created.1 = profit /\
  exists d, deals created.2 !! length (deals db) = Some d /\
            d !! "id" = Some (VStr new_id) /\
            d !! "profit_estimate" = Some (VFloat profit).
Proof.
  intros created profit. subst created profit.
  split; [apply create_deal_profit|].
  eexists. split; [apply create_deal_stored|].
  rewrite model_dump_id, model_dump_profit, create_deal_id, create_deal_profit. done.
Qed.

(** C5: for every request body the calculator returns a mapping with
    exactly the six keys; the first three echo the inputs read, the last
    three are the unrounded computations rounded to two decimals, the
    last of them being [0.70 * arv]. *)
Theorem C5_calculator_response (data : gmap string float) :
  let arv := get data "arv" (PyInt 0) in
  let rehab := get data "rehab_estimate" (PyInt 0) in
  let fee := get data "assignment_fee" (PyInt 10000) in
  let a := to_float arv in let r := to_float rehab in let f := to_float fee in
  exists out, calculate_mao data = Ok out /\
    dom out = ({[ "arv"; "rehab_estimate"; "assignment_fee"; "max_allowable_offer";
                  "profit_at_mao"; "seventy_percent_arv" ]} : gset string) /\
    out !! "arv" = Some arv /\
    out !! "rehab_estimate" = Some rehab /\
    out !! "assignment_fee" = Some fee /\
    out !! "max_allowable_offer" =
      Some (PyFloat (Float64.round (Spec.computeMAO a r f) 2)) /\
    out !! "profit_at_mao" =
      Some (PyFloat (Float64.round (Spec.computeProfitAtMAO a r f) 2)) /\
    out !! "seventy_percent_arv" =
      Some (PyFloat (Float64.round (Float64.mul lit_0_70 a) 2)).
Proof.
  intros arv rehab fee a r f. eexists. split; [apply calculate_mao_response|].
  split; [apply mao_response_dom|]. apply mao_response_lookup.
Qed.

(** C6: missing inputs are replaced by defaults, not signalled: the
    calculator answers as for [0] when [arv] is absent, as for [0] when
    [rehab_estimate] is absent and as for [10000] when [assignment_fee] is
    absent; a deal created without [assignment_fee] gets [10000], and its
    derived fields are computed with it. *)
Theorem C6_defaults :
  (forall data : gmap string float, data !! "arv" = None ->
     calculate_mao data =
     Ok (mao_response (PyInt 0) (get data "rehab_estimate" (PyInt 0))
           (get data "assignment_fee" (PyInt 10000)))) /\
  (forall data : gmap string float, data !! "rehab_estimate" = None ->
     calculate_mao data =
     Ok (mao_response (get data "arv" (PyInt 0)) (PyInt 0)
           (get data "assignment_fee" (PyInt 10000)))) /\
  (forall data : gmap string float, data !! "assignment_fee" = None ->
     calculate_mao data =
     Ok (mao_response (get data "arv" (PyInt 0)) (get data "rehab_estimate" (PyInt 0))
           (PyInt 10000))) /\
  to_float (PyInt 0) = S754_zero false /\
  to_float (PyInt 10000) = Float64.of_Z 10000 /\
  (forall (lead_id property_address : string) (arv rehab_estimate contract_price : float)
          (contract_signed_date closing_date title_company : option string)
          (earnest_money : option float) (notes : option string)
          (new_id now : string) (db : database),
     let deal_data := DealCreate.make lead_id property_address arv rehab_estimate
                        contract_price None contract_signed_date closing_date
                        title_company earnest_money notes in
     let deal := (create_deal deal_data new_id now db).1 in
     DealCreate.assignment_fee deal_data = Float64.of_Z 10000 /\
     Deal.assignment_fee deal = Float64.of_Z 10000 /\
     Deal.max_allowable_offer deal =
       Spec.computeMAO arv rehab_estimate (Float64.of_Z 10000) /\
     Deal.profit_estimate deal =
       Spec.computeProfitEstimate arv contract_price rehab_estimate (Float64.of_Z 10000)).
Proof.
  split; [|split; [|split; [|split; [|split]]]].
  - intros data H. rewrite calculate_mao_response. by rewrite (get_absent _ "arv").
  - intros data H. rewrite calculate_mao_response. by rewrite (get_absent _ "rehab_estimate").
  - intros data H. rewrite calculate_mao_response. by rewrite (get_absent _ "assignment_fee").
  - reflexivity.
  - reflexivity.
  - intros. subst deal. split; [reflexivity|]. split; [reflexivity|].
    split; [apply create_deal_mao | apply create_deal_profit].
Qed.

Lemma C6_defaults_witness :
  calculate_mao ∅ =
    Ok (mao_response (PyInt 0) (get ∅ "rehab_estimate" (PyInt 0))
          (get ∅ "assignment_fee" (PyInt 10000))) /\
  calculate_mao ∅ =
    Ok (mao_response (get ∅ "arv" (PyInt 0)) (PyInt 0)
          (get ∅ "assignment_fee" (PyInt 10000))) /\
  calculate_mao ∅ =
    Ok (mao_response (get ∅ "arv" (PyInt 0)) (get ∅ "rehab_estimate" (PyInt 0))
          (PyInt 10000)).
Proof.
  destruct C6_defaults as (Harv & Hrehab & Hfee & _).
  split; [|split].
  - apply Harv. apply lookup_empty.
  - apply Hrehab. apply lookup_empty.
  - apply Hfee. apply lookup_empty.
Defined.

(** C7: the calculator returns for every request body, NaN and
    infinities included, and never raises; a negative offer is an
    ordinary result: for [arv = 0], [rehab = 0], [fee = 10000], supplied
    or defaulted, it is [-10000.0]. *)
Theorem C7_calculator_total :
  (forall data : gmap string float,
     exists out mao, calculate_mao data = Ok out /\
                     out !! "max_allowable_offer" = Some (PyFloat mao)) /\
  (exists out, calculate_mao scenario_3_data = Ok out /\
     out !! "max_allowable_offer" = Some (PyFloat (Float64.of_Z (-10000)))) /\
  (exists out, calculate_mao ∅ = Ok out /\
     out !! "max_allowable_offer" = Some (PyFloat (Float64.of_Z (-10000)))) /\
  Float64.ltb (Float64.of_Z (-10000)) (S754_zero false) = true.
Proof.
  split; [|split; [|split]].
  - intros data. eexists. eexists. split; [apply calculate_mao_response|].
    apply mao_response_lookup.
  - apply scenario_3.
  - eexists. split; [apply calculate_mao_response|].
    replace (get ∅ "arv" (PyInt 0)) with (PyInt 0) by reflexivity.
    replace (get ∅ "rehab_estimate" (PyInt 0)) with (PyInt 0) by reflexivity.
    replace (get ∅ "assignment_fee" (PyInt 10000)) with (PyInt 10000) by reflexivity.
    destruct (mao_response_lookup (PyInt 0) (PyInt 0) (PyInt 10000)) as (_ & _ & _ & -> & _).
    vm_compute. reflexivity.
  - reflexivity.
Qed.

(** C9: status transitions are unrestricted: whatever document the deal
    id finds, and so whatever its status, an update that names any of the
    five statuses succeeds, and the deal read back carries that status. *)
Theorem C9_status_transitions_unrestricted (db : database) (deal_id : string)
    (d : document) (update : DealUpdate.t) (target : DealStatus.t) :
  find_one (deals db) deal_id = Some d ->
  DealUpdate.status update = Some target ->
  exists d', (update_deal deal_id update db).1 = Ok (Some d') /\
             find_one (deals (update_deal deal_id update db).2) deal_id = Some d' /\
             d' !! "status" = Some (VStr (DealStatus.value target)).
Proof.
  intros Hd Hs. unfold update_deal.
  destruct (decide _) as [He|He]; [by apply update_data_nonempty in Hs|].
  destruct (update_one_matched (deals db) deal_id (DealUpdate.update_data update) d)
    as [Hn Hf]; [by apply update_data_lookup | exact Hd |].
  destruct (update_one (deals db) deal_id (DealUpdate.update_data update)) as [deals' n].
  cbn [fst snd] in *. subst n. cbn [Nat.eqb fst snd deals].
  eexists. split; [by rewrite Hf|]. split; [exact Hf|].
  rewrite lookup_union_l'; [by apply update_data_status|].
  rewrite (update_data_status _ _ Hs). done.
Qed.

Lemma C9_status_transitions_unrestricted_witness :
  exists d', (update_deal "deal-1" close_request scenario_2_db).1 = Ok (Some d') /\
             find_one (deals (update_deal "deal-1" close_request scenario_2_db).2) "deal-1"
               = Some d' /\
             d' !! "status" = Some (VStr "closed").
Proof.
  apply (C9_status_transitions_unrestricted scenario_2_db "deal-1"
           (Deal.model_dump
              (create_deal scenario_2_deal "deal-1" "2026-01-01T00:00:00+00:00" empty_db).1)
           close_request DealStatus.CLOSED).
  - apply find_one_created. reflexivity.
  - reflexivity.
Defined.

(** C10: creating a deal also sets the stage of the lead that the
    supplied [lead_id] finds to ["deal"] and touches no other field of
    any lead and no lead of another id; the deal returned does not depend
    on the database, so it is returned whether or not such a lead exists
    (without one, the leads stay as they were). *)
Theorem C10_lead_stage_set_to_deal (deal_data : DealCreate.t) (new_id now : string)
    (db : database) :
  let lead_id := DealCreate.lead_id deal_data in
  let db' := (create_deal deal_data new_id now db).2 in
  (forall db0 : database,
     (create_deal deal_data new_id now db).1 = (create_deal deal_data new_id now db0).1) /\
  match find_one (leads db) lead_id with
  | Some l => find_one (leads db') lead_id = Some (<[ "stage" := VStr "deal" ]> l)
  | None => leads db' = leads db
  end /\
  Forall2 (same_except "stage") (leads db) (leads db') /\
  Forall2 (fun l l' => matches_id lead_id l = false -> l' = l) (leads db) (leads db').
Proof.
  intros lead_id db'. unfold db'. rewrite create_deal_leads. fold lead_id.
  split; [reflexivity|]. split; [|split].
  - destruct (find_one (leads db) lead_id) as [l|] eqn:Hl.
    + destruct (update_one_matched (leads db) lead_id {[ "stage" := VStr "deal" ]} l)
        as [_ Hf]; [done | exact Hl |].
      by rewrite Hf, set_stage_eq.
    + by rewrite update_one_unmatched.
  - eapply Forall2_impl; [apply update_one_frame|].
    intros l l' H k Hk. apply H. by apply lookup_singleton_ne.
  - apply update_one_other.
Qed.

(** C2, as stated, fails on the code: for [arv = 1], [rehab = 2^60],
    [fee = 0] (all non-negative) the offer is [0.7 - 2^60], which rounds
    to [-2^60]; [arv - mao] is [1 + 2^60], which rounds to [2^60]; taking
    [rehab] and [fee] off leaves [0.0], which is also what the calculator
    returns, while [0.30 * arv] is [0.3]: not within [1e-9], nor within any
    tolerance below [0.3]. *)
Lemma C2_counterexample :
  let arv := Float64.of_Z 1 in
  let rehab := Float64.of_Z (2 ^ 60) in
  let fee := Float64.of_Z 0 in
  Float64.nonneg arv = true /\ Float64.nonneg rehab = true /\ Float64.nonneg fee = true /\
  (exists out, calculate_mao cancelling_data = Ok out /\
               out !! "profit_at_mao" = Some (PyFloat (S754_zero false))) /\
  Spec.computeProfitAtMAO arv rehab fee = S754_zero false /\
  Float64.mul lit_0_30 arv = lit_0_30 /\
  close_to (S754_zero false) lit_0_30 lit_1e_9 = false.
Proof.
  cbv zeta. split; [reflexivity|]. split; [reflexivity|]. split; [reflexivity|].
  split.
  - eexists. split; [apply calculate_mao_response|].
    replace (get cancelling_data "arv" (PyInt 0)) with (PyFloat (Float64.of_Z 1))
      by (vm_compute; reflexivity).
    replace (get cancelling_data "rehab_estimate" (PyInt 0))
      with (PyFloat (Float64.of_Z (2 ^ 60))) by (vm_compute; reflexivity).
    replace (get cancelling_data "assignment_fee" (PyInt 10000))
      with (PyFloat (Float64.of_Z 0)) by (vm_compute; reflexivity).
    destruct (mao_response_lookup (PyFloat (Float64.of_Z 1)) (PyFloat (Float64.of_Z (2 ^ 60)))
                (PyFloat (Float64.of_Z 0))) as (_ & _ & _ & _ & -> & _).
    vm_compute. reflexivity.
  - split; [vm_compute; reflexivity|]. split; vm_compute; reflexivity.
Qed.

(** C2, amended: for finite non-negative [arv], [rehab], [fee] of at most
    [2^k] with [0 <= k <= 1019] (supplied or defaulted), the calculator's
    [profit_at_mao] is the rounding [q] to two decimals of a finite value
    [p], computed as [arv - MAO - rehab - fee]; [p] differs from
    [0.30 * arv] by at most [2^(k-48)], and the returned [q] is finite and
    differs from it by at most [0.005 + 2^(k-47)]: the identity holds up
    to a rounding error that grows with the magnitude of the inputs,
    [rehab] and [fee] included. *)
Theorem C2_profit_at_mao_bound (data : gmap string float) (k : Z) :
  let arv := to_float (get data "arv" (PyInt 0)) in
  let rehab := to_float (get data "rehab_estimate" (PyInt 0)) in
  let fee := to_float (get data "assignment_fee" (PyInt 10000)) in
  let p := Spec.computeProfitAtMAO arv rehab fee in
  let q := Float64.round p 2 in
  amount k arv -> amount k rehab -> amount k fee -> 0 <= k <= 1019 ->
  (exists out, calculate_mao data = Ok out /\
               out !! "profit_at_mao" = Some (PyFloat q)) /\
  Float64.is_finite p = true /\
  (Rabs (B2R p - 3 / 10 * B2R arv) <= bpow (k - 48))%R /\
  Float64.is_finite q = true /\
  (Rabs (B2R q - 3 / 10 * B2R arv) <= 1 / 200 + bpow (k - 47))%R.
Proof.
  intros arv rehab fee p q Ha Hr Hf Hk. split.
  { eexists. split; [apply calculate_mao_response|]. apply mao_response_lookup. }
  destruct (profit_at_mao_bound k arv rehab fee Ha Hr Hf ltac:(lia)) as [Fp Bp].
  destruct (profit_at_mao_rounded_bound k arv rehab fee Ha Hr Hf Hk) as [Fq Bq].
  done.
Qed.

Lemma C2_profit_at_mao_bound_witness :
  let arv := to_float (get scenario_1_data "arv" (PyInt 0)) in
  let rehab := to_float (get scenario_1_data "rehab_estimate" (PyInt 0)) in
  let fee := to_float (get scenario_1_data "assignment_fee" (PyInt 10000)) in
  let p := Spec.computeProfitAtMAO arv rehab fee in
  let q := Float64.round p 2 in
  (exists out, calculate_mao scenario_1_data = Ok out /\
               out !! "profit_at_mao" = Some (PyFloat q)) /\
  Float64.is_finite p = true /\
  (Rabs (B2R p - 3 / 10 * B2R arv) <= bpow (18 - 48))%R /\
  Float64.is_finite q = true /\
  (Rabs (B2R q - 3 / 10 * B2R arv) <= 1 / 200 + bpow (18 - 47))%R.
Proof.
  apply (C2_profit_at_mao_bound scenario_1_data 18).
  - replace (get scenario_1_data "arv" (PyInt 0)) with (PyFloat (Float64.of_Z 200000))
      by (vm_compute; reflexivity).
    apply amount_of_Z; [vm_compute; split; discriminate | lia | reflexivity].
  - replace (get scenario_1_data "rehab_estimate" (PyInt 0))
      with (PyFloat (Float64.of_Z 35000)) by (vm_compute; reflexivity).
    apply amount_of_Z; [vm_compute; split; discriminate | lia | reflexivity].
  - replace (get scenario_1_data "assignment_fee" (PyInt 10000))
      with (PyFloat (Float64.of_Z 10000)) by (vm_compute; reflexivity).
    apply amount_of_Z; [vm_compute; split; discriminate | lia | reflexivity].
  - lia.
Defined.

(** C8, as stated, fails on the code: with [arv = rehab = 2^54] and
    [fee = 0], the profit at contract price [0] is [0.0]; at contract
    price [0 + 1] it is still [0.0], because [2^54 - 1] rounds back to
    [2^54]; the profit at [0] minus [1] is [-1.0]. *)
Lemma C8_counterexample :
  let c := DealCreate.contract_price absorbing_deal in
  let delta := Float64.of_Z 1 in
  let at_c := profit_at absorbing_deal c "id" "now" empty_db in
  let at_c_delta := profit_at absorbing_deal (Float64.add c delta) "id" "now" empty_db in
  at_c = S754_zero false /\
  at_c_delta = S754_zero false /\
  Float64.sub at_c delta = Float64.of_Z (-1) /\
  Float64.eqb at_c_delta (Float64.sub at_c delta) = false.
Proof.
  cbv zeta. rewrite !profit_at_eq.
  split; [vm_compute; reflexivity|]. split; [vm_compute; reflexivity|].
  split; vm_compute; reflexivity.
Qed.

(** C8, amended: when [arv], [rehab], [fee], the contract price [c] and
    the increment [delta] are integer-valued and of magnitude at most
    [2^50], the stored profit estimate is exactly [arv - c - rehab - fee]
    (so it is linear and antitone in [c]) and the estimate at [c + delta]
    is the estimate at [c] minus exactly [delta]; for any finite inputs of
    magnitude at most [2^k] the two differ by at most [2^(k-48)]. *)
Theorem C8_contract_price_increment (d : DealCreate.t) (delta : float)
    (new_id now : string) (db : database) :
  let arv := DealCreate.arv d in
  let rehab := DealCreate.rehab_estimate d in
  let fee := DealCreate.assignment_fee d in
  let c := DealCreate.contract_price d in
  let at_c := profit_at d c new_id now db in
  let at_c_delta := profit_at d (Float64.add c delta) new_id now db in
  (forall na nc nd nr nf : Z,
     integral arv na -> integral c nc -> integral delta nd ->
     integral rehab nr -> integral fee nf ->
     Z.abs na <= 2 ^ 50 -> Z.abs nc <= 2 ^ 50 -> Z.abs nd <= 2 ^ 50 ->
     Z.abs nr <= 2 ^ 50 -> Z.abs nf <= 2 ^ 50 ->
     B2R at_c = IZR (na - nc - nr - nf) /\
     B2R at_c_delta = (B2R at_c - B2R delta)%R) /\
  (forall k : Z,
     within (bpow k) arv -> within (bpow k) c -> within (bpow k) delta ->
     within (bpow k) rehab -> within (bpow k) fee -> -1021 <= k <= 1020 ->
     Float64.is_finite at_c = true /\ Float64.is_finite at_c_delta = true /\
     (Rabs (B2R at_c_delta - (B2R at_c - B2R delta)) <= bpow (k - 48))%R).
Proof.
  intros arv rehab fee c at_c at_c_delta. subst at_c at_c_delta.
  rewrite !profit_at_eq. fold arv rehab fee c. split.
  - intros na nc nd nr nf Ha Hc Hd Hr Hf Ba Bc Bd Br Bf.
    change (2 ^ 50) with 1125899906842624 in *.
    assert (Hcd : integral (Float64.add c delta) (nc + nd)).
    { apply add_exact; [done|done|]. change (2 ^ 53) with 9007199254740992. lia. }
    destruct (profit_estimate_exact arv c rehab fee na nc nr nf) as [_ E0]; try done;
      try (change (2 ^ 50) with 1125899906842624; lia);
      try (change (2 ^ 51) with 2251799813685248; lia).
    destruct (profit_estimate_exact arv (Float64.add c delta) rehab fee na (nc + nd) nr nf)
      as [_ E1]; try done;
      try (change (2 ^ 50) with 1125899906842624; lia);
      try (change (2 ^ 51) with 2251799813685248; lia).
    split; [exact E0|]. rewrite E1, E0. destruct Hd as [_ ->].
    rewrite <- minus_IZR. f_equal. lia.
  - intros k Ha Hc Hd Hr Hf Hk.
    destruct (contract_price_increment_bound k arv c delta rehab fee) as (F1 & F0 & H);
      done.
Qed.

Lemma C8_contract_price_increment_witness :
  let delta := Float64.of_Z 1000 in
  let c := DealCreate.contract_price scenario_2_deal in
  let at_c := profit_at scenario_2_deal c "id" "now" empty_db in
  let at_c_delta :=
    profit_at scenario_2_deal (Float64.add c delta) "id" "now" empty_db in
  (B2R at_c = IZR (180000 - 85000 - 35000 - 12000) /\
   B2R at_c_delta = (B2R at_c - B2R delta)%R) /\
  (Float64.is_finite at_c = true /\ Float64.is_finite at_c_delta = true /\
   (Rabs (B2R at_c_delta - (B2R at_c - B2R delta)) <= bpow (18 - 48))%R).
Proof.
  cbv zeta.
  destruct (C8_contract_price_increment scenario_2_deal (Float64.of_Z 1000)
              "id" "now" empty_db) as [Hexact Hbound].
  split.
  - apply (Hexact 180000 85000 1000 35000 12000);
      first [ apply integral_of_Z; vm_compute; reflexivity
            | vm_compute; discriminate ].
  - apply (Hbound 18); first [ lia | apply within_of_Z; [vm_compute; discriminate | lia] ].
Defined.

(** * Further properties of the routes *)

(** ** First-match operations *)

Section FirstMatchFacts.
Context {D : Type} (p : D -> bool).

Lemma find_first_None (coll : list D) :
  find_first p coll = None <-> Forall (fun d => p d = false) coll.
Proof.
  induction coll as [|d rest IH]; simpl.
  - split; [constructor|done].
  - destruct (p d) eqn:Hp.
    + split; [done|]. intros H. inversion H; congruence.
    + rewrite IH. split; [by constructor|]. intros H. by inversion H.
Qed.

Lemma find_first_Some (coll : list D) (d : D) :
  find_first p coll = Some d <->
  exists l1 l2, coll = l1 ++ d :: l2 /\ Forall (fun x => p x = false) l1 /\ p d = true.
Proof.
  induction coll as [|d0 rest IH]; simpl.
  - split; [done|]. intros (l1 & l2 & E & _). by destruct l1.
  - destruct (p d0) eqn:Hp.
    + split.
      * intros [= ->]. exists [], rest. by repeat split.
      * intros (l1 & l2 & E & Hl1 & Hd). destruct l1 as [|x l1]; simpl in E.
        -- by inversion E.
        -- inversion E; subst. inversion Hl1; congruence.
    + rewrite IH. split.
      * intros (l1 & l2 & -> & Hl1 & Hd). exists (d0 :: l1), l2.
        repeat split; [|done]. by constructor.
      * intros (l1 & l2 & E & Hl1 & Hd). destruct l1 as [|x l1]; simpl in E.
        -- inversion E; subst. congruence.
        -- inversion E; subst. inversion Hl1; subst. by exists l1, l2.
Qed.

Lemma find_first_app (l1 l2 : list D) :
  find_first p (l1 ++ l2) =
  match find_first p l1 with Some d => Some d | None => find_first p l2 end.
Proof.
  induction l1 as [|d l1 IH]; simpl; [done|]. by destruct (p d).
Qed.

Lemma find_first_skip (l1 l2 : list D) :
  Forall (fun x => p x = false) l1 -> find_first p (l1 ++ l2) = find_first p l2.
Proof. intros H. rewrite find_first_app. apply find_first_None in H. by rewrite H. Qed.

Lemma update_first_unmatched (f : D -> reply D) (coll : list D) :
  Forall (fun d => p d = false) coll -> update_first p f coll = Return (coll, 0%nat).
Proof.
  induction 1 as [|d rest Hd _ IH]; simpl; [done|]. by rewrite Hd, IH.
Qed.

Lemma update_first_at (f : D -> reply D) (l1 l2 : list D) (d : D) :
  Forall (fun x => p x = false) l1 -> p d = true ->
  update_first p f (l1 ++ d :: l2) =
  match f d with
  | Return d' => Return (l1 ++ d' :: l2, 1%nat)
  | Fail e => Fail e
  end.
Proof.
  intros Hl1 Hd. induction Hl1 as [|x l1 Hx _ IH]; simpl.
  - by rewrite Hd.
  - rewrite Hx, IH. by destruct (f d).
Qed.

Lemma delete_first_unmatched (coll : list D) :
  Forall (fun d => p d = false) coll -> delete_first p coll = (coll, 0%nat).
Proof.
  induction 1 as [|d rest Hd _ IH]; simpl; [done|]. by rewrite Hd, IH.
Qed.

Lemma delete_first_at (l1 l2 : list D) (d : D) :
  Forall (fun x => p x = false) l1 -> p d = true ->
  delete_first p (l1 ++ d :: l2) = (l1 ++ l2, 1%nat).
Proof.
  intros Hl1 Hd. induction Hl1 as [|x l1 Hx _ IH]; simpl.
  - by rewrite Hd.
  - by rewrite Hx, IH.
Qed.

End FirstMatchFacts.

Lemma find_one_first (coll : list document) (id : string) :
  find_one coll id = find_first (matches_id id) coll.
Proof. induction coll as [|d rest IH]; simpl; [done|]. by rewrite IH. Qed.

Lemma update_one_first (coll : list document) (id : string) (fields : document) :
  update_first (matches_id id) (set_fields fields) coll = Return (update_one coll id fields).
Proof.
  induction coll as [|d rest IH]; simpl; [done|].
  destruct (matches_id id d); [done|]. rewrite IH.
  by destruct (update_one rest id fields).
Qed.

Lemma matches_id_true (id : string) (d : document) :
  matches_id id d = true <-> d !! "id" = Some (VStr id).
Proof.
  unfold matches_id. destruct (d !! "id") as [[| | | |s]|]; try (split; done).
  rewrite bool_decide_eq_true. split; congruence.
Qed.

Lemma matches_id_false (id : string) (d : document) :
  matches_id id d = false <-> d !! "id" <> Some (VStr id).
Proof. rewrite <- matches_id_true. by destruct (matches_id id d). Qed.

(** No document of the collection has the id. *)
Lemma find_one_None (coll : list document) (id : string) :
  find_one coll id = None <-> Forall (fun d => d !! "id" <> Some (VStr id)) coll.
Proof.
  rewrite find_one_first, find_first_None.
  apply Forall_proper; [|done]. intros d. apply matches_id_false.
Qed.

(** The document found is the first of the collection that has the id. *)
Lemma find_one_Some (coll : list document) (id : string) (d : document) :
  find_one coll id = Some d <->
  exists l1 l2, coll = l1 ++ d :: l2 /\ find_one l1 id = None /\ d !! "id" = Some (VStr id).
Proof.
  rewrite find_one_first, find_first_Some. split.
  - intros (l1 & l2 & E & H1 & Hd). exists l1, l2.
    by rewrite find_one_first, find_first_None, <- matches_id_true.
  - intros (l1 & l2 & E & H1 & Hd). exists l1, l2.
    by rewrite <- find_first_None, <- find_one_first, matches_id_true.
Qed.

Lemma update_one_at (l1 l2 : list document) (id : string) (fields d : document) :
  find_one l1 id = None -> d !! "id" = Some (VStr id) ->
  update_one (l1 ++ d :: l2) id fields = (l1 ++ (fields ∪ d) :: l2, 1%nat).
Proof.
  intros H1 Hd. pose proof (update_one_first (l1 ++ d :: l2) id fields) as E.
  rewrite update_first_at in E.
  - unfold set_fields in E. by inversion E.
  - by rewrite <- find_first_None, <- find_one_first.
  - by apply matches_id_true.
Qed.

Lemma delete_one_unmatched (coll : list document) (id : string) :
  find_one coll id = None -> delete_one coll id = (coll, 0%nat).
Proof.
  intros H. apply delete_first_unmatched. by rewrite <- find_first_None, <- find_one_first.
Qed.

Lemma delete_one_at (l1 l2 : list document) (id : string) (d : document) :
  find_one l1 id = None -> d !! "id" = Some (VStr id) ->
  delete_one (l1 ++ d :: l2) id = (l1 ++ l2, 1%nat).
Proof.
  intros H1 Hd. apply delete_first_at.
  - by rewrite <- find_first_None, <- find_one_first.
  - by apply matches_id_true.
Qed.

Lemma find_one_app (l1 l2 : list document) (id : string) :
  find_one (l1 ++ l2) id =
  match find_one l1 id with Some d => Some d | None => find_one l2 id end.
Proof. rewrite !find_one_first. apply find_first_app. Qed.

Lemma found_Some (d : document) (id : string) :
  d !! "id" = Some (VStr id) -> found (Some d) = Some d.
Proof.
  intros H. unfold found. destruct (decide (d = ∅)) as [->|]; [|done].
  by rewrite lookup_empty in H.
Qed.

Lemma found_find_one (coll : list document) (id : string) :
  found (find_one coll id) = find_one coll id.
Proof.
  destruct (find_one coll id) as [d|] eqn:E; [|done].
  apply find_one_Some in E as (_ & _ & _ & _ & Hd). by eapply found_Some.
Qed.

(** ** More on the deal routes *)

Lemma set_field_empty (k : string) (o : option value) (m : document) :
  DealUpdate.set_field k o m = ∅ <-> o = None /\ m = ∅.
Proof.
  destruct o as [v|]; simpl.
  - split; [|by intros [? _]]. intros H. by apply insert_non_empty in H.
  - split; [done|by intros [_ ?]].
Qed.

Lemma update_data_empty (u : DealUpdate.t) :
  DealUpdate.update_data u = ∅ <->
  DealUpdate.status u = None /\ DealUpdate.buyer_id u = None /\
  DealUpdate.buyer_name u = None /\ DealUpdate.closing_date u = None /\
  DealUpdate.notes u = None.
Proof.
  unfold DealUpdate.update_data. rewrite !set_field_empty, !fmap_None. tauto.
Qed.

Lemma set_field_lookup (k k' : string) (o : option value) (m : document) :
  DealUpdate.set_field k o m !! k' =
  if decide (k = k') then match o with Some v => Some v | None => m !! k' end
  else m !! k'.
Proof.
  destruct o as [v|]; simpl; destruct (decide (k = k')) as [->|Hne]; try done.
  - apply lookup_insert_eq.
  - by apply lookup_insert_ne.
Qed.

Lemma find_one_updated (l1 l2 : list document) (id : string) (fields d : document) :
  find_one l1 id = None -> d !! "id" = Some (VStr id) -> fields !! "id" = None ->
  find_one (l1 ++ (fields ∪ d) :: l2) id = Some (fields ∪ d).
Proof.
  intros H1 Hd Hf. rewrite find_one_app, H1. simpl.
  rewrite matches_id_set by done.
  by rewrite (proj2 (matches_id_true id d) Hd).
Qed.

Lemma no_id_None (coll : list document) (id : string) :
  Forall (fun d => d !! "id" <> Some (VStr id)) coll -> find_one coll id = None.
Proof. apply find_one_None. Qed.

(** X1: [get_deal] returns the first stored deal that has the id, and
    raises 404 exactly when no stored deal has it. *)
Theorem get_deal_first_match (deal_id : string) (db : database) :
  match get_deal deal_id db with
  | Ok deal =>
      deal !! "id" = Some (VStr deal_id) /\
      exists before after, deals db = before ++ deal :: after /\
        Forall (fun d => d !! "id" <> Some (VStr deal_id)) before
  | Raise e =>
      e = HTTPException 404 "Deal not found" /\
      Forall (fun d => d !! "id" <> Some (VStr deal_id)) (deals db)
  end.
Proof.
  unfold get_deal. rewrite found_find_one.
  destruct (find_one (deals db) deal_id) as [d|] eqn:E.
  - apply find_one_Some in E as (l1 & l2 & E & H1 & Hd). split; [done|].
    exists l1, l2. split; [done|]. by apply find_one_None.
  - split; [done|]. by apply find_one_None.
Qed.

(** X2: a created deal can be read back under its id, unless an older
    deal already has that id, which then keeps answering; reads under
    every other id are as before. *)
Theorem get_deal_after_create (deal_data : DealCreate.t) (new_id now : string)
    (db : database) :
  let created := create_deal deal_data new_id now db in
  get_deal new_id created.2 =
    match get_deal new_id db with
    | Ok older => Ok older
    | Raise _ => Ok (Deal.model_dump created.1)
    end /\
  forall deal_id, deal_id <> new_id -> get_deal deal_id created.2 = get_deal deal_id db.
Proof.
  intros created. unfold get_deal. rewrite !found_find_one. subst created.
  rewrite create_deal_deals.
  assert (Hid : Deal.model_dump (create_deal deal_data new_id now db).1 !! "id"
                = Some (VStr new_id)) by (by rewrite model_dump_id, create_deal_id).
  set (doc := Deal.model_dump (create_deal deal_data new_id now db).1) in *. clearbody doc.
  split.
  - rewrite find_one_app. destruct (find_one (deals db) new_id) as [d|] eqn:E; [done|].
    cbn [find_one]. by rewrite (proj2 (matches_id_true new_id doc) Hid).
  - intros deal_id Hne. rewrite ?found_find_one, find_one_app.
    destruct (find_one (deals db) deal_id) as [d|] eqn:E; [done|].
    cbn [find_one]. rewrite (proj2 (matches_id_false deal_id doc)); [done|]. congruence.
Qed.

(** X3: [update_deal] refuses with 400 exactly when the update names no
    field, with 404 exactly when it names one and no stored deal has the
    id, and with nothing else; a refused request leaves the database as
    it was. *)
Theorem update_deal_refusals (deal_id : string) (update : DealUpdate.t) (db : database) :
  let no_field :=
    DealUpdate.status update = None /\ DealUpdate.buyer_id update = None /\
    DealUpdate.buyer_name update = None /\ DealUpdate.closing_date update = None /\
    DealUpdate.notes update = None in
  let no_deal := Forall (fun d => d !! "id" <> Some (VStr deal_id)) (deals db) in
  let r := update_deal deal_id update db in
  (r.1 = Raise (HTTPException 400 "No update data provided") <-> no_field) /\
  (r.1 = Raise (HTTPException 404 "Deal not found") <-> ~ no_field /\ no_deal) /\
  (forall e, r.1 = Raise e -> r.2 = db /\ (no_field \/ no_deal)).
Proof.
  intros no_field no_deal r. subst r.
  assert (HE : DealUpdate.update_data update = ∅ <-> no_field) by apply update_data_empty.
  assert (HN : find_one (deals db) deal_id = None <-> no_deal) by apply find_one_None.
  clearbody no_field no_deal. unfold update_deal.
  destruct (decide (DealUpdate.update_data update = ∅)) as [He|He]; cbn [fst snd].
  { split; [tauto|]. split; [split; [discriminate|tauto]|]. intros e _. tauto. }
  destruct (find_one (deals db) deal_id) as [d|] eqn:E.
  - apply find_one_Some in E as (l1 & l2 & E & H1 & Hd).
    rewrite E, update_one_at by done. cbn [fst snd Nat.eqb].
    split; [split; [discriminate|tauto]|].
    split; [split; [discriminate|]|discriminate].
    intros [_ Hno]. apply HN in Hno. discriminate.
  - rewrite update_one_unmatched by done. cbn [fst snd Nat.eqb].
    split; [split; [discriminate|tauto]|]. split; [tauto|].
    intros e _. split; [by destruct db|tauto].
Qed.

Lemma update_data_id (u : DealUpdate.t) : DealUpdate.update_data u !! "id" = None.
Proof. by apply update_data_lookup. Qed.

Lemma update_data_status_field (u : DealUpdate.t) :
  DealUpdate.update_data u !! "status" = VStr ∘ DealStatus.value <$> DealUpdate.status u.
Proof. destruct u as [[?|] [?|] [?|] [?|] [?|]]; reflexivity. Qed.

Lemma update_data_buyer_id (u : DealUpdate.t) :
  DealUpdate.update_data u !! "buyer_id" = VStr <$> DealUpdate.buyer_id u.
Proof. destruct u as [[?|] [?|] [?|] [?|] [?|]]; reflexivity. Qed.

Lemma update_data_buyer_name (u : DealUpdate.t) :
  DealUpdate.update_data u !! "buyer_name" = VStr <$> DealUpdate.buyer_name u.
Proof. destruct u as [[?|] [?|] [?|] [?|] [?|]]; reflexivity. Qed.

Lemma update_data_closing_date (u : DealUpdate.t) :
  DealUpdate.update_data u !! "closing_date" = VStr <$> DealUpdate.closing_date u.
Proof. destruct u as [[?|] [?|] [?|] [?|] [?|]]; reflexivity. Qed.

Lemma update_data_notes (u : DealUpdate.t) :
  DealUpdate.update_data u !! "notes" = VStr <$> DealUpdate.notes u.
Proof. destruct u as [[?|] [?|] [?|] [?|] [?|]]; reflexivity. Qed.

(** What an accepted [update_deal] does, given the first stored deal [d]
    that has the id. *)
Lemma update_deal_at (deal_id : string) (update : DealUpdate.t) (db : database)
    (before after : list document) (d : document) :
  deals db = before ++ d :: after ->
  find_one before deal_id = None ->
  d !! "id" = Some (VStr deal_id) ->
  DealUpdate.update_data update <> ∅ ->
  update_deal deal_id update db =
  (Ok (Some (DealUpdate.update_data update ∪ d)),
   {| deals := before ++ (DealUpdate.update_data update ∪ d) :: after; leads := leads db |}).
Proof.
  intros E H1 Hd Hne. unfold update_deal.
  destruct (decide (DealUpdate.update_data update = ∅)) as [He|_]; [done|].
  rewrite E, update_one_at by done. cbn [Nat.eqb].
  by rewrite find_one_updated by (done || apply update_data_id).
Qed.

(** X4: an accepted [update_deal] rewrites the first stored deal that has
    the id, and only it: each of the five fields the update names takes
    the new value, every other field of that deal keeps its value, the
    other deals and the leads are as before, and the response is the
    rewritten document. *)
Theorem update_deal_effect (deal_id : string) (update : DealUpdate.t) (db : database)
    (before after : list document) (d : document) :
  deals db = before ++ d :: after ->
  Forall (fun x => x !! "id" <> Some (VStr deal_id)) before ->
  d !! "id" = Some (VStr deal_id) ->
  DealUpdate.update_data update <> ∅ ->
  exists d',
    update_deal deal_id update db =
      (Ok (Some d'), {| deals := before ++ d' :: after; leads := leads db |}) /\
    d' !! "status" =
      from_option (Some ∘ VStr ∘ DealStatus.value) (d !! "status") (DealUpdate.status update) /\
    d' !! "buyer_id" = from_option (Some ∘ VStr) (d !! "buyer_id") (DealUpdate.buyer_id update) /\
    d' !! "buyer_name" =
      from_option (Some ∘ VStr) (d !! "buyer_name") (DealUpdate.buyer_name update) /\
    d' !! "closing_date" =
      from_option (Some ∘ VStr) (d !! "closing_date") (DealUpdate.closing_date update) /\
    d' !! "notes" = from_option (Some ∘ VStr) (d !! "notes") (DealUpdate.notes update) /\
    forall k, k <> "status" -> k <> "buyer_id" -> k <> "buyer_name" ->
              k <> "closing_date" -> k <> "notes" -> d' !! k = d !! k.
Proof.
  intros E H1 Hd Hs. apply find_one_None in H1.
  exists (DealUpdate.update_data update ∪ d). split.
  { by apply update_deal_at. }
  assert (Hl : forall k, (DealUpdate.update_data update ∪ d) !! k =
                 match DealUpdate.update_data update !! k with
                 | Some v => Some v
                 | None => d !! k
                 end).
  { intros k. rewrite lookup_union. destruct (DealUpdate.update_data update !! k), (d !! k); done. }
  unfold compose. repeat split.
  - rewrite Hl, update_data_status_field. by destruct (DealUpdate.status update).
  - rewrite Hl, update_data_buyer_id. by destruct (DealUpdate.buyer_id update).
  - rewrite Hl, update_data_buyer_name. by destruct (DealUpdate.buyer_name update).
  - rewrite Hl, update_data_closing_date. by destruct (DealUpdate.closing_date update).
  - rewrite Hl, update_data_notes. by destruct (DealUpdate.notes update).
  - intros k ? ? ? ? ?. by rewrite Hl, update_data_lookup.
Qed.

Lemma update_deal_effect_witness :
  exists d',
    update_deal "deal-1" close_request scenario_2_db =
      (Ok (Some d'), {| deals := [] ++ d' :: []; leads := leads scenario_2_db |}) /\
    d' !! "status" =
      from_option (Some ∘ VStr ∘ DealStatus.value) (scenario_2_doc !! "status")
        (DealUpdate.status close_request) /\
    d' !! "buyer_id" =
      from_option (Some ∘ VStr) (scenario_2_doc !! "buyer_id") (DealUpdate.buyer_id close_request) /\
    d' !! "buyer_name" =
      from_option (Some ∘ VStr) (scenario_2_doc !! "buyer_name")
        (DealUpdate.buyer_name close_request) /\
    d' !! "closing_date" =
      from_option (Some ∘ VStr) (scenario_2_doc !! "closing_date")
        (DealUpdate.closing_date close_request) /\
    d' !! "notes" =
      from_option (Some ∘ VStr) (scenario_2_doc !! "notes") (DealUpdate.notes close_request) /\
    forall k, k <> "status" -> k <> "buyer_id" -> k <> "buyer_name" ->
              k <> "closing_date" -> k <> "notes" -> d' !! k = scenario_2_doc !! k.
Proof.
  apply (update_deal_effect "deal-1" close_request scenario_2_db [] [] scenario_2_doc).
  - reflexivity.
  - constructor.
  - reflexivity.
  - apply (update_data_nonempty close_request DealStatus.CLOSED). reflexivity.
Defined.

(** X5: [update_deal] is idempotent: repeating a request on the database
    it left gives the same response and changes nothing more. *)
Theorem update_deal_idempotent (deal_id : string) (update : DealUpdate.t) (db : database) :
  let first := update_deal deal_id update db in
  update_deal deal_id update first.2 = first.
Proof.
  intros first. subst first.
  destruct (decide (DealUpdate.update_data update = ∅)) as [He|He].
  { assert (E0 : update_deal deal_id update db
                 = (Raise (HTTPException 400 "No update data provided"), db)).
    { unfold update_deal. by destruct (decide _). }
    rewrite E0. cbn [snd]. exact E0. }
  destruct (find_one (deals db) deal_id) as [d|] eqn:E.
  - apply find_one_Some in E as (l1 & l2 & E & H1 & Hd).
    rewrite (update_deal_at deal_id update db l1 l2 d) by done. cbn [snd].
    rewrite (update_deal_at deal_id update _ l1 l2 (DealUpdate.update_data update ∪ d)); try done.
    + cbn [leads]. by rewrite (assoc_L (∪)), (idemp_L (∪)).
    + rewrite lookup_union_r; [done|apply update_data_id].
  - assert (E1 : update_deal deal_id update db
                 = (Raise (HTTPException 404 "Deal not found"), db)).
    { unfold update_deal. destruct (decide _); [done|].
      rewrite update_one_unmatched by done. cbn [Nat.eqb]. by destruct db. }
    rewrite E1. cbn [snd]. exact E1.
Qed.

(** ** Lead routes *)

Lemma encodable_list_to_map (l : list (string * value)) :
  NoDup l.*1 ->
  encodable (list_to_map l) = forallb (fun kv => encodable_value kv.2) l.
Proof.
  intros Hnd. unfold encodable. apply eq_true_iff_eq.
  rewrite bool_decide_eq_true, map_Forall_to_list, forallb_forall.
  rewrite (map_to_list_to_map l Hnd), Forall_forall. split.
  - intros H [k v] Hin. apply (H (k, v)). by apply list_elem_of_In.
  - intros H [k v] Hin. apply (H (k, v)). by apply list_elem_of_In.
Qed.

Lemma encodable_opt_int (o : option Z) :
  encodable_value (opt VInt o) = from_option int64 true o.
Proof. by destruct o. Qed.

Lemma encodable_of_option (o : option string) : encodable_value (of_option o) = true.
Proof. by destruct o. Qed.

Lemma encodable_opt_float (o : option float) : encodable_value (opt VFloat o) = true.
Proof. by destruct o. Qed.

Lemma encodable_lead (l : Lead.t) :
  encodable (Lead.model_dump l) =
  int64 (Lead.motivation_score l) && from_option int64 true (Lead.bedrooms l) &&
  from_option int64 true (Lead.sqft l) && int64 (Lead.total_attempts l).
Proof.
  unfold Lead.model_dump. rewrite encodable_list_to_map.
  - cbn [forallb snd]. rewrite !encodable_opt_int, !encodable_of_option, !encodable_opt_float.
    cbn [encodable_value andb]. by rewrite ?andb_true_r, !andb_assoc.
  - apply (bool_decide_unpack _). vm_compute. reflexivity.
Qed.

Lemma create_lead_id lead_data new_id now db lead db' :
  create_lead lead_data new_id now db = (Ok lead, db') ->
  Lead.id lead = new_id /\ deals db' = deals db /\
  leads db' = leads db ++ [Lead.model_dump lead].
Proof.
  unfold create_lead. destruct (encodable _); [|done]. by intros [= <- <-].
Qed.

Lemma lead_dump_id (l : Lead.t) : Lead.model_dump l !! "id" = Some (VStr (Lead.id l)).
Proof. reflexivity. Qed.

(** X6: [create_lead] stores the lead when its ints fit 8 bytes, and then
    the lead starts in stage raw, callable, with no attempts, no agent
    and no last call, whatever the request says; otherwise the driver
    raises [OverflowError] and nothing is stored.  The deals are never
    touched. *)
Theorem create_lead_outcome (lead_data : LeadCreate.t) (new_id now : string)
    (db : database) :
  let r := create_lead lead_data new_id now db in
  if int64 (LeadCreate.motivation_score lead_data) &&
     from_option int64 true (LeadCreate.bedrooms lead_data) &&
     from_option int64 true (LeadCreate.sqft lead_data)
  then
    exists lead,
      r = (Ok lead, {| deals := deals db; leads := leads db ++ [Lead.model_dump lead] |}) /\
      Lead.id lead = new_id /\ Lead.created_at lead = now /\
      Lead.stage lead = LeadStage.RAW /\ Lead.do_not_call lead = false /\
      Lead.total_attempts lead = 0 /\ Lead.assigned_agent lead = None /\
      Lead.last_called_at lead = None /\ Lead.has_mortgage lead = true /\
      Lead.mortgage_balance lead = None
  else r = (Raise OverflowError, db).
Proof.
  intros r. subst r. unfold create_lead. rewrite encodable_lead. cbn [Lead.motivation_score
    Lead.bedrooms Lead.sqft Lead.total_attempts].
  change (int64 0) with true. rewrite andb_true_r.
  destruct (_ && _ && _); [|done]. eexists. split; [reflexivity|]. by repeat split.
Qed.

(** X7: a created lead can be read back under its id, unless an older
    lead already has that id, which then keeps answering; reads under
    every other id are as before. *)
Theorem get_lead_after_create (lead_data : LeadCreate.t) (new_id now : string)
    (db db' : database) (lead : Lead.t) :
  create_lead lead_data new_id now db = (Ok lead, db') ->
  get_lead new_id db' =
    match get_lead new_id db with
    | Ok older => Ok older
    | Raise _ => Ok (Lead.model_dump lead)
    end /\
  forall lead_id, lead_id <> new_id -> get_lead lead_id db' = get_lead lead_id db.
Proof.
  intros H. apply create_lead_id in H as (Hid & _ & Hl).
  unfold get_lead. rewrite !found_find_one, Hl.
  assert (Hd : Lead.model_dump lead !! "id" = Some (VStr new_id))
    by (by rewrite lead_dump_id, Hid).
  set (doc := Lead.model_dump lead) in *. clearbody doc. split.
  - rewrite find_one_app. destruct (find_one (leads db) new_id) as [d|] eqn:E; [done|].
    cbn [find_one]. by rewrite (proj2 (matches_id_true new_id doc) Hd).
  - intros lead_id Hne. rewrite ?found_find_one, find_one_app.
    destruct (find_one (leads db) lead_id) as [d|] eqn:E; [done|].
    cbn [find_one]. rewrite (proj2 (matches_id_false lead_id doc)); [done|]. congruence.
Qed.

Lemma get_lead_after_create_witness :
  get_lead "lead-1" lead_db =
    match get_lead "lead-1" empty_db with
    | Ok older => Ok older
    | Raise _ => Ok (Lead.model_dump first_lead)
    end /\
  forall lead_id, lead_id <> "lead-1" -> get_lead lead_id lead_db = get_lead lead_id empty_db.
Proof.
  apply (get_lead_after_create first_lead_request "lead-1" "2026-01-01T00:00:00+00:00"
           empty_db lead_db first_lead).
  vm_compute. reflexivity.
Defined.

(** X8: [delete_lead] removes the first stored lead that has the id and
    nothing else (later leads of the same id and all deals stay); when no
    lead has the id it raises 404 and changes nothing. *)
Theorem delete_lead_first_match (lead_id : string) (db : database) :
  match delete_lead lead_id db with
  | (Ok message, db') =>
      message = {[ "message" := "Lead deleted" ]} /\ deals db' = deals db /\
      exists before lead after,
        leads db = before ++ lead :: after /\ leads db' = before ++ after /\
        lead !! "id" = Some (VStr lead_id) /\
        Forall (fun d => d !! "id" <> Some (VStr lead_id)) before
  | (Raise e, db') =>
      e = HTTPException 404 "Lead not found" /\ db' = db /\
      Forall (fun d => d !! "id" <> Some (VStr lead_id)) (leads db)
  end.
Proof.
  unfold delete_lead. destruct (find_one (leads db) lead_id) as [d|] eqn:E.
  - apply find_one_Some in E as (l1 & l2 & E & H1 & Hd).
    rewrite E, delete_one_at by done. cbn [Nat.eqb].
    split; [done|]. split; [done|]. exists l1, d, l2. cbn [leads].
    repeat split; try done. by apply find_one_None.
  - rewrite delete_one_unmatched by done. cbn [Nat.eqb].
    split; [done|]. split; [by destruct db|]. by apply find_one_None.
Qed.

(** X9: deleting a lead just created under a fresh id restores the
    database. *)
Theorem delete_lead_created (lead_data : LeadCreate.t) (new_id now : string)
    (db db' : database) (lead : Lead.t) :
  Forall (fun d => d !! "id" <> Some (VStr new_id)) (leads db) ->
  create_lead lead_data new_id now db = (Ok lead, db') ->
  delete_lead new_id db' = (Ok {[ "message" := "Lead deleted" ]}, db).
Proof.
  intros Hfresh H. apply create_lead_id in H as (Hid & Hdeals & Hl).
  unfold delete_lead. rewrite Hl.
  change (leads db ++ [Lead.model_dump lead]) with (leads db ++ Lead.model_dump lead :: []).
  rewrite delete_one_at.
  - cbn [Nat.eqb]. rewrite app_nil_r, Hdeals. by destruct db.
  - by apply find_one_None.
  - by rewrite lead_dump_id, Hid.
Qed.

Lemma delete_lead_created_witness :
  delete_lead "lead-1" lead_db = (Ok {[ "message" := "Lead deleted" ]}, empty_db).
Proof.
  apply (delete_lead_created first_lead_request "lead-1" "2026-01-01T00:00:00+00:00"
           empty_db lead_db first_lead).
  - constructor.
  - vm_compute. reflexivity.
Defined.

(** X10: the lead of a new deal moves to stage deal: a lead created
    under a fresh id and then named by [create_deal] reads back as it was
    stored but for its stage, which is [deal]. *)
Theorem lead_stage_after_deal (lead_data : LeadCreate.t) (deal_data : DealCreate.t)
    (lead_id deal_id now now' : string) (db db' : database) (lead : Lead.t) :
  Forall (fun d => d !! "id" <> Some (VStr lead_id)) (leads db) ->
  create_lead lead_data lead_id now db = (Ok lead, db') ->
  DealCreate.lead_id deal_data = lead_id ->
  get_lead lead_id (create_deal deal_data deal_id now' db').2 =
  Ok (<[ "stage" := VStr "deal" ]> (Lead.model_dump lead)).
Proof.
  intros Hfresh H Hl. apply create_lead_id in H as (Hid & Hdeals & Hleads).
  apply find_one_None in Hfresh.
  unfold get_lead. rewrite found_find_one, create_deal_leads, Hl, Hleads.
  change (leads db ++ [Lead.model_dump lead]) with (leads db ++ Lead.model_dump lead :: []).
  assert (Hd : Lead.model_dump lead !! "id" = Some (VStr lead_id))
    by (by rewrite lead_dump_id, Hid).
  set (doc := Lead.model_dump lead) in *. clearbody doc.
  rewrite update_one_at by done. cbn [fst].
  rewrite find_one_updated by done. by rewrite set_stage_eq.
Qed.

Lemma lead_stage_after_deal_witness :
  get_lead "lead-1"
    (create_deal first_deal_request "deal-1" "2026-01-02T00:00:00+00:00" lead_db).2 =
  Ok (<[ "stage" := VStr "deal" ]> (Lead.model_dump first_lead)).
Proof.
  apply (lead_stage_after_deal first_lead_request first_deal_request "lead-1" "deal-1"
           "2026-01-01T00:00:00+00:00" "2026-01-02T00:00:00+00:00" empty_db lead_db first_lead).
  - constructor.
  - vm_compute. reflexivity.
  - reflexivity.
Defined.

Lemma encodable_true (d : document) :
  encodable d = true <-> forall k z, d !! k = Some (VInt z) -> int64 z = true.
Proof.
  unfold encodable. rewrite bool_decide_eq_true. unfold map_Forall. split.
  - intros H k z Hk. apply (H k (VInt z) Hk).
  - intros H k [| |z| |] Hk; try done. by apply (H k z).
Qed.

Lemma lead_update_empty (u : LeadUpdate.t) :
  LeadUpdate.update_data u = ∅ <->
  LeadUpdate.stage u = None /\ LeadUpdate.motivation_score u = None /\
  LeadUpdate.asking_price u = None /\ LeadUpdate.assigned_agent u = None /\
  LeadUpdate.do_not_call u = None /\ LeadUpdate.notes u = None /\
  LeadUpdate.total_attempts u = None /\ LeadUpdate.last_called_at u = None.
Proof.
  unfold LeadUpdate.update_data. rewrite !set_field_empty, !fmap_None. tauto.
Qed.

Lemma set_field_lookup_ne (k k' : string) (o : option value) (m : document) :
  k <> k' -> DealUpdate.set_field k o m !! k' = m !! k'.
Proof. intros H. rewrite set_field_lookup. by destruct (decide (k = k')). Qed.

Lemma set_field_lookup_eq (k : string) (o : option value) (m : document) :
  m !! k = None -> DealUpdate.set_field k o m !! k = o.
Proof.
  intros H. rewrite set_field_lookup. destruct (decide (k = k)); [|done]. by destruct o.
Qed.

Ltac solve_lookup :=
  rewrite ?set_field_lookup_ne by done;
  first [ apply lookup_empty
        | rewrite set_field_lookup_eq;
          [reflexivity | rewrite ?set_field_lookup_ne by done; apply lookup_empty] ].

Lemma lead_update_lookup (u : LeadUpdate.t) (k : string) :
  LeadUpdate.update_data u !! k =
  if decide (k = "stage") then VStr ∘ LeadStage.value <$> LeadUpdate.stage u
  else if decide (k = "motivation_score") then VInt <$> LeadUpdate.motivation_score u
  else if decide (k = "asking_price") then VFloat <$> LeadUpdate.asking_price u
  else if decide (k = "assigned_agent") then VStr <$> LeadUpdate.assigned_agent u
  else if decide (k = "do_not_call") then VBool <$> LeadUpdate.do_not_call u
  else if decide (k = "notes") then VStr <$> LeadUpdate.notes u
  else if decide (k = "total_attempts") then VInt <$> LeadUpdate.total_attempts u
  else if decide (k = "last_called_at") then VStr <$> LeadUpdate.last_called_at u
  else None.
Proof.
  unfold LeadUpdate.update_data.
  destruct (decide (k = "stage")) as [->|?]; [solve_lookup|].
  destruct (decide (k = "motivation_score")) as [->|?]; [solve_lookup|].
  destruct (decide (k = "asking_price")) as [->|?]; [solve_lookup|].
  destruct (decide (k = "assigned_agent")) as [->|?]; [solve_lookup|].
  destruct (decide (k = "do_not_call")) as [->|?]; [solve_lookup|].
  destruct (decide (k = "notes")) as [->|?]; [solve_lookup|].
  destruct (decide (k = "total_attempts")) as [->|?]; [solve_lookup|].
  destruct (decide (k = "last_called_at")) as [->|?]; [solve_lookup|].
  solve_lookup.
Qed.

Lemma encodable_lead_update (u : LeadUpdate.t) :
  encodable (LeadUpdate.update_data u) =
  from_option int64 true (LeadUpdate.motivation_score u) &&
  from_option int64 true (LeadUpdate.total_attempts u).
Proof.
  apply eq_true_iff_eq. rewrite encodable_true, andb_true_iff. split.
  - intros H. split.
    + destruct (LeadUpdate.motivation_score u) as [z|] eqn:E; [|done].
      apply (H "motivation_score" z). rewrite lead_update_lookup, E. reflexivity.
    + destruct (LeadUpdate.total_attempts u) as [z|] eqn:E; [|done].
      apply (H "total_attempts" z). rewrite lead_update_lookup, E. reflexivity.
  - intros [H1 H2] k z. rewrite lead_update_lookup.
    repeat (destruct (decide (k = _)) as [->|?]); try done.
    + by destruct (LeadUpdate.stage u).
    + destruct (LeadUpdate.motivation_score u); [|done]. by intros [= <-].
    + by destruct (LeadUpdate.asking_price u).
    + by destruct (LeadUpdate.assigned_agent u).
    + by destruct (LeadUpdate.do_not_call u).
    + by destruct (LeadUpdate.notes u).
    + destruct (LeadUpdate.total_attempts u); [|done]. by intros [= <-].
    + by destruct (LeadUpdate.last_called_at u).
Qed.

Lemma lead_update_id (u : LeadUpdate.t) : LeadUpdate.update_data u !! "id" = None.
Proof. by rewrite lead_update_lookup. Qed.

Lemma update_lead_at (lead_id : string) (update : LeadUpdate.t) (db : database)
    (before after : list document) (d : document) :
  leads db = before ++ d :: after ->
  find_one before lead_id = None ->
  d !! "id" = Some (VStr lead_id) ->
  LeadUpdate.update_data update <> ∅ ->
  encodable (LeadUpdate.update_data update) = true ->
  update_lead lead_id update db =
  (Ok (Some (LeadUpdate.update_data update ∪ d)),
   {| deals := deals db; leads := before ++ (LeadUpdate.update_data update ∪ d) :: after |}).
Proof.
  intros E H1 Hd Hne Henc. unfold update_lead.
  destruct (decide (LeadUpdate.update_data update = ∅)) as [He|_]; [done|].
  rewrite Henc. cbn [negb]. rewrite E, update_one_at by done. cbn [Nat.eqb].
  by rewrite find_one_updated by (done || apply lead_update_id).
Qed.

(** X11: [update_lead] refuses an update that names no field with 400;
    one that names a field but carries an int beyond 8 bytes with
    [OverflowError]; one that passes both and finds no lead of the id
    with 404.  A refused request leaves the database as it was. *)
Theorem update_lead_refusals (lead_id : string) (update : LeadUpdate.t) (db : database) :
  let no_field :=
    LeadUpdate.stage update = None /\ LeadUpdate.motivation_score update = None /\
    LeadUpdate.asking_price update = None /\ LeadUpdate.assigned_agent update = None /\
    LeadUpdate.do_not_call update = None /\ LeadUpdate.notes update = None /\
    LeadUpdate.total_attempts update = None /\ LeadUpdate.last_called_at update = None in
  let fits :=
    from_option int64 true (LeadUpdate.motivation_score update) &&
    from_option int64 true (LeadUpdate.total_attempts update) in
  let no_lead := Forall (fun d => d !! "id" <> Some (VStr lead_id)) (leads db) in
  let r := update_lead lead_id update db in
  (no_field -> r = (Raise (HTTPException 400 "No update data provided"), db)) /\
  (~ no_field -> fits = false -> r = (Raise OverflowError, db)) /\
  (~ no_field -> fits = true -> no_lead ->
   r = (Raise (HTTPException 404 "Lead not found"), db)) /\
  (forall e, r.1 = Raise e -> r.2 = db).
Proof.
  intros no_field fits no_lead r. subst r fits.
  assert (HE : LeadUpdate.update_data update = ∅ <-> no_field) by apply lead_update_empty.
  assert (HN : find_one (leads db) lead_id = None <-> no_lead) by apply find_one_None.
  clearbody no_field no_lead. rewrite <- encodable_lead_update. unfold update_lead.
  destruct (decide (LeadUpdate.update_data update = ∅)) as [He|He].
  { split; [done|]. split; [tauto|]. split; [tauto|]. done. }
  destruct (encodable (LeadUpdate.update_data update)); cbn [negb].
  2: { split; [tauto|]. split; [done|]. split; [done|]. done. }
  destruct (find_one (leads db) lead_id) as [d|] eqn:E.
  - apply find_one_Some in E as (l1 & l2 & E & H1 & Hd).
    rewrite E, update_one_at by done. cbn [fst snd Nat.eqb].
    split; [tauto|]. split; [done|]. split; [|done].
    intros _ _ Hno. apply HN in Hno. discriminate.
  - rewrite update_one_unmatched by done. cbn [fst snd Nat.eqb].
    assert (Hdb : {| deals := deals db; leads := leads db |} = db) by (by destruct db).
    rewrite Hdb. split; [tauto|]. split; [done|]. done.
Qed.

(** X12: an accepted [update_lead] rewrites the first stored lead that
    has the id, and only it: each of the eight fields the update names
    takes the new value, a [0] or a [False] included, every other field
    keeps its value, the other leads and the deals are as before, and the
    response is the rewritten document. *)
Theorem update_lead_effect (lead_id : string) (update : LeadUpdate.t) (db : database)
    (before after : list document) (d : document) :
  leads db = before ++ d :: after ->
  Forall (fun x => x !! "id" <> Some (VStr lead_id)) before ->
  d !! "id" = Some (VStr lead_id) ->
  LeadUpdate.update_data update <> ∅ ->
  from_option int64 true (LeadUpdate.motivation_score update) &&
  from_option int64 true (LeadUpdate.total_attempts update) = true ->
  exists d',
    update_lead lead_id update db =
      (Ok (Some d'), {| deals := deals db; leads := before ++ d' :: after |}) /\
    d' !! "stage" =
      from_option (Some ∘ VStr ∘ LeadStage.value) (d !! "stage") (LeadUpdate.stage update) /\
    d' !! "motivation_score" =
      from_option (Some ∘ VInt) (d !! "motivation_score") (LeadUpdate.motivation_score update) /\
    d' !! "asking_price" =
      from_option (Some ∘ VFloat) (d !! "asking_price") (LeadUpdate.asking_price update) /\
    d' !! "assigned_agent" =
      from_option (Some ∘ VStr) (d !! "assigned_agent") (LeadUpdate.assigned_agent update) /\
    d' !! "do_not_call" =
      from_option (Some ∘ VBool) (d !! "do_not_call") (LeadUpdate.do_not_call update) /\
    d' !! "notes" = from_option (Some ∘ VStr) (d !! "notes") (LeadUpdate.notes update) /\
    d' !! "total_attempts" =
      from_option (Some ∘ VInt) (d !! "total_attempts") (LeadUpdate.total_attempts update) /\
    d' !! "last_called_at" =
      from_option (Some ∘ VStr) (d !! "last_called_at") (LeadUpdate.last_called_at update) /\
    forall k, k <> "stage" -> k <> "motivation_score" -> k <> "asking_price" ->
              k <> "assigned_agent" -> k <> "do_not_call" -> k <> "notes" ->
              k <> "total_attempts" -> k <> "last_called_at" -> d' !! k = d !! k.
Proof.
  intros E H1 Hd Hne Hfits. apply find_one_None in H1.
  rewrite <- encodable_lead_update in Hfits.
  exists (LeadUpdate.update_data update ∪ d). split; [by apply update_lead_at|].
  assert (Hl : forall k, (LeadUpdate.update_data update ∪ d) !! k =
                 match LeadUpdate.update_data update !! k with
                 | Some v => Some v
                 | None => d !! k
                 end).
  { intros k. rewrite lookup_union. destruct (LeadUpdate.update_data update !! k), (d !! k); done. }
  unfold compose. repeat split.
  - rewrite Hl, lead_update_lookup. by destruct (LeadUpdate.stage update).
  - rewrite Hl, lead_update_lookup. by destruct (LeadUpdate.motivation_score update).
  - rewrite Hl, lead_update_lookup. by destruct (LeadUpdate.asking_price update).
  - rewrite Hl, lead_update_lookup. by destruct (LeadUpdate.assigned_agent update).
  - rewrite Hl, lead_update_lookup. by destruct (LeadUpdate.do_not_call update).
  - rewrite Hl, lead_update_lookup. by destruct (LeadUpdate.notes update).
  - rewrite Hl, lead_update_lookup. by destruct (LeadUpdate.total_attempts update).
  - rewrite Hl, lead_update_lookup. by destruct (LeadUpdate.last_called_at update).
  - intros k ? ? ? ? ? ? ? ?. rewrite Hl, lead_update_lookup.
    by repeat (destruct (decide (k = _)); [done|]).
Qed.

Lemma update_lead_effect_witness :
  exists d',
    update_lead "lead-1" no_answer_update lead_db =
      (Ok (Some d'), {| deals := deals lead_db; leads := [] ++ d' :: [] |}) /\
    d' !! "stage" =
      from_option (Some ∘ VStr ∘ LeadStage.value) (Lead.model_dump first_lead !! "stage")
        (LeadUpdate.stage no_answer_update) /\
    d' !! "motivation_score" =
      from_option (Some ∘ VInt) (Lead.model_dump first_lead !! "motivation_score")
        (LeadUpdate.motivation_score no_answer_update) /\
    d' !! "asking_price" =
      from_option (Some ∘ VFloat) (Lead.model_dump first_lead !! "asking_price")
        (LeadUpdate.asking_price no_answer_update) /\
    d' !! "assigned_agent" =
      from_option (Some ∘ VStr) (Lead.model_dump first_lead !! "assigned_agent")
        (LeadUpdate.assigned_agent no_answer_update) /\
    d' !! "do_not_call" =
      from_option (Some ∘ VBool) (Lead.model_dump first_lead !! "do_not_call")
        (LeadUpdate.do_not_call no_answer_update) /\
    d' !! "notes" =
      from_option (Some ∘ VStr) (Lead.model_dump first_lead !! "notes")
        (LeadUpdate.notes no_answer_update) /\
    d' !! "total_attempts" =
      from_option (Some ∘ VInt) (Lead.model_dump first_lead !! "total_attempts")
        (LeadUpdate.total_attempts no_answer_update) /\
    d' !! "last_called_at" =
      from_option (Some ∘ VStr) (Lead.model_dump first_lead !! "last_called_at")
        (LeadUpdate.last_called_at no_answer_update) /\
    forall k, k <> "stage" -> k <> "motivation_score" -> k <> "asking_price" ->
              k <> "assigned_agent" -> k <> "do_not_call" -> k <> "notes" ->
              k <> "total_attempts" -> k <> "last_called_at" ->
              d' !! k = Lead.model_dump first_lead !! k.
Proof.
  apply (update_lead_effect "lead-1" no_answer_update lead_db [] []
           (Lead.model_dump first_lead)).
  - reflexivity.
  - constructor.
  - reflexivity.
  - intros H. apply (f_equal (fun m : document => m !! "stage")) in H.
    vm_compute in H. discriminate.
  - reflexivity.
Defined.

Lemma consistent_created deal_data new_id now db :
  consistent (Deal.model_dump (create_deal deal_data new_id now db).1).
Proof.
  exists (DealCreate.arv deal_data), (DealCreate.contract_price deal_data),
    (DealCreate.rehab_estimate deal_data), (DealCreate.assignment_fee deal_data).
  rewrite model_dump_mao, model_dump_profit, create_deal_mao, create_deal_profit.
  by repeat split.
Qed.

Lemma consistent_frame (fields d : document) :
  (forall k, fields !! k = None -> (fields ∪ d) !! k = d !! k) ->
  fields !! "arv" = None -> fields !! "contract_price" = None ->
  fields !! "rehab_estimate" = None -> fields !! "assignment_fee" = None ->
  fields !! "max_allowable_offer" = None -> fields !! "profit_estimate" = None ->
  consistent d -> consistent (fields ∪ d).
Proof.
  intros H ? ? ? ? ? ? (a & c & r & f & ? & ? & ? & ? & ? & ?).
  exists a, c, r, f. rewrite !H by done. by repeat split.
Qed.

Lemma update_deal_deals deal_id update db :
  deals (update_deal deal_id update db).2 = deals db \/
  exists before d after,
    deals db = before ++ d :: after /\
    deals (update_deal deal_id update db).2 =
      before ++ (DealUpdate.update_data update ∪ d) :: after.
Proof.
  destruct (decide (DealUpdate.update_data update = ∅)) as [He|He].
  { left. unfold update_deal. by destruct (decide _). }
  destruct (find_one (deals db) deal_id) as [d|] eqn:E.
  - apply find_one_Some in E as (l1 & l2 & E & H1 & Hd). right. exists l1, d, l2.
    split; [done|]. by rewrite (update_deal_at deal_id update db l1 l2 d).
  - left. unfold update_deal. destruct (decide _); [done|].
    rewrite update_one_unmatched by done. by cbn [Nat.eqb].
Qed.

Lemma serve_deals (db : database) (r : request) :
  Forall consistent (deals db) -> Forall consistent (deals (serve db r)).
Proof.
  intros H. destruct r as [dd id now|id u|ld id now|id u|id]; cbn [serve].
  - rewrite create_deal_deals. apply Forall_app. split; [done|].
    constructor; [apply consistent_created|constructor].
  - destruct (update_deal_deals id u db) as [->|(l1 & d & l2 & E & ->)]; [done|].
    rewrite E in H. apply Forall_app in H as [H1 H2]. inversion H2; subst.
    apply Forall_app. split; [done|]. constructor; [|done].
    apply consistent_frame; try (by apply update_data_lookup); [|done].
    intros k Hk. by apply set_lookup_None.
  - unfold create_lead. by destruct (encodable _).
  - unfold update_lead. destruct (decide _); [done|].
    destruct (negb _); [done|].
    destruct (update_one _ _ _) as [l m]. by destruct (m =? 0)%nat.
  - unfold delete_lead. destruct (delete_one _ _) as [l m]. by destruct (m =? 0)%nat.
Qed.

(** X13: the deals stay consistent: if the two derived fields of every
    stored deal are the formulas of its stored inputs, they still are
    after any sequence of requests to the routes that write deals or
    leads, accepted or refused. *)
Theorem deals_stay_consistent (requests : list request) (db : database) :
  Forall consistent (deals db) ->
  Forall consistent (deals (foldl serve db requests)).
Proof.
  revert db. induction requests as [|r requests IH]; intros db H; [done|].
  cbn [foldl]. apply IH. by apply serve_deals.
Qed.

Lemma deals_stay_consistent_witness :
  Forall consistent
    (deals (foldl serve empty_db
              [ CreateLead first_lead_request "lead-1" "2026-01-01T00:00:00+00:00";
                CreateDeal first_deal_request "deal-1" "2026-01-02T00:00:00+00:00";
                UpdateDeal "deal-1" close_request;
                DeleteLead "lead-1" ])).
Proof.
  apply (deals_stay_consistent
           [ CreateLead first_lead_request "lead-1" "2026-01-01T00:00:00+00:00";
             CreateDeal first_deal_request "deal-1" "2026-01-02T00:00:00+00:00";
             UpdateDeal "deal-1" close_request;
             DeleteLead "lead-1" ] empty_db).
  constructor.
Defined.

(** ** Agent routes *)

Lemma foldl_snoc {A B} (f : A -> B) (l0 : list B) (l : list A) :
  foldl (fun coll a => coll ++ [f a]) l0 l = l0 ++ (f <$> l).
Proof.
  revert l0. induction l as [|a l IH]; intros l0; cbn [foldl fmap list_fmap].
  - by rewrite app_nil_r.
  - rewrite IH. by rewrite <- app_assoc.
Qed.

Lemma get_agents_nonempty (st : store) :
  agents st <> [] -> get_agents st = (Return (take 100 (agents st)), st).
Proof.
  intros H. unfold get_agents. destruct (agents st) as [|a l]; [done|]. reflexivity.
Qed.

(** X14: [get_agents] never returns an empty list and never more than a
    hundred agents: a non-empty collection is returned as it is, cut
    after the hundredth agent, and left alone; an empty one is first
    filled with the eleven seed agents.  A second call returns the same
    and writes nothing. *)
Theorem get_agents_seeds_once (st : store) :
  exists found st',
    get_agents st = (Return found, st') /\
    found <> [] /\ (length found <= 100)%nat /\
    base st' = base st /\ buyers st' = buyers st /\ call_logs st' = call_logs st /\
    (agents st <> [] -> st' = st /\ found = take 100 (agents st)) /\
    (agents st = [] ->
     found = Agent.model_dump <$> AGENTS_SEED /\ agents st' = found /\
     length found = 11%nat) /\
    get_agents st' = (Return found, st').
Proof.
  destruct (agents st) as [|a l] eqn:E.
  - exists (Agent.model_dump <$> AGENTS_SEED),
      (with_agents (Agent.model_dump <$> AGENTS_SEED) st).
    assert (Hlen : length (Agent.model_dump <$> AGENTS_SEED) = 11%nat)
      by (by rewrite length_fmap).
    assert (Htake : take 100 (Agent.model_dump <$> AGENTS_SEED)
                    = Agent.model_dump <$> AGENTS_SEED)
      by (apply take_ge; lia).
    assert (Hne : Agent.model_dump <$> AGENTS_SEED <> []).
    { intros H0. rewrite H0 in Hlen. done. }
    split.
    { unfold get_agents. rewrite E. cbn [take]. rewrite foldl_snoc. cbn [app].
      by rewrite Htake. }
    split; [done|]. split; [lia|]. split; [done|]. split; [done|]. split; [done|].
    split; [done|]. split; [done|].
    rewrite get_agents_nonempty by done. cbn [agents with_agents]. by rewrite Htake.
  - exists (take 100 (a :: l)), st.
    assert (Hget : get_agents st = (Return (take 100 (a :: l)), st)).
    { rewrite <- E. apply get_agents_nonempty. by rewrite E. }
    split; [done|]. split; [done|]. split; [rewrite length_take; lia|].
    split; [done|]. split; [done|]. split; [done|]. split; [done|]. split; [done|]. done.
Qed.

Lemma with_agents_same (st : store) : with_agents (agents st) st = st.
Proof. by destruct st. Qed.

Lemma with_leads_same (st : store) : with_leads (leads (base st)) st = st.
Proof. by destruct st as [[? ?] ? ? ?]. Qed.

Lemma update_agents_unmatched (id : string) (f : record -> reply record) (st : store) :
  Forall (fun a => matches_record id a = false) (agents st) ->
  update_agents id f st = (Return 0%nat, st).
Proof.
  intros H. unfold update_agents. rewrite update_first_unmatched by done.
  by rewrite with_agents_same.
Qed.

Lemma update_agents_at (id : string) (f : record -> reply record) (st : store)
    (before after : list record) (a : record) :
  agents st = before ++ a :: after ->
  Forall (fun x => matches_record id x = false) before ->
  matches_record id a = true ->
  update_agents id f st =
  match f a with
  | Return a' => (Return 1%nat, with_agents (before ++ a' :: after) st)
  | Fail e => (Fail e, st)
  end.
Proof.
  intros E H1 Ha. unfold update_agents. rewrite E, update_first_at by done.
  by destruct (f a).
Qed.

Lemma update_leads_unmatched (id : string) (f : document -> reply document) (st : store) :
  find_one (leads (base st)) id = None ->
  update_leads id f st = (Return 0%nat, st).
Proof.
  intros H. unfold update_leads. rewrite update_first_unmatched.
  - by rewrite with_leads_same.
  - by rewrite <- find_first_None, <- find_one_first.
Qed.

Lemma update_leads_at (id : string) (f : document -> reply document) (st : store)
    (before after : list document) (d : document) :
  leads (base st) = before ++ d :: after ->
  find_one before id = None ->
  d !! "id" = Some (VStr id) ->
  update_leads id f st =
  match f d with
  | Return d' => (Return 1%nat, with_leads (before ++ d' :: after) st)
  | Fail e => (Fail e, st)
  end.
Proof.
  intros E H1 Hd. unfold update_leads. rewrite E, update_first_at.
  - by destruct (f d).
  - by rewrite <- find_first_None, <- find_one_first.
  - by apply matches_id_true.
Qed.

Lemma set_record_singleton (k : string) (b : bson) (a : record) :
  set_record {[ k := b ]} a = Return (<[ k := b ]> a).
Proof. unfold set_record. by rewrite insert_union_singleton_l. Qed.

Lemma matches_record_insert (id k : string) (b : bson) (a : record) :
  k <> "id" -> matches_record id (<[ k := b ]> a) = matches_record id a.
Proof. intros H. unfold matches_record. by rewrite lookup_insert_ne. Qed.

(** X15: [reset_agent_daily_calls] sets [calls_today] of the first
    stored agent that has the id to [0] and changes nothing else, the
    total of calls included; when no agent has the id it raises 404 and
    changes nothing.  The agent is then read back with the counter at
    [0]. *)
Theorem reset_agent_daily_calls_effect (agent_id : string) (st : store) :
  match reset_agent_daily_calls agent_id st with
  | (Return message, st') =>
      message = {[ "message" := "Daily calls reset" ]} /\
      base st' = base st /\ buyers st' = buyers st /\ call_logs st' = call_logs st /\
      exists before a after,
        agents st = before ++ a :: after /\
        Forall (fun x => matches_record agent_id x = false) before /\
        matches_record agent_id a = true /\
        agents st' = before ++ <[ "calls_today" := Scalar (VInt 0) ]> a :: after /\
        get_agent agent_id st' = (Return (<[ "calls_today" := Scalar (VInt 0) ]> a), st')
  | (Fail f, st') =>
      f = Exn (HTTPException 404 "Agent not found") /\ st' = st /\
      Forall (fun x => matches_record agent_id x = false) (agents st)
  end.
Proof.
  unfold reset_agent_daily_calls, and_then.
  destruct (find_first (matches_record agent_id) (agents st)) as [a|] eqn:E.
  - apply find_first_Some in E as (l1 & l2 & E & H1 & Ha).
    rewrite (update_agents_at _ _ st l1 l2 a) by done.
    rewrite set_record_singleton. cbn [Nat.eqb ret].
    split; [done|]. split; [done|]. split; [done|]. split; [done|].
    exists l1, a, l2. repeat split; try done.
    unfold get_agent. cbn [agents with_agents].
    rewrite find_first_skip by done. cbn [find_first].
    rewrite matches_record_insert, Ha by done. unfold found_record.
    destruct (decide _) as [He|_]; [|done].
    by apply insert_non_empty in He.
  - apply find_first_None in E. rewrite update_agents_unmatched by done.
    cbn [Nat.eqb throw]. by repeat split.
Qed.

Lemma agent_update_lookup (u : AgentUpdate.t) (k : string) :
  AgentUpdate.update_data u !! k =
  if decide (k = "status") then Scalar ∘ VStr ∘ AgentStatus.value <$> AgentUpdate.status u
  else if decide (k = "calls_today") then Scalar ∘ VInt <$> AgentUpdate.calls_today u
  else None.
Proof.
  unfold AgentUpdate.update_data, AgentUpdate.set_field.
  destruct u as [[s|] [c|]]; cbn [AgentUpdate.status AgentUpdate.calls_today fmap option_fmap
    option_map]; repeat (destruct (decide (k = _)) as [->|?]);
    rewrite ?lookup_insert_eq, ?lookup_insert_ne, ?lookup_empty by done;
    rewrite ?lookup_insert_eq, ?lookup_insert_ne, ?lookup_empty by done; done.
Qed.

Lemma agent_update_empty (u : AgentUpdate.t) :
  AgentUpdate.update_data u = ∅ <->
  AgentUpdate.status u = None /\ AgentUpdate.calls_today u = None.
Proof.
  split.
  - intros H. split.
    + assert (H1 := agent_update_lookup u "status"). rewrite H, lookup_empty in H1.
      by destruct (AgentUpdate.status u).
    + assert (H1 := agent_update_lookup u "calls_today"). rewrite H, lookup_empty in H1.
      by destruct (AgentUpdate.calls_today u).
  - intros [H1 H2]. apply map_eq. intros k. rewrite agent_update_lookup, H1, H2, lookup_empty.
    by repeat destruct (decide _).
Qed.

Lemma encodable_agent_update (u : AgentUpdate.t) :
  encodable_record (AgentUpdate.update_data u) =
  from_option int64 true (AgentUpdate.calls_today u).
Proof.
  apply eq_true_iff_eq. unfold encodable_record.
  rewrite bool_decide_eq_true. unfold map_Forall. split.
  - intros H. destruct (AgentUpdate.calls_today u) as [z|] eqn:E; [|done].
    apply (H "calls_today" (Scalar (VInt z))). by rewrite agent_update_lookup, E.
  - intros H k b. rewrite agent_update_lookup.
    repeat (destruct (decide (k = _)) as [->|?]); try done.
    + destruct (AgentUpdate.status u); [|done]. by intros [= <-].
    + destruct (AgentUpdate.calls_today u); [|done]. by intros [= <-].
Qed.

(** X16: [update_agent] refuses an update that names no field with 400,
    one whose [calls_today] is beyond 8 bytes with [OverflowError], and
    one for an id that no agent has with 404, leaving the store as it
    was; otherwise the first agent that has the id gets the fields the
    update names, a [calls_today] of [0] included, keeps every other
    field, and is the response. *)
Theorem update_agent_outcome (agent_id : string) (update : AgentUpdate.t) (st : store) :
  let no_field := AgentUpdate.status update = None /\ AgentUpdate.calls_today update = None in
  let fits := from_option int64 true (AgentUpdate.calls_today update) in
  let r := update_agent agent_id update st in
  (no_field -> r = (Fail (Exn (HTTPException 400 "No update data provided")), st)) /\
  (~ no_field -> fits = false -> r = (Fail (Exn OverflowError), st)) /\
  (~ no_field -> fits = true ->
   Forall (fun x => matches_record agent_id x = false) (agents st) ->
   r = (Fail (Exn (HTTPException 404 "Agent not found")), st)) /\
  (~ no_field -> fits = true ->
   forall before a after,
     agents st = before ++ a :: after ->
     Forall (fun x => matches_record agent_id x = false) before ->
     matches_record agent_id a = true ->
     exists a',
       r = (Return (Some a'), with_agents (before ++ a' :: after) st) /\
       a' !! "status" =
         from_option (Some ∘ Scalar ∘ VStr ∘ AgentStatus.value) (a !! "status")
           (AgentUpdate.status update) /\
       a' !! "calls_today" =
         from_option (Some ∘ Scalar ∘ VInt) (a !! "calls_today")
           (AgentUpdate.calls_today update) /\
       forall k, k <> "status" -> k <> "calls_today" -> a' !! k = a !! k).
Proof.
  intros no_field fits r. subst r fits.
  assert (HE : AgentUpdate.update_data update = ∅ <-> no_field) by apply agent_update_empty.
  clearbody no_field. rewrite <- encodable_agent_update. unfold update_agent.
  destruct (decide (AgentUpdate.update_data update = ∅)) as [He|He].
  { split; [done|]. split; [tauto|]. split; [tauto|]. tauto. }
  destruct (encodable_record (AgentUpdate.update_data update)); cbn [negb].
  2: { split; [tauto|]. split; [done|]. split; [done|]. done. }
  split; [tauto|]. split; [done|]. unfold and_then. split.
  - intros _ _ Hno. by rewrite update_agents_unmatched.
  - intros _ _ before a after E H1 Ha.
    rewrite (update_agents_at _ _ st before after a) by done.
    unfold set_record. cbn [Nat.eqb agents with_agents].
    set (a' := AgentUpdate.update_data update ∪ a).
    assert (Hl : forall k, a' !! k =
                   match AgentUpdate.update_data update !! k with
                   | Some v => Some v
                   | None => a !! k
                   end).
    { intros k. unfold a'. rewrite lookup_union.
      destruct (AgentUpdate.update_data update !! k), (a !! k); done. }
    assert (Ha' : matches_record agent_id a' = true).
    { unfold matches_record in *. by rewrite Hl, agent_update_lookup. }
    exists a'. split.
    { rewrite find_first_skip by done. cbn [find_first]. by rewrite Ha'. }
    unfold compose. repeat split.
    + rewrite Hl, agent_update_lookup. by destruct (AgentUpdate.status update).
    + rewrite Hl, agent_update_lookup. by destruct (AgentUpdate.calls_today update).
    + intros k ? ?. rewrite Hl, agent_update_lookup.
      by repeat (destruct (decide (k = _)); [done|]).
Qed.

(** ** Call logs *)

Lemma encodable_call (c : CallLog.t) :
  encodable (CallLog.model_dump c) =
  int64 (CallLog.duration c) && from_option int64 true (CallLog.motivation_score c).
Proof.
  unfold CallLog.model_dump. rewrite encodable_list_to_map.
  - cbn [forallb snd]. rewrite !encodable_opt_int, !encodable_of_option.
    cbn [encodable_value andb]. by rewrite ?andb_true_r.
  - apply (bool_decide_unpack _). vm_compute. reflexivity.
Qed.

Lemma count_call_counting (a : record) (c t : Z) :
  a !! "calls_today" = Some (Scalar (VInt c)) ->
  a !! "total_calls" = Some (Scalar (VInt t)) ->
  int64 (c + 1) = true -> int64 (t + 1) = true ->
  count_call a =
  Return (<[ "total_calls" := Scalar (VInt (t + 1)) ]>
            (<[ "calls_today" := Scalar (VInt (c + 1)) ]> a)).
Proof.
  intros Hc Ht Hc1 Ht1. unfold count_call, inc_record. rewrite Hc. cbn [inc_value].
  rewrite Hc1, lookup_insert_ne, Ht by done. cbn [inc_value]. by rewrite Ht1.
Qed.

Lemma update_agents_counting (id : string) (st : store) :
  Forall counting (agents st) ->
  exists n coll, update_agents id count_call st = (Return n, with_agents coll st).
Proof.
  intros H. destruct (find_first (matches_record id) (agents st)) as [a|] eqn:E.
  - apply find_first_Some in E as (l1 & l2 & E & H1 & Ha).
    rewrite (update_agents_at _ _ st l1 l2 a) by done.
    rewrite E in H. apply Forall_app in H as [_ H]. inversion H as [|? ? Hc _]; subst.
    destruct Hc as (c & t & Hc & Ht & Hc1 & Ht1).
    rewrite (count_call_counting a c t) by done. by eexists _, _.
  - apply find_first_None in E. rewrite update_agents_unmatched by done.
    exists 0%nat, (agents st). by rewrite with_agents_same.
Qed.

Lemma update_leads_frame (id : string) (f : document -> reply document) (st : store) :
  let st' := (update_leads id f st).2 in
  agents st' = agents st /\ buyers st' = buyers st /\ call_logs st' = call_logs st /\
  deals (base st') = deals (base st).
Proof.
  unfold update_leads. destruct (update_first _ _ _) as [[coll n]|e]; done.
Qed.

Lemma update_called_lead_frame (call_data : CallLogCreate.t) (now : string) (st : store) :
  let st' := (update_called_lead call_data now st).2 in
  agents st' = agents st /\ buyers st' = buyers st /\ call_logs st' = call_logs st /\
  deals (base st') = deals (base st).
Proof.
  unfold update_called_lead. destruct (truthy_str _) as [lead_id|]; [|done].
  unfold and_then.
  pose proof (update_leads_frame lead_id (count_attempt now) st) as H1.
  destruct (update_leads lead_id (count_attempt now) st) as [[n|e] st1]; [|exact H1].
  cbn [snd] in H1. destruct H1 as (Ha & Hb & Hc & Hd).
  destruct (truthy_int _) as [score|]; [|done].
  destruct (encodable _); [|done].
  pose proof (update_leads_frame lead_id (set_fields {[ "motivation_score" := VInt score ]}) st1)
    as H2.
  cbn zeta in H2. destruct H2 as (Ha2 & Hb2 & Hc2 & Hd2). by rewrite Ha2, Hb2, Hc2, Hd2.
Qed.

Lemma update_called_lead_skip (call_data : CallLogCreate.t) (now : string) (st : store) :
  CallLogCreate.lead_id call_data = None \/ CallLogCreate.lead_id call_data = Some "" ->
  update_called_lead call_data now st = (Return 0%nat, st).
Proof. unfold update_called_lead. by intros [-> | ->]. Qed.

Lemma encodable_call_of (call_data : CallLogCreate.t) (new_id now : string) :
  encodable (CallLog.model_dump (call_of call_data new_id now)) =
  int64 (CallLogCreate.duration call_data) &&
  from_option int64 true (CallLogCreate.motivation_score call_data).
Proof. by rewrite encodable_call. Qed.

Lemma insert_call_log_fits (call_data : CallLogCreate.t) (new_id now : string) (st : store) :
  int64 (CallLogCreate.duration call_data) &&
  from_option int64 true (CallLogCreate.motivation_score call_data) = true ->
  insert_call_log (CallLog.model_dump (call_of call_data new_id now)) st =
  (Return tt,
   with_call_logs (call_logs st ++ [CallLog.model_dump (call_of call_data new_id now)]) st).
Proof.
  intros H. unfold insert_call_log. by rewrite encodable_call_of, H.
Qed.

(** X17: when the ints of the call ([duration], [motivation_score]) fit
    8 bytes and the first agent that has the call's agent id carries int
    counters [calls_today] and [total_calls] that can still be
    incremented within 8 bytes, the call is appended to the log and both
    counters of that agent go up by one, whatever [daily_call_limit] and
    [status] that agent has: the limit is never compared with the
    counter.  Under these conditions this holds whether or not the update
    of the lead, which comes after, succeeds; buyers and deals are not
    touched. *)
Theorem create_call_log_counts (call_data : CallLogCreate.t) (new_id now : string)
    (st : store) (before after : list record) (a : record) (c t : Z) :
  int64 (CallLogCreate.duration call_data) &&
  from_option int64 true (CallLogCreate.motivation_score call_data) = true ->
  agents st = before ++ a :: after ->
  Forall (fun x => matches_record (CallLogCreate.agent_id call_data) x = false) before ->
  matches_record (CallLogCreate.agent_id call_data) a = true ->
  a !! "calls_today" = Some (Scalar (VInt c)) ->
  a !! "total_calls" = Some (Scalar (VInt t)) ->
  int64 (c + 1) = true -> int64 (t + 1) = true ->
  let st' := (create_call_log call_data new_id now st).2 in
  agents st' =
    before ++ <[ "total_calls" := Scalar (VInt (t + 1)) ]>
                (<[ "calls_today" := Scalar (VInt (c + 1)) ]> a) :: after /\
  call_logs st' = call_logs st ++ [CallLog.model_dump (call_of call_data new_id now)] /\
  buyers st' = buyers st /\ deals (base st') = deals (base st).
Proof.
  intros Hfits E H1 Ha Hc Ht Hc1 Ht1 st'. subst st'.
  unfold create_call_log, and_then. rewrite insert_call_log_fits by done.
  set (st1 := with_call_logs _ st).
  rewrite (update_agents_at _ _ st1 before after a) by done.
  rewrite (count_call_counting a c t) by done.
  set (st2 := with_agents _ st1).
  pose proof (update_called_lead_frame call_data
                (CallLog.created_at (call_of call_data new_id now)) st2) as HF.
  cbn zeta in HF.
  destruct (update_called_lead _ _ st2) as [[n|e] st3]; cbn [snd ret] in *;
    destruct HF as (-> & -> & -> & ->); done.
Qed.

Lemma create_call_log_counts_witness :
  let st' := (create_call_log first_call "call-1" "2026-01-03T00:00:00+00:00" office).2 in
  agents st' =
    [Agent.model_dump (Agent.make "zara_tw" "Zara" AgentRole.RECEPTIONIST ["All"]
       (Some "24/7") (Some 0)
       (Some "https://images.unsplash.com/photo-1771072426488-87e6bbcc0cf7?w=200"))]
    ++ <[ "total_calls" := Scalar (VInt (0 + 1)) ]>
         (<[ "calls_today" := Scalar (VInt (0 + 1)) ]>
            (Agent.model_dump (Agent.make "ace" "Ace" AgentRole.COLD_CALLER
               ["Harris N"; "Harris E"] (Some "9:00 AM - 11:30 AM") None
               (Some "https://images.pexels.com/photos/34129724/pexels-photo-34129724.jpeg?w=200"))))
       :: drop 2 (Agent.model_dump <$> AGENTS_SEED) /\
  call_logs st' =
    call_logs office ++
    [CallLog.model_dump (call_of first_call "call-1" "2026-01-03T00:00:00+00:00")] /\
  buyers st' = buyers office /\ deals (base st') = deals (base office).
Proof.
  apply (create_call_log_counts first_call "call-1" "2026-01-03T00:00:00+00:00" office).
  - reflexivity.
  - reflexivity.
  - constructor; [|constructor]. vm_compute. reflexivity.
  - vm_compute. reflexivity.
  - reflexivity.
  - reflexivity.
  - reflexivity.
  - reflexivity.
Defined.

(** X18: a call whose ints ([duration], [motivation_score]) fit 8 bytes
    and whose agent id no stored agent has is logged all the same: with
    no lead named ([None] or the empty string) the request succeeds, the
    call is appended to the log, and agents, leads, buyers and deals are
    as before. *)
Theorem create_call_log_unknown_agent (call_data : CallLogCreate.t) (new_id now : string)
    (st : store) :
  int64 (CallLogCreate.duration call_data) &&
  from_option int64 true (CallLogCreate.motivation_score call_data) = true ->
  Forall (fun x => matches_record (CallLogCreate.agent_id call_data) x = false) (agents st) ->
  CallLogCreate.lead_id call_data = None \/ CallLogCreate.lead_id call_data = Some "" ->
  create_call_log call_data new_id now st =
  (Return (call_of call_data new_id now),
   with_call_logs (call_logs st ++ [CallLog.model_dump (call_of call_data new_id now)]) st).
Proof.
  intros Hfits Hno Hlead.
  unfold create_call_log, and_then. rewrite insert_call_log_fits by done.
  rewrite update_agents_unmatched by done.
  by rewrite update_called_lead_skip.
Qed.

Lemma create_call_log_unknown_agent_witness :
  create_call_log stray_call "call-1" "2026-01-03T00:00:00+00:00" office =
  (Return (call_of stray_call "call-1" "2026-01-03T00:00:00+00:00"),
   with_call_logs
     (call_logs office ++
      [CallLog.model_dump (call_of stray_call "call-1" "2026-01-03T00:00:00+00:00")]) office).
Proof.
  apply (create_call_log_unknown_agent stray_call "call-1" "2026-01-03T00:00:00+00:00" office).
  - reflexivity.
  - apply Forall_forall. intros x Hx. apply list_elem_of_fmap in Hx as (a & -> & Ha).
    unfold AGENTS_SEED in Ha.
    repeat (apply elem_of_cons in Ha as [-> | Ha]; [vm_compute; reflexivity|]).
    by apply elem_of_nil in Ha.
  - left. reflexivity.
Defined.

(** X19: a call with an int beyond 8 bytes ([duration] or
    [motivation_score]) is refused by the driver with [OverflowError]
    before anything is written. *)
Theorem create_call_log_overflow (call_data : CallLogCreate.t) (new_id now : string)
    (st : store) :
  int64 (CallLogCreate.duration call_data) &&
  from_option int64 true (CallLogCreate.motivation_score call_data) = false ->
  create_call_log call_data new_id now st = (Fail (Exn OverflowError), st).
Proof.
  intros H. unfold create_call_log, and_then, insert_call_log.
  by rewrite encodable_call_of, H.
Qed.

Lemma create_call_log_overflow_witness :
  create_call_log endless_call "call-1" "2026-01-03T00:00:00+00:00" office =
  (Fail (Exn OverflowError), office).
Proof.
  apply (create_call_log_overflow endless_call "call-1" "2026-01-03T00:00:00+00:00" office).
  reflexivity.
Defined.

Lemma count_attempt_int (now : string) (l : document) (n : Z) :
  l !! "total_attempts" = Some (VInt n) -> int64 (n + 1) = true ->
  count_attempt now l =
  Return (<[ "last_called_at" := VStr now ]> (<[ "total_attempts" := VInt (n + 1) ]> l)).
Proof.
  intros Hn Hn1. unfold count_attempt, inc. rewrite Hn. cbn [inc_value]. rewrite Hn1.
  cbv beta iota. unfold set_fields. f_equal. symmetry. apply insert_union_singleton_l.
Qed.

Lemma encodable_score (score : Z) :
  encodable {[ "motivation_score" := VInt score ]} = int64 score.
Proof.
  apply eq_true_iff_eq. rewrite encodable_true. split.
  - intros H. apply (H "motivation_score"). apply lookup_singleton_eq.
  - intros H k z Hk. apply lookup_singleton_Some in Hk as [_ [= <-]]. done.
Qed.

Lemma counting_seed : Forall counting (Agent.model_dump <$> AGENTS_SEED).
Proof.
  apply Forall_fmap, Forall_forall. intros a Ha. unfold AGENTS_SEED in Ha.
  exists 0, 0.
  repeat (apply elem_of_cons in Ha as [-> | Ha]; [by repeat split|]).
  by apply elem_of_nil in Ha.
Qed.

(** X20: when the ints of the call fit 8 bytes, every stored agent
    carries int call counters that can still be incremented, and the
    call names, by a non-empty [lead_id], a stored lead whose
    [total_attempts] is an int that can still be incremented, the request
    succeeds; it adds one to [total_attempts] of the first lead that has
    the id and sets its [last_called_at] to the time of the call; the
    lead's [motivation_score] is overwritten only by a score other than
    [0]: a call that reports no score, or the score [0], leaves it as it
    was.  Every other field of the lead is kept. *)
Theorem create_call_log_lead (call_data : CallLogCreate.t) (new_id now lead_id : string)
    (st : store) (before after : list document) (l : document) (n : Z) :
  int64 (CallLogCreate.duration call_data) &&
  from_option int64 true (CallLogCreate.motivation_score call_data) = true ->
  Forall counting (agents st) ->
  CallLogCreate.lead_id call_data = Some lead_id -> lead_id <> "" ->
  leads (base st) = before ++ l :: after ->
  Forall (fun d => d !! "id" <> Some (VStr lead_id)) before ->
  l !! "id" = Some (VStr lead_id) ->
  l !! "total_attempts" = Some (VInt n) -> int64 (n + 1) = true ->
  exists st' l',
    create_call_log call_data new_id now st = (Return (call_of call_data new_id now), st') /\
    leads (base st') = before ++ l' :: after /\
    l' !! "total_attempts" = Some (VInt (n + 1)) /\
    l' !! "last_called_at" = Some (VStr now) /\
    l' !! "motivation_score" =
      match CallLogCreate.motivation_score call_data with
      | Some score => if score =? 0 then l !! "motivation_score" else Some (VInt score)
      | None => l !! "motivation_score"
      end /\
    forall k, k <> "total_attempts" -> k <> "last_called_at" -> k <> "motivation_score" ->
              l' !! k = l !! k.
Proof.
  intros Hfits Hag Hlead Hne E H1 Hid Hn Hn1. apply find_one_None in H1.
  unfold create_call_log, and_then. rewrite insert_call_log_fits by done.
  set (st1 := with_call_logs _ st).
  destruct (update_agents_counting (CallLogCreate.agent_id call_data) st1 Hag)
    as (m & coll & ->).
  set (st2 := with_agents coll st1).
  unfold update_called_lead, and_then. rewrite Hlead. cbn [truthy_str].
  rewrite bool_decide_eq_false_2 by done.
  rewrite (update_leads_at _ _ st2 before after l) by done.
  cbn [CallLog.created_at call_of].
  rewrite (count_attempt_int now l n) by done.
  set (l1 := <[ "last_called_at" := VStr now ]> (<[ "total_attempts" := VInt (n + 1) ]> l)).
  set (st3 := with_leads _ st2).
  assert (Hl1 : forall k, k <> "total_attempts" -> k <> "last_called_at" -> l1 !! k = l !! k).
  { intros k ? ?. unfold l1. by rewrite !lookup_insert_ne. }
  assert (Hta : l1 !! "total_attempts" = Some (VInt (n + 1))).
  { unfold l1. by rewrite lookup_insert_ne, lookup_insert_eq. }
  assert (Hlc : l1 !! "last_called_at" = Some (VStr now)).
  { unfold l1. by rewrite lookup_insert_eq. }
  destruct (CallLogCreate.motivation_score call_data) as [score|] eqn:Hs; cbn [truthy_int].
  2: { exists st3, l1. cbn [ret]. split; [done|]. split; [done|].
       split; [done|]. split; [done|]. split; [by apply Hl1|].
       intros k ? ? ?. by apply Hl1. }
  destruct (score =? 0) eqn:Hz.
  { exists st3, l1. cbn [ret]. split; [done|]. split; [done|].
    split; [done|]. split; [done|]. split; [by apply Hl1|].
    intros k ? ? ?. by apply Hl1. }
  rewrite encodable_score.
  assert (Hs64 : int64 score = true).
  { apply andb_true_iff in Hfits as [_ Hfits]. by cbn in Hfits. }
  rewrite Hs64.
  rewrite (update_leads_at _ _ st3 before after l1); [|done|done|by rewrite Hl1].
  unfold set_fields. rewrite <- insert_union_singleton_l.
  eexists _, (<[ "motivation_score" := VInt score ]> l1). split; [reflexivity|].
  split; [done|].
  split; [by rewrite lookup_insert_ne|]. split; [by rewrite lookup_insert_ne|].
  split; [by rewrite lookup_insert_eq|].
  intros k ? ? ?. rewrite lookup_insert_ne by done. by apply Hl1.
Qed.

Lemma create_call_log_lead_witness :
  exists st' l',
    create_call_log first_call "call-1" "2026-01-03T00:00:00+00:00" office =
      (Return (call_of first_call "call-1" "2026-01-03T00:00:00+00:00"), st') /\
    leads (base st') = [] ++ l' :: [] /\
    l' !! "total_attempts" = Some (VInt (0 + 1)) /\
    l' !! "last_called_at" = Some (VStr "2026-01-03T00:00:00+00:00") /\
    l' !! "motivation_score" =
      match CallLogCreate.motivation_score first_call with
      | Some score =>
          if score =? 0 then Lead.model_dump first_lead !! "motivation_score"
          else Some (VInt score)
      | None => Lead.model_dump first_lead !! "motivation_score"
      end /\
    forall k, k <> "total_attempts" -> k <> "last_called_at" -> k <> "motivation_score" ->
              l' !! k = Lead.model_dump first_lead !! k.
Proof.
  apply (create_call_log_lead first_call "call-1" "2026-01-03T00:00:00+00:00" "lead-1" office
           [] [] (Lead.model_dump first_lead) 0).
  - reflexivity.
  - exact counting_seed.
  - reflexivity.
  - discriminate.
  - reflexivity.
  - constructor.
  - reflexivity.
  - reflexivity.
  - reflexivity.
Defined.

(** ** Buyers and seed data *)

Lemma length_zero {A} (l : list A) : (length l =? 0)%nat = true <-> l = [].
Proof. destruct l; simpl; split; done. Qed.

Lemma length_nonzero {A} (l : list A) : l <> [] -> (length l =? 0)%nat = false.
Proof. by destruct l. Qed.

Lemma foldl_insert_one {A} (f : A -> document) (l0 : list document) (l : list A) :
  foldl (fun coll a => insert_one coll (f a)) l0 l = l0 ++ (f <$> l).
Proof. apply (foldl_snoc f). Qed.

Lemma length_stamped {A} (stamp : nat -> string * string)
    (samples : list (string -> string -> A)) :
  length (stamped stamp samples) = length samples.
Proof. apply length_imap. Qed.

Lemma seed_agents_spec (st : store) :
  base (seed_agents st) = base st /\ buyers (seed_agents st) = buyers st /\
  call_logs (seed_agents st) = call_logs st /\
  agents (seed_agents st) <> [] /\
  if decide (agents st = []) then length (agents (seed_agents st)) = 11%nat
  else agents (seed_agents st) = agents st.
Proof.
  unfold seed_agents. destruct (decide (agents st = [])) as [E|E].
  - rewrite E. cbn [length Nat.eqb agents with_agents base buyers call_logs].
    rewrite foldl_snoc. cbn [app]. repeat split; try done;
      try (intros H; apply (f_equal length) in H; by rewrite length_fmap in H).
  - by rewrite (length_nonzero _ E).
Qed.

Lemma seed_leads_spec (stamp : nat -> string * string) (st : store) :
  agents (seed_leads stamp st) = agents st /\ buyers (seed_leads stamp st) = buyers st /\
  call_logs (seed_leads stamp st) = call_logs st /\
  deals (base (seed_leads stamp st)) = deals (base st) /\
  leads (base (seed_leads stamp st)) <> [] /\
  if decide (leads (base st) = []) then length (leads (base (seed_leads stamp st))) = 5%nat
  else leads (base (seed_leads stamp st)) = leads (base st).
Proof.
  unfold seed_leads. destruct (decide (leads (base st) = [])) as [E|E].
  - rewrite E. cbn [length Nat.eqb agents with_leads with_base base buyers call_logs
      deals leads].
    rewrite foldl_insert_one. cbn [app]. repeat split; try done;
      try (intros H; apply (f_equal length) in H; by rewrite length_fmap, length_stamped in H);
      by rewrite length_fmap, length_stamped.
  - by rewrite (length_nonzero _ E).
Qed.

Lemma seed_buyers_spec (stamp : nat -> string * string) (st : store) :
  agents (seed_buyers stamp st) = agents st /\ base (seed_buyers stamp st) = base st /\
  call_logs (seed_buyers stamp st) = call_logs st /\
  buyers (seed_buyers stamp st) <> [] /\
  if decide (buyers st = []) then length (buyers (seed_buyers stamp st)) = 3%nat
  else buyers (seed_buyers stamp st) = buyers st.
Proof.
  unfold seed_buyers. destruct (decide (buyers st = [])) as [E|E].
  - rewrite E. cbn [length Nat.eqb agents with_buyers base buyers call_logs].
    rewrite foldl_snoc. cbn [app]. repeat split; try done;
      try (intros H; apply (f_equal length) in H; by rewrite length_fmap, length_stamped in H);
      by rewrite length_fmap, length_stamped.
  - by rewrite (length_nonzero _ E).
Qed.

Lemma seed_deal_spec (stamp : string * string) (st : store) :
  agents (seed_deal stamp st) = agents st /\ buyers (seed_deal stamp st) = buyers st /\
  call_logs (seed_deal stamp st) = call_logs st /\
  leads (base (seed_deal stamp st)) = leads (base st) /\
  deals (base (seed_deal stamp st)) <> [] /\
  if decide (deals (base st) = [])
  then deals (base (seed_deal stamp st)) = [sample_deal stamp.1 stamp.2]
  else deals (base (seed_deal stamp st)) = deals (base st).
Proof.
  unfold seed_deal. destruct (decide (deals (base st) = [])) as [E|E].
  - rewrite E. cbn [length Nat.eqb agents with_deals with_base base buyers call_logs
      deals leads]. by repeat split.
  - by rewrite (length_nonzero _ E).
Qed.

Lemma seed_test_data_seeded (ls bs : nat -> string * string) (ds : string * string)
    (st : store) :
  agents st <> [] -> leads (base st) <> [] -> buyers st <> [] -> deals (base st) <> [] ->
  seed_test_data ls bs ds st = (Return {[ "message" := "Test data seeded successfully" ]}, st).
Proof.
  intros Ha Hl Hb Hd.
  unfold seed_test_data, seed_agents, seed_leads, seed_buyers, seed_deal.
  rewrite (length_nonzero _ Ha). cbv zeta.
  rewrite (length_nonzero _ Hl), (length_nonzero _ Hb), (length_nonzero _ Hd). done.
Qed.

(** X21: [seed_test_data] fills each of the four collections that is
    empty (eleven agents, five leads, three buyers, one deal) and leaves
    each one that holds a document exactly as it is; the call log is not
    touched.  Afterwards no collection is empty, so that a second call,
    whatever ids and times it draws, writes nothing. *)
Theorem seed_test_data_fills_empty (lead_stamp buyer_stamp : nat -> string * string)
    (deal_stamp : string * string) (st : store) :
  exists st',
    seed_test_data lead_stamp buyer_stamp deal_stamp st =
      (Return {[ "message" := "Test data seeded successfully" ]}, st') /\
    (if decide (agents st = []) then length (agents st') = 11%nat
     else agents st' = agents st) /\
    (if decide (leads (base st) = []) then length (leads (base st')) = 5%nat
     else leads (base st') = leads (base st)) /\
    (if decide (buyers st = []) then length (buyers st') = 3%nat
     else buyers st' = buyers st) /\
    (if decide (deals (base st) = [])
     then deals (base st') = [sample_deal deal_stamp.1 deal_stamp.2]
     else deals (base st') = deals (base st)) /\
    call_logs st' = call_logs st /\
    forall lead_stamp' buyer_stamp' deal_stamp',
      seed_test_data lead_stamp' buyer_stamp' deal_stamp' st' =
      (Return {[ "message" := "Test data seeded successfully" ]}, st').
Proof.
  eexists. split; [reflexivity|].
  destruct (seed_agents_spec st) as (B1 & Y1 & C1 & N1 & A1).
  set (st1 := seed_agents st) in *.
  destruct (seed_leads_spec lead_stamp st1) as (A2 & Y2 & C2 & D2 & N2 & L2).
  set (st2 := seed_leads lead_stamp st1) in *.
  destruct (seed_buyers_spec buyer_stamp st2) as (A3 & B3 & C3 & N3 & Y3).
  set (st3 := seed_buyers buyer_stamp st2) in *.
  destruct (seed_deal_spec deal_stamp st3) as (A4 & Y4 & C4 & L4 & N4 & D4).
  set (st4 := seed_deal deal_stamp st3) in *.
  rewrite B1 in L2. rewrite Y2, Y1 in Y3. rewrite B3, D2, B1 in D4.
  split; [by rewrite A4, A3, A2|].
  split; [by rewrite L4, B3|].
  split; [by rewrite Y4|].
  split; [done|].
  split; [by rewrite C4, C3, C2, C1|].
  intros ls' bs' ds'. apply seed_test_data_seeded.
  - by rewrite A4, A3, A2.
  - by rewrite L4, B3.
  - by rewrite Y4.
  - done.
Qed.

Lemma encodable_record_list_to_map (l : list (string * bson)) :
  NoDup l.*1 ->
  encodable_record (list_to_map l) = forallb (fun kv => encodable_bson kv.2) l.
Proof.
  intros Hnd. unfold encodable_record. apply eq_true_iff_eq.
  rewrite bool_decide_eq_true, map_Forall_to_list, forallb_forall.
  rewrite (map_to_list_to_map l Hnd), Forall_forall. split.
  - intros H [k v] Hin. apply (H (k, v)). by apply list_elem_of_In.
  - intros H [k v] Hin. apply (H (k, v)). by apply list_elem_of_In.
Qed.

Lemma encodable_strings (l : list string) : forallb encodable_value (VStr <$> l) = true.
Proof. induction l as [|s l IH]; [done|]. exact IH. Qed.

Lemma encodable_buyer (b : Buyer.t) :
  encodable_record (Buyer.model_dump b) =
  encodable_value (Buyer.number (Buyer.max_price b)) &&
  encodable_value (Buyer.number (Buyer.min_price b)) && int64 (Buyer.deals_purchased b).
Proof.
  unfold Buyer.model_dump. rewrite encodable_record_list_to_map.
  - cbn [forallb snd encodable_bson]. rewrite !encodable_of_option, encodable_strings.
    cbn [encodable_value andb]. by rewrite ?andb_true_r, !andb_assoc.
  - apply (bool_decide_unpack _). vm_compute. reflexivity.
Qed.

Lemma buyer_dump_id (b : Buyer.t) :
  Buyer.model_dump b !! "id" = Some (Scalar (VStr (Buyer.id b))).
Proof. reflexivity. Qed.

(** X22: [create_buyer] always stores the buyer, active, with no deals
    purchased and no last deal date, whatever the request holds, and
    returns it; when no older buyer has the new id, [get_buyer] reads the
    stored document back. *)
Theorem create_buyer_stored (buyer_data : BuyerCreate.t) (new_id now : string) (st : store) :
  exists buyer,
    let st' := with_buyers (buyers st ++ [Buyer.model_dump buyer]) st in
    create_buyer buyer_data new_id now st = (Return buyer, st') /\
    Buyer.id buyer = new_id /\ Buyer.created_at buyer = now /\
    Buyer.is_active buyer = true /\ Buyer.deals_purchased buyer = 0 /\
    Buyer.last_deal_date buyer = None /\
    Buyer.max_price buyer = PyFloat (BuyerCreate.max_price buyer_data) /\
    Buyer.min_price buyer = PyFloat (BuyerCreate.min_price buyer_data) /\
    (Forall (fun x => matches_record new_id x = false) (buyers st) ->
     get_buyer new_id st' = (Return (Buyer.model_dump buyer), st')).
Proof.
  eexists. cbv zeta. split.
  { unfold create_buyer. rewrite encodable_buyer. reflexivity. }
  repeat split. intros Hfresh. unfold get_buyer. cbn [buyers with_buyers].
  rewrite find_first_skip by done. cbn [find_first].
  set (b := Buyer.model_dump _).
  assert (Hid : b !! "id" = Some (Scalar (VStr new_id))) by apply buyer_dump_id.
  assert (Hm : matches_record new_id b = true).
  { unfold matches_record. rewrite Hid. cbn [is_str]. by apply bool_decide_eq_true_2. }
  rewrite Hm. unfold found_record. destruct (decide (b = ∅)) as [He|_]; [|done].
  by rewrite He, lookup_empty in Hid.
Qed.

(** X23: the sample deal that [seed_test_data] stores carries a
    [max_allowable_offer] of [79000.0] that is not the value
    [create_deal] computes in binary64 from the deal's own [arv],
    [rehab_estimate] and [assignment_fee]: that value is smaller, and
    only its rounding to two decimals is [79000.0].  The sample's
    [profit_estimate] is the computed one.  So the sample deal is not
    consistent. *)
Theorem sample_deal_offer_not_computed (new_id now : string) :
  let d := sample_deal new_id now in
  let arv := Float64.of_Z 180000 in
  let contract_price := Float64.of_Z 85000 in
  let rehab := Float64.of_Z 35000 in
  let fee := Float64.of_Z 12000 in
  d !! "arv" = Some (VFloat arv) /\
  d !! "contract_price" = Some (VFloat contract_price) /\
  d !! "rehab_estimate" = Some (VFloat rehab) /\
  d !! "assignment_fee" = Some (VFloat fee) /\
  d !! "profit_estimate" =
    Some (VFloat (Spec.computeProfitEstimate arv contract_price rehab fee)) /\
  d !! "max_allowable_offer" = Some (VFloat (Float64.of_Z 79000)) /\
  Float64.ltb (Spec.computeMAO arv rehab fee) (Float64.of_Z 79000) = true /\
  Float64.round (Spec.computeMAO arv rehab fee) 2 = Float64.of_Z 79000 /\
  ~ consistent d.
Proof.
  cbv zeta.
  assert (Hp : Spec.computeProfitEstimate (Float64.of_Z 180000) (Float64.of_Z 85000)
                 (Float64.of_Z 35000) (Float64.of_Z 12000) = Float64.of_Z 48000)
    by (vm_compute; reflexivity).
  rewrite Hp.
  split; [reflexivity|]. split; [reflexivity|]. split; [reflexivity|].
  split; [reflexivity|]. split; [reflexivity|]. split; [reflexivity|].
  split; [vm_compute; reflexivity|]. split; [vm_compute; reflexivity|].
  intros (a & c & r & f & Ha & Hc & Hr & Hf & Hm & _).
  assert (Ea : sample_deal new_id now !! "arv" = Some (VFloat (Float64.of_Z 180000)))
    by reflexivity.
  assert (Er : sample_deal new_id now !! "rehab_estimate" = Some (VFloat (Float64.of_Z 35000)))
    by reflexivity.
  assert (Ef : sample_deal new_id now !! "assignment_fee" = Some (VFloat (Float64.of_Z 12000)))
    by reflexivity.
  assert (Em : sample_deal new_id now !! "max_allowable_offer"
               = Some (VFloat (Float64.of_Z 79000))) by reflexivity.
  rewrite Ea in Ha. rewrite Er in Hr. rewrite Ef in Hf. rewrite Em in Hm.
  assert (a = Float64.of_Z 180000) as -> by congruence.
  assert (r = Float64.of_Z 35000) as -> by congruence.
  assert (f = Float64.of_Z 12000) as -> by congruence.
  assert (Hv : Spec.computeMAO (Float64.of_Z 180000) (Float64.of_Z 35000) (Float64.of_Z 12000)
               = S754_finite false 5428838662143999 (-36)) by (vm_compute; reflexivity).
  rewrite Hv in Hm.
  assert (Hm' : Float64.of_Z 79000 = S754_finite false 5428838662143999 (-36)) by congruence.
  apply (f_equal (fun x => match x with S754_finite _ m _ => Zpos m | _ => 0 end)) in Hm'.
  vm_compute in Hm'. discriminate.
Qed.

(** ** More on the calculator and on stored values *)

Lemma get_insert_ne (data : gmap string float) (k key : string) (v : float) (default : pynum) :
  k <> key -> get (<[ k := v ]> data) key default = get data key default.
Proof. intros H. unfold get. by rewrite lookup_insert_ne. Qed.

(** X24: the calculator reads [arv], [rehab_estimate] and
    [assignment_fee] and nothing else: any other key of the request
    body, a contract price for one, has no effect on the response. *)
Theorem calculate_mao_ignores_other_keys (data : gmap string float) (k : string) (v : float) :
  k <> "arv" -> k <> "rehab_estimate" -> k <> "assignment_fee" ->
  calculate_mao (<[ k := v ]> data) = calculate_mao data.
Proof.
  intros H1 H2 H3. rewrite !calculate_mao_response. by rewrite !get_insert_ne.
Qed.

Lemma calculate_mao_ignores_other_keys_witness :
  calculate_mao (<[ "contract_price" := Float64.of_Z 85000 ]> scenario_1_data) =
  calculate_mao scenario_1_data.
Proof.
  apply (calculate_mao_ignores_other_keys scenario_1_data "contract_price"
           (Float64.of_Z 85000)); discriminate.
Defined.

Lemma sub_nan_l (x : float) : Float64.sub S754_nan x = S754_nan.
Proof. by destruct x. Qed.

Lemma sub_nan_r (x : float) : Float64.sub x S754_nan = S754_nan.
Proof. by destruct x. Qed.

Lemma mul_nan_r (x : float) : Float64.mul x S754_nan = S754_nan.
Proof. by destruct x. Qed.

Lemma get_present (data : gmap string float) (key : string) (default : pynum) (f : float) :
  data !! key = Some f -> get data key default = PyFloat f.
Proof. intros H. unfold get. by rewrite H. Qed.

(** X25: non-finite inputs pass through the calculator without an
    exception.  A NaN in any of the three inputs makes both
    [max_allowable_offer] and [profit_at_mao] NaN; an infinite [arv] with
    finite [rehab_estimate] and [assignment_fee] gives an infinite
    [max_allowable_offer] and a [profit_at_mao] of NaN. *)
Theorem calculate_mao_non_finite (data : gmap string float) :
  exists out,
    calculate_mao data = Ok out /\
    (data !! "arv" = Some S754_nan \/ data !! "rehab_estimate" = Some S754_nan \/
     data !! "assignment_fee" = Some S754_nan ->
     out !! "max_allowable_offer" = Some (PyFloat S754_nan) /\
     out !! "profit_at_mao" = Some (PyFloat S754_nan)) /\
    (forall s : bool,
       data !! "arv" = Some (S754_infinity s) ->
       Float64.is_finite (to_float (get data "rehab_estimate" (PyInt 0))) = true ->
       Float64.is_finite (to_float (get data "assignment_fee" (PyInt 10000))) = true ->
       out !! "max_allowable_offer" = Some (PyFloat (S754_infinity s)) /\
       out !! "profit_at_mao" = Some (PyFloat S754_nan) /\
       out !! "seventy_percent_arv" = Some (PyFloat (S754_infinity s))).
Proof.
  eexists. split; [apply calculate_mao_response|].
  destruct (mao_response_lookup (get data "arv" (PyInt 0))
              (get data "rehab_estimate" (PyInt 0)) (get data "assignment_fee" (PyInt 10000)))
    as (_ & _ & _ & Hm & Hp & Hs).
  rewrite Hm, Hp, Hs. clear Hm Hp Hs.
  unfold Spec.computeProfitAtMAO, Spec.computeMAO.
  set (r := to_float (get data "rehab_estimate" (PyInt 0))).
  set (f := to_float (get data "assignment_fee" (PyInt 10000))).
  split.
  - intros [H|[H|H]].
    + rewrite (get_present _ _ _ _ H). cbn [to_float].
      by rewrite mul_nan_r, !sub_nan_l.
    + assert (r = S754_nan) as -> by (unfold r; by rewrite (get_present _ _ _ _ H)).
      by rewrite !sub_nan_r, !sub_nan_l.
    + assert (f = S754_nan) as -> by (unfold f; by rewrite (get_present _ _ _ _ H)).
      by rewrite !sub_nan_r.
  - intros s H Hr Hf. rewrite (get_present _ _ _ _ H). cbn [to_float].
    clearbody r f. destruct r as [sr|sr| |sr mr er]; try discriminate;
      destruct f as [sf|sf| |sf mf ef]; try discriminate; by destruct s.
Qed.

Lemma amount_within (k : Z) (x : float) : amount k x -> within (bpow k) x.
Proof.
  intros (_ & F & B). split; [done|]. apply Rabs_le. lra.
Qed.

(** The offer that the calculator returns, after [round(_, 2)], against
    the real number [0.70 * arv - rehab - fee]. *)
Lemma offer_rounded_bound (k : Z) (arv rehab fee : float) :
  amount k arv -> amount k rehab -> amount k fee -> 0 <= k <= 1021 ->
  Float64.is_finite (Float64.round (Spec.computeMAO arv rehab fee) 2) = true /\
  (Rabs (B2R (Float64.round (Spec.computeMAO arv rehab fee) 2)
         - (7 / 10 * B2R arv - B2R rehab - B2R fee)) <= 1 / 200 + bpow (k - 50))%R.
Proof.
  intros Ha Hr Hf Hk.
  destruct (max_allowable_offer_bound k arv rehab fee Ha Hr Hf ltac:(lia)) as [Fm Bm].
  destruct Ha as (_ & _ & Ba), Hr as (_ & _ & Br), Hf as (_ & _ & Bf).
  set (m := Spec.computeMAO arv rehab fee) in *. clearbody m.
  pose proof (bpow_pos (k - 54)) as Hu.
  pose proof (bpow_unit k 54 ltac:(lia)) as E0. replace (k - 54 + 54) with k in E0 by lia.
  pose proof (bpow_unit k 56 ltac:(lia)) as E1. replace (k - 54 + 56) with (k + 2) in E1 by lia.
  pose proof (bpow_unit k 2 ltac:(lia)) as E2. replace (k - 54 + 2) with (k + 2 - 54) in E2 by lia.
  pose proof (bpow_unit k 3 ltac:(lia)) as E3. replace (k - 54 + 3) with (k - 51) in E3 by lia.
  pose proof (bpow_unit k 4 ltac:(lia)) as E4. replace (k - 54 + 4) with (k - 50) in E4 by lia.
  pose proof (bpow_le 0 k ltac:(lia)) as H1. rewrite bpow_0 in H1.
  change (2 ^ 54) with 18014398509481984 in E0. change (2 ^ 56) with 72057594037927936 in E1.
  change (2 ^ 2) with 4 in E2. change (2 ^ 3) with 8 in E3. change (2 ^ 4) with 16 in E4.
  apply Rabs_le_between in Bm.
  destruct (round_2_close m (k + 2) Fm) as [Fq Bq]; [|lia|].
  { apply Rle_lt_trans with (2 * bpow k + bpow (k - 51) + 1 / 200)%R; [|lra].
    apply Rplus_le_compat_r. apply Rabs_le. lra. }
  split; [exact Fq|]. apply Rabs_le_between in Bq. apply Rabs_le. lra.
Qed.

(** X26: for finite non-negative [arv], [rehab_estimate] and
    [assignment_fee] of at most [2^k], supplied or defaulted, the
    [max_allowable_offer] that the calculator returns is finite and
    within [0.005 + 2^(k-50)] of the real number
    [0.70 * arv - rehab - fee]. *)
Theorem calculate_mao_offer_accuracy (data : gmap string float) (k : Z) :
  let arv := to_float (get data "arv" (PyInt 0)) in
  let rehab := to_float (get data "rehab_estimate" (PyInt 0)) in
  let fee := to_float (get data "assignment_fee" (PyInt 10000)) in
  amount k arv -> amount k rehab -> amount k fee -> 0 <= k <= 1021 ->
  exists out q,
    calculate_mao data = Ok out /\
    out !! "max_allowable_offer" = Some (PyFloat q) /\
    Float64.is_finite q = true /\
    (Rabs (B2R q - (7 / 10 * B2R arv - B2R rehab - B2R fee)) <= 1 / 200 + bpow (k - 50))%R.
Proof.
  intros arv rehab fee Ha Hr Hf Hk.
  eexists _, _. split; [apply calculate_mao_response|].
  split; [apply mao_response_lookup|]. by apply offer_rounded_bound.
Qed.

Lemma calculate_mao_offer_accuracy_witness :
  let arv := to_float (get scenario_1_data "arv" (PyInt 0)) in
  let rehab := to_float (get scenario_1_data "rehab_estimate" (PyInt 0)) in
  let fee := to_float (get scenario_1_data "assignment_fee" (PyInt 10000)) in
  exists out q,
    calculate_mao scenario_1_data = Ok out /\
    out !! "max_allowable_offer" = Some (PyFloat q) /\
    Float64.is_finite q = true /\
    (Rabs (B2R q - (7 / 10 * B2R arv - B2R rehab - B2R fee)) <= 1 / 200 + bpow (18 - 50))%R.
Proof.
  apply (calculate_mao_offer_accuracy scenario_1_data 18).
  - replace (get scenario_1_data "arv" (PyInt 0)) with (PyFloat (Float64.of_Z 200000))
      by (vm_compute; reflexivity).
    apply amount_of_Z; [vm_compute; split; discriminate | lia | reflexivity].
  - replace (get scenario_1_data "rehab_estimate" (PyInt 0))
      with (PyFloat (Float64.of_Z 35000)) by (vm_compute; reflexivity).
    apply amount_of_Z; [vm_compute; split; discriminate | lia | reflexivity].
  - replace (get scenario_1_data "assignment_fee" (PyInt 10000))
      with (PyFloat (Float64.of_Z 10000)) by (vm_compute; reflexivity).
    apply amount_of_Z; [vm_compute; split; discriminate | lia | reflexivity].
  - lia.
Defined.

Lemma within_weaken (b b' : R) (x : float) : (b <= b')%R -> within b x -> within b' x.
Proof. intros H [F B]. split; [done|]. lra. Qed.

(** X27: for finite non-negative [arv], [rehab_estimate] and
    [assignment_fee] of at most [2^k] and a contract price of magnitude
    at most [3 * 2^k], the two derived fields that [create_deal] returns
    and stores are finite, the offer within [2^(k-51)] of the real number
    [0.70 * arv - rehab - fee] and the profit within [24 * 2^(k-54)] of
    [arv - contract_price - rehab - fee]. *)
Theorem create_deal_accuracy (deal_data : DealCreate.t) (new_id now : string)
    (db : database) (k : Z) :
  let arv := DealCreate.arv deal_data in
  let rehab := DealCreate.rehab_estimate deal_data in
  let fee := DealCreate.assignment_fee deal_data in
  let price := DealCreate.contract_price deal_data in
  let deal := (create_deal deal_data new_id now db).1 in
  amount k arv -> amount k rehab -> amount k fee -> within (3 * bpow k) price ->
  -1021 <= k <= 1020 ->
  Float64.is_finite (Deal.max_allowable_offer deal) = true /\
  (Rabs (B2R (Deal.max_allowable_offer deal) - (7 / 10 * B2R arv - B2R rehab - B2R fee))
   <= bpow (k - 51))%R /\
  Float64.is_finite (Deal.profit_estimate deal) = true /\
  (Rabs (B2R (Deal.profit_estimate deal) - (B2R arv - B2R price - B2R rehab - B2R fee))
   <= 24 * bpow (k - 54))%R.
Proof.
  intros arv rehab fee price deal Ha Hr Hf Hp Hk. subst deal.
  rewrite create_deal_mao, create_deal_profit.
  destruct (max_allowable_offer_bound k arv rehab fee Ha Hr Hf ltac:(lia)) as [F1 B1].
  destruct (profit_estimate_bound k arv price rehab fee (amount_within _ _ Ha) Hp
              (amount_within _ _ Hr) (amount_within _ _ Hf) Hk) as [F2 B2].
  done.
Qed.

Lemma create_deal_accuracy_witness :
  let arv := DealCreate.arv scenario_2_deal in
  let rehab := DealCreate.rehab_estimate scenario_2_deal in
  let fee := DealCreate.assignment_fee scenario_2_deal in
  let price := DealCreate.contract_price scenario_2_deal in
  let deal := (create_deal scenario_2_deal "deal-1" "2026-01-01T00:00:00+00:00" empty_db).1 in
  Float64.is_finite (Deal.max_allowable_offer deal) = true /\
  (Rabs (B2R (Deal.max_allowable_offer deal) - (7 / 10 * B2R arv - B2R rehab - B2R fee))
   <= bpow (18 - 51))%R /\
  Float64.is_finite (Deal.profit_estimate deal) = true /\
  (Rabs (B2R (Deal.profit_estimate deal) - (B2R arv - B2R price - B2R rehab - B2R fee))
   <= 24 * bpow (18 - 54))%R.
Proof.
  apply (create_deal_accuracy scenario_2_deal "deal-1" "2026-01-01T00:00:00+00:00" empty_db 18).
  - change (DealCreate.arv scenario_2_deal) with (Float64.of_Z 180000).
    apply amount_of_Z; [vm_compute; split; discriminate | lia | reflexivity].
  - change (DealCreate.rehab_estimate scenario_2_deal) with (Float64.of_Z 35000).
    apply amount_of_Z; [vm_compute; split; discriminate | lia | reflexivity].
  - change (DealCreate.assignment_fee scenario_2_deal) with (Float64.of_Z 12000).
    apply amount_of_Z; [vm_compute; split; discriminate | lia | reflexivity].
  - change (DealCreate.contract_price scenario_2_deal) with (Float64.of_Z 85000).
    apply (within_weaken (bpow 18)).
    + pose proof (bpow_pos 18). lra.
    + apply within_of_Z; [vm_compute; discriminate | lia].
  - lia.
Defined.

